(** * mecat-ansto: the MetaMan block parser and dataset grouper

    A shallow embedding of [mecat/register.py]: the [Datafile] accumulator,
    the per-beamline configuration table [_config], the helpers
    [_acceptFile], [_isDatasetMetadata] and [_getDatasetName], and the three
    in-memory phases of [_parse_metaman] (sample sheet, block parser,
    dataset grouping).  Python 2 byte strings are Rocq [string]s, dicts are
    [gmap]s, exceptions are an error monad. *)

From Stdlib Require Import ZArith Ascii String List Lia.
From stdpp Require Import base option list gmap strings.

(** ** Python built-ins used by the module *)

Module Py.

Inductive exn : Type :=
  | KeyError
  | IndexError
  | ValueError
  | TypeError
  | AttributeError
  | MultipleObjectsReturned.

Inductive result (A : Type) : Type :=
  | Ok (a : A)
  | Raise (e : exn).
Arguments Ok {A} a.
Arguments Raise {A} e.

#[global] Instance result_ret : MRet result := fun _ a => Ok a.
#[global] Instance result_bind : MBind result := fun _ _ f m =>
  match m with
  | Ok a => f a
  | Raise e => Raise e
  end.

#[global] Instance exn_eq_dec : EqDecision exn.
Proof. solve_decision. Defined.

(** [try: body except: handler] with a bare [except]. *)
Definition try_except {A} (body : result A) (handler : A) : A :=
  match body with
  | Ok a => a
  | Raise _ => handler
  end.

Definition nl : ascii := "010"%char.
Definition NL : string := String nl "".

(** [s.startswith(pre)] *)
Definition startswith (pre s : string) : bool := String.prefix pre s.

(** [s.rstrip(c)] for a one-character argument. *)
Fixpoint rstrip (c : ascii) (s : string) : string :=
  match s with
  | "" => ""
  | String a s' =>
      match rstrip c s' with
      | "" => if Ascii.eqb a c then "" else String a ""
      | r => String a r
      end
  end.

(** A slice bound, as Python normalises it against the length. *)
Definition clamp (len : nat) (i : Z) : nat :=
  if (i <? 0)%Z then Z.to_nat (Z.max 0 (Z.of_nat len + i))
  else Nat.min (Z.to_nat i) len.

(** [s[start:stop]]; a missing bound is [None]. *)
Definition slice (start stop : option Z) (s : string) : string :=
  let len := String.length s in
  let lo := from_option (clamp len) 0 start in
  let hi := from_option (clamp len) len stop in
  String.substring lo (hi - lo) s.

(** [l[i]] with Python's negative indices. *)
Definition getitem {A} (l : list A) (i : Z) : result A :=
  let j := if (i <? 0)%Z then (Z.of_nat (length l) + i)%Z else i in
  if (j <? 0)%Z then Raise IndexError
  else match l !! Z.to_nat j with
       | Some x => Ok x
       | None => Raise IndexError
       end.

(** The scan shared by [split], [count] and [replace]: left to right, a
    match of the pattern consumes it whole ([skip] counts what is left of
    the match being consumed). *)
Fixpoint split_go (sep : string) (maxsplit : option nat) (skip : nat)
    (s : string) : string * list string :=
  match s with
  | "" => ("", [])
  | String c s' =>
      match skip with
      | S k => split_go sep maxsplit k s'
      | O =>
          if negb (bool_decide (maxsplit = Some 0)) && String.prefix sep s
          then let '(t, ts) :=
                 split_go sep (Nat.pred <$> maxsplit) (String.length sep - 1) s'
               in ("", t :: ts)
          else let '(t, ts) := split_go sep maxsplit 0 s' in (String c t, ts)
      end
  end.

(** [s.split(sep)] ([maxsplit = None]) and [s.split(sep, n)], for a
    non-empty [sep] (every call in the module passes a literal). *)
Definition split (sep : string) (maxsplit : option nat) (s : string)
    : list string :=
  let '(t, ts) := split_go sep maxsplit 0 s in t :: ts.

(** [s.rsplit(sep, n)]: the same scan from the right end. *)
Definition rsplit (sep : string) (maxsplit : option nat) (s : string)
    : result (list string) :=
  if decide (sep = "") then Raise ValueError
  else Ok (reverse (String.rev <$> split (String.rev sep) maxsplit (String.rev s))).

(** [s.count(sep)], non-overlapping occurrences. *)
Fixpoint count_go (sep : string) (skip : nat) (s : string) : nat :=
  match s with
  | "" => 0
  | String c s' =>
      match skip with
      | S k => count_go sep k s'
      | O =>
          if String.prefix sep s
          then S (count_go sep (String.length sep - 1) s')
          else count_go sep 0 s'
      end
  end.
Definition count (sep s : string) : nat := count_go sep 0 s.

(** [sep in s] *)
Fixpoint contains (sep s : string) : bool :=
  String.prefix sep s ||
  match s with
  | "" => false
  | String _ s' => contains sep s'
  end.

(** [s.replace(old, new)] for a non-empty [old]. *)
Fixpoint replace_go (old new : string) (skip : nat) (s : string) : string :=
  match s with
  | "" => ""
  | String c s' =>
      match skip with
      | S k => replace_go old new k s'
      | O =>
          if String.prefix old s
          then new +:+ replace_go old new (String.length old - 1) s'
          else String c (replace_go old new 0 s')
      end
  end.
Definition replace (old new s : string) : string := replace_go old new 0 s.

(** [s.rfind(c) + 1] then [s[i:]], as [posixpath.basename] does. *)
Fixpoint basename (p : string) : string :=
  match p with
  | "" => ""
  | String c p' =>
      if contains "/" p' then basename p'
      else if Ascii.eqb c "/" then p' else p
  end.

(** ASCII case folding, as [re.IGNORECASE] does on byte strings. *)
Definition lower_ascii (c : ascii) : ascii :=
  let n := nat_of_ascii c in
  if (65 <=? n)%nat && (n <=? 90)%nat then ascii_of_nat (n + 32) else c.
Fixpoint lower (s : string) : string :=
  match s with
  | "" => ""
  | String c s' => String (lower_ascii c) (lower s')
  end.

(** [s.endswith(suf)] *)
Definition endswith (suf s : string) : bool :=
  (String.length suf <=? String.length s)%nat
  && String.eqb
       (String.substring (String.length s - String.length suf)
                         (String.length suf) s)
       suf.

End Py.
Import Py.

(** ** The beamline configuration table *)

(** A value of the [groupDSRules] list: a rule name or separator, or a
    path-segment index. *)
Inductive PyVal : Type :=
  | VStr (s : string)
  | VInt (i : Z).

(** A compiled regular expression, as the function [pattern.match] computes
    (a match object is returned or [None]). *)
Definition Pattern : Type := string -> bool.

Record BeamlineConfig : Type := mkBeamlineConfig {
  dfSchema : string;
  filetypes : Pattern;
  groupDSRules : list PyVal;
  metadata : option Pattern;
  beamline_group : string;
}.

(** [re.compile('.*\.(pdf)$|.*\.(hdf)$', re.IGNORECASE).match]: [.] stops at
    a newline and [$] also matches before one final newline. *)
Definition re_pdf_hdf : Pattern := fun s =>
  let body := if endswith NL s then slice None (Some (-1)%Z) s else s in
  negb (contains NL body)
  && (endswith ".pdf" (lower body) || endswith ".hdf" (lower body)).

Definition ansto_beamline (schema group : string) : BeamlineConfig :=
  {| dfSchema := schema;
     filetypes := re_pdf_hdf;
     groupDSRules := [VStr "sample"];
     metadata := None;
     beamline_group := group |}.

(** The table as the module ships it. *)
Definition ansto_config : gmap string BeamlineConfig :=
  <["Echidna" := ansto_beamline "http://www.tardis.edu.au/schemas/ansto/ech/2011/06/21" "BEAMLINE_ECH"]>
  (<["Kowari" := ansto_beamline "http://www.tardis.edu.au/schemas/ansto/kwr/2011/06/21" "BEAMLINE_KWR"]>
  (<["Platypus" := ansto_beamline "http://www.tardis.edu.au/schemas/ansto/plp/2011/06/21" "BEAMLINE_PLP"]>
  (<["Quokka" := ansto_beamline "http://www.tardis.edu.au/schemas/ansto/qkk/2011/06/21" "BEAMLINE_QKK"]>
  (<["Wombat" := ansto_beamline "http://www.tardis.edu.au/schemas/ansto/wbt/2011/06/21" "BEAMLINE_WBT"]>
  ∅)))).

(** A table in which one beamline names a metadata marker: Wombat with
    ['metadata': re.compile('meta')], files whose basename starts with
    [meta] carrying the dataset's metadata. *)
Definition re_meta : Pattern := fun s => startswith "meta" s.

Definition marker_config : gmap string BeamlineConfig :=
  <["Wombat" := {| dfSchema := "http://www.tardis.edu.au/schemas/ansto/wbt/2011/06/21";
                   filetypes := re_pdf_hdf;
                   groupDSRules := [VStr "sample"];
                   metadata := Some re_meta;
                   beamline_group := "BEAMLINE_WBT" |}]> ansto_config.

(** ** class Datafile *)

Module Datafile.

(** [size] starts as the integer 0 and is overwritten by a string. *)
Inductive Size : Type :=
  | SizeInt (n : Z)
  | SizeStr (s : string).

Record t : Type := mk {
  data : gmap string (list string);
  name : string;
  size : Size;
}.

Definition __init__ (name : string) : t :=
  {| data := ∅; name := name; size := SizeInt 0 |}.

Definition __setitem__ (self : t) (key value : string) : t :=
  if decide (key = "File Size") then
    {| data := data self; name := name self;
       size := SizeStr (replace " bytes" "" value) |}
  else
    let key := replace "/" "" (replace " " "" key) in
    match data self !! key with
    | Some vs =>
        {| data := <[key := vs ++ [value]]> (data self);
           name := name self; size := size self |}
    | None =>
        {| data := <[key := [value]]> (data self);
           name := name self; size := size self |}
    end.

Definition __getitem__ (self : t) (key : string) : result (list string) :=
  match data self !! key with
  | Some vs => Ok vs
  | None => Raise KeyError
  end.

Definition __len__ (self : t) : nat := base.size (data self).

Definition getSize (self : t) : Size := size self.

Definition hasMetadata (self : t) : bool :=
  bool_decide (0 < __len__ self).

Definition getBeamline (self : t) : result string :=
  getitem (split "/" None (name self)) 0.

Definition __delitem__ (self : t) (key : string) : result t :=
  match data self !! key with
  | Some _ =>
      Ok {| data := delete key (data self); name := name self;
            size := size self |}
  | None => Raise KeyError
  end.

Definition getProtocol (self : t) : string := "vbl".

End Datafile.

(** ** class DatasetMetadata, and what a [metadata] entry can hold *)

Module DatasetMetadata.

Record t : Type := mk { data : gmap string (list string) }.

Definition __init__ : t := {| data := ∅ |}.

Definition __setitem__ (self : t) (key : string) (value : list string) : t :=
  {| data := <[key := value]> (data self) |}.

Definition __getitem__ (self : t) (key : string) : result (list string) :=
  match data self !! key with
  | Some value => Ok value
  | None => Raise KeyError
  end.

Definition __len__ (self : t) : nat := size (data self).

Definition __delitem__ (self : t) (key : string) : result t :=
  match data self !! key with
  | Some _ => Ok {| data := delete key (data self) |}
  | None => Raise KeyError
  end.

End DatasetMetadata.

(** [metadata[dsName]] is a [DatasetMetadata] placeholder or the [Datafile]
    that carries the dataset's metadata. *)
Inductive MetadataEntry : Type :=
  | Placeholder (m : DatasetMetadata.t)
  | Carrier (df : Datafile.t).

(** ** Helpers reading the table *)

Section Helpers.

Variable _config : gmap string BeamlineConfig.

Definition config_get (beamline : string) : result BeamlineConfig :=
  match _config !! beamline with
  | Some c => Ok c
  | None => Raise KeyError
  end.

Definition _acceptFile (name beamline : string) : result bool :=
  let basename := basename name in
  c ← config_get beamline;
  let pattern := filetypes c in
  Ok (pattern basename).

Definition _isDatasetMetadata (df : Datafile.t) (beamline : string)
    : result bool :=
  let basename := basename (Datafile.name df) in
  c ← config_get beamline;
  match metadata c with
  | Some pattern => Ok (pattern basename)
  | None => Ok false
  end.

Definition _getDatasetName (df : Datafile.t) (beamline : string)
    : result string :=
  c ← config_get beamline;
  ds_rule ← getitem (groupDSRules c) 0;
  match ds_rule with
  | VStr "file" =>
      sep ← getitem (groupDSRules c) 1;
      match sep with
      | VStr sep =>
          parts ← rsplit sep (Some 1) (Datafile.name df);
          getitem parts 0
      | VInt _ => Raise TypeError
      end
  | VStr "directory" =>
      item ← getitem (groupDSRules c) 1;
      let tokens := split "/" None (Datafile.name df) in
      match item with
      | VInt item => getitem tokens item
      | VStr _ => Raise TypeError
      end
  | VStr "sample" =>
      match (vs ← Datafile.__getitem__ df "sample_name"; getitem vs 0) with
      | Ok name => Ok name
      | Raise KeyError =>
          name ← getitem (split "/" None (Datafile.name df)) 1;
          if startswith "LogBook" name then Ok "Log Books" else Ok name
      | Raise e => Raise e
      end
  | _ => Ok (Datafile.name df)
  end.

End Helpers.

(** ** _parse_metaman, phase I: the block parser *)

(** [files] is the list being built; [df] is the open record, a reference
    to an element of [files] (its index), so that [df[key] = value] updates
    the record the list holds. *)
Record ParseState : Type := mkParseState {
  files : list Datafile.t;
  df : option nat;
}.

Definition parse_init : ParseState := {| files := []; df := None |}.

(** [line[0:3] == '<b>' and line[-5:] == '</b>:'] *)
Definition is_marker (line : string) : bool :=
  bool_decide (slice (Some 0%Z) (Some 3%Z) line = "<b>")
  && bool_decide (slice (Some (-5)%Z) None line = "</b>:").

Section Parser.

Variable _config : gmap string BeamlineConfig.
Variable beamlines : list string.

(** One iteration of [for line in metaman]. *)
Definition parse_line (st : ParseState) (line : string) : result ParseState :=
  let line := rstrip nl line in
  if is_marker line then
    let path := slice (Some 4%Z) (Some (-5)%Z) line in
    beamline ← getitem (split "/" None path) 0;
    if bool_decide (beamline ∉ beamlines) then Ok st
    else
      accept ← _acceptFile _config path beamline;
      if accept : bool then
        Ok {| files := files st ++ [Datafile.__init__ path];
              df := Some (length (files st)) |}
      else Ok st
  else if decide (line = "") then Ok {| files := files st; df := None |}
  else
    match df st with
    | Some i =>
        Ok (try_except
              (let token := split " : " (Some 1) line in
               if bool_decide (1 < length token) then
                 key ← getitem token 0;
                 value ← getitem token 1;
                 Ok {| files :=
                         alter (fun d => Datafile.__setitem__ d key value) i
                               (files st);
                       df := df st |}
               else Ok st)
              st)
    | None => Ok st
    end.

Fixpoint parse_lines (st : ParseState) (metaman : list string)
    : result ParseState :=
  match metaman with
  | [] => Ok st
  | line :: rest => st' ← parse_line st line; parse_lines st' rest
  end.

Definition parse (metaman : list string) : result (list Datafile.t) :=
  st ← parse_lines parse_init metaman; Ok (files st).

End Parser.

(** ** _parse_metaman, phase II: grouping files into datasets *)

Module Grouping.

Record t : Type := mk {
  datasets : gmap string (list Datafile.t);
  metadata : gmap string MetadataEntry;
}.

Definition init : t := {| datasets := ∅; metadata := ∅ |}.

(** [DatasetMetadata()] with [.data = {'sample_name': [dsName]}] *)
Definition placeholder (dsName : string) : MetadataEntry :=
  Placeholder {| DatasetMetadata.data := {["sample_name" := [dsName]]} |}.

Section Loop.

Variable _config : gmap string BeamlineConfig.

(** One iteration of [for df in files].  The records are no longer
    mutated in this phase, so the dicts hold them by value. *)
Definition step (g : t) (df : Datafile.t) : result t :=
  if negb (Datafile.hasMetadata df) then Ok g
  else
    beamline ← Datafile.getBeamline df;
    dsName ← _getDatasetName _config df beamline;
    let metadata0 := <[dsName := placeholder dsName]> (metadata g) in
    is_meta ← _isDatasetMetadata _config df beamline;
    if negb is_meta then
      match datasets g !! dsName with
      | None =>
          Ok {| datasets := <[dsName := [df]]> (datasets g);
                metadata := metadata0 |}
      | Some ds =>
          Ok {| datasets := <[dsName := ds ++ [df]]> (datasets g);
                metadata := metadata0 |}
      end
    else
      Ok {| datasets := datasets g;
            metadata := <[dsName := Carrier df]> metadata0 |}.

Fixpoint loop (g : t) (files : list Datafile.t) : result t :=
  match files with
  | [] => Ok g
  | df :: rest => g' ← step g df; loop g' rest
  end.

Definition group (files : list Datafile.t) : result t := loop init files.

End Loop.

End Grouping.

(** ** _parse_metaman: the sample sheet *)

Module Sample.

Inductive Schema : Type :=
  | sample_schema
  | chemical_schema.

(** An [ExperimentParameterSet] row with the [ExperimentParameter] rows
    saved against it, in the order they were saved: each is the
    [ParameterName] found in the catalogue and the [string_value]. *)
Record ExperimentParameterSet : Type := mkSet {
  schema : Schema;
  parameters : list (string * string);
}.

(** The rows saved so far, and the two local variables, which refer to rows
    (by position). *)
Record t : Type := mk {
  sets : list ExperimentParameterSet;
  sample_ps : option nat;
  chemical_ps : option nat;
}.

Definition init : t := {| sets := []; sample_ps := None; chemical_ps := None |}.

(** What [ParameterName.objects.get(schema=.., name__iexact=key)] can do. *)
Inductive Lookup : Type :=
  | Found (param_name : string)
  | DoesNotExist
  | MultipleReturned.

(** [key, value = tokens] *)
Definition unpack2 (tokens : list string) : result (string * string) :=
  match tokens with
  | [key; value] => Ok (key, value)
  | _ => Raise ValueError
  end.

Section Loop.

(** The parameter-name catalogue of the metadata repository. *)
Variable ParameterName_get : Schema -> string -> Lookup.

Definition add_parameter (i : nat) (p : string * string) (st : t) : t :=
  {| sets := alter (fun ps => {| schema := schema ps;
                                 parameters := parameters ps ++ [p] |})
                   i (sets st);
     sample_ps := sample_ps st;
     chemical_ps := chemical_ps st |}.

(** One iteration of [for line in sample]. *)
Definition step (st : t) (line : string) : result t :=
  let line := rstrip nl line in
  if decide (line = "") then Ok st
  else
    '(key, value) ← unpack2 (split " : " None line);
    let st :=
      if bool_decide (key = "SampleDescription")
         || bool_decide (sample_ps st = None) then
        {| sets := sets st ++ [{| schema := sample_schema; parameters := [] |}];
           sample_ps := Some (length (sets st));
           chemical_ps := None |}
      else if bool_decide (key = "ChemicalName") then
        {| sets := sets st ++ [{| schema := chemical_schema; parameters := [] |}];
           sample_ps := sample_ps st;
           chemical_ps := Some (length (sets st)) |}
      else st in
    if decide (value = "") then Ok st
    else
      (* [chemical_ps or sample_ps] *)
      let paramset :=
        match chemical_ps st with
        | Some i => Some i
        | None => sample_ps st
        end in
      match paramset ≫= (fun i => (fun ps => (i, ps)) <$> sets st !! i) with
      | Some (i, ps) =>
          match ParameterName_get (schema ps) key with
          | Found param_name => Ok (add_parameter i (param_name, value) st)
          | DoesNotExist => Ok st
          | MultipleReturned => Raise MultipleObjectsReturned
          end
      | None => Raise AttributeError (* [None.schema]; a set is always open here *)
      end.

Fixpoint loop (st : t) (sample : list string) : result t :=
  match sample with
  | [] => Ok st
  | line :: rest => st' ← step st line; loop st' rest
  end.

Definition parse (sample : list string) : result (list ExperimentParameterSet) :=
  st ← loop init sample; Ok (sets st).

End Loop.

End Sample.

(** Iterating a file object yields its lines, each with its newline. *)
Fixpoint file_lines_go (cur : string) (s : string) : list string :=
  match s with
  | "" => if decide (cur = "") then [] else [String.rev cur]
  | String c s' =>
      if Ascii.eqb c nl then String.rev (String c cur) :: file_lines_go "" s'
      else file_lines_go (String c cur) s'
  end.
Definition file_lines (s : string) : list string := file_lines_go "" s.

(** ** _parse_metaman: the in-memory part, end to end *)

Record Ingest : Type := mkIngest {
  sample_sets : list Sample.ExperimentParameterSet;
  parsed_files : list Datafile.t;
  grouped : Grouping.t;
}.

Section ParseMetaman.

Variable _config : gmap string BeamlineConfig.
Variable ParameterName_get : Sample.Schema -> string -> Sample.Lookup.

(** [cleaned_beamline] is [cleaned_data['beamline']]; [sample] and
    [metaman] are the uploaded files, line by line.  [Ok None] is the early
    [return None]; what is written to the repository from the result is not
    modelled beyond the sample sheet's parameter sets. *)
Definition _parse_metaman (cleaned_beamline : string)
    (sample : option (list string)) (metaman : list string)
    : result (option Ingest) :=
  let beamlines_unfiltered := split ", " None cleaned_beamline in
  let beamlines :=
    filter (fun beamline => is_Some (_config !! beamline)) beamlines_unfiltered in
  if decide (beamlines = []) then Ok None
  else
    sets ← match sample with
            | Some sample => Sample.parse ParameterName_get sample
            | None => Ok []
            end;
    files ← parse _config beamlines metaman;
    g ← Grouping.group _config files;
    Ok (Some {| sample_sets := sets; parsed_files := files; grouped := g |}).

End ParseMetaman.


(** ** Notions the specification is phrased in *)

Module Spec.

(** The marker line announcing [p]. *)
Definition marker_line (p : string) : string := "<b>" +:+ p +:+ "</b>:".

(** [p] with its first character removed. *)
Definition tail (p : string) : string :=
  match p with
  | "" => ""
  | String _ p' => p'
  end.

(** The first segment of a path. *)
Definition first_segment (path : string) : string :=
  (split_go "/" None 0 path).1.

(** A key with all space and [/] characters removed. *)
Fixpoint strip_space_slash (key : string) : string :=
  match key with
  | "" => ""
  | String c key' =>
      if Ascii.eqb c " " || Ascii.eqb c "/" then strip_space_slash key'
      else String c (strip_space_slash key')
  end.

(** A value with the literal suffix [suf] stripped. *)
Definition strip_suffix (suf s : string) : string :=
  if endswith suf s
  then String.substring 0 (String.length s - String.length suf) s
  else s.

(** A block of the export as written: the marker line, the metadata lines
    and the blank line that ends it (each as read, newline included). *)
Record Block : Type := mkBlock {
  marker : string;
  body : list string;
  blank : string;
}.

Definition block_lines (b : Block) : list string :=
  marker b :: body b ++ [blank b].

(** The path a marker line announces, as the parser reads it. *)
Definition marker_path (line : string) : string :=
  slice (Some 4%Z) (Some (-5)%Z) (rstrip nl line).

(** [line] splits at the first occurrence of [sep] into [key] and [value]:
    no other way of cutting [line] around a [sep] has a shorter left part. *)
Definition splits_at_first (sep line key value : string) : Prop :=
  line = key +:+ sep +:+ value ∧
  forall key' value',
    line = key' +:+ sep +:+ value' -> String.length key <= String.length key'.

(** A line's key and value: what is before and after the first [" : "]. *)
Definition key_value (line : string) : option (string * string) :=
  match split " : " (Some 1) (rstrip nl line) with
  | [key; value] => Some (key, value)
  | _ => None
  end.

(** The values, in line order, of the lines stored under [k]: those whose
    key is not [File Size] and is [k] once spaces and slashes are removed. *)
Fixpoint stored_values (k : string) (lines : list string) : list string :=
  match lines with
  | [] => []
  | line :: rest =>
      match key_value line with
      | Some (key, value) =>
          if bool_decide (key ≠ "File Size")
             && bool_decide (strip_space_slash key = k)
          then value :: stored_values k rest
          else stored_values k rest
      | None => stored_values k rest
      end
  end.

Definition stored (k : string) (lines : list string) : option (list string) :=
  match stored_values k lines with
  | [] => None
  | vs => Some vs
  end.

(** The record a block's metadata lines build up from [r], line by line. *)
Definition accumulate (r : Datafile.t) (lines : list string) : Datafile.t :=
  fold_left
    (fun r line =>
       match key_value line with
       | Some (key, value) => Datafile.__setitem__ r key value
       | None => r
       end)
    lines r.

(** The record the parser builds for a block. *)
Definition block_record (b : Block) : Datafile.t :=
  accumulate (Datafile.__init__ (marker_path (marker b))) (body b).

Section WellFormed.

Variable _config : gmap string BeamlineConfig.
Variable beamlines : list string.

(** The path's first segment is a selected beamline and its basename
    matches that beamline's accepted file types. *)
Definition accepted (path : string) : Prop :=
  first_segment path ∈ beamlines ∧
  ∃ c, _config !! first_segment path = Some c ∧
       filetypes c (basename path) = true.

(** A metadata line: neither a marker nor blank. *)
Definition metadata_line (line : string) : Prop :=
  is_marker (rstrip nl line) = false ∧ rstrip nl line ≠ "".

(** A well-formed block of an accepted file. *)
Definition well_formed (b : Block) : Prop :=
  is_marker (rstrip nl (marker b)) = true ∧
  accepted (marker_path (marker b)) ∧
  Forall (fun line => metadata_line line ∧
                      contains " : " (rstrip nl line) = true) (body b) ∧
  rstrip nl (blank b) = "".

End WellFormed.

End Spec.

(** Every value list a record built through [__setitem__] holds is
    non-empty. *)
Definition lists_nonempty (d : Datafile.t) : Prop :=
  forall k vs, Datafile.data d !! k = Some vs -> vs ≠ [].

(** ** _parse_metaman: the author rows *)

(** An [Author_Experiment] row as saved. *)
Record Author_Experiment : Type := mkAuthor {
  author : string;
  order : Z;
}.

(** The rows saved so far and the counter [order]. *)
Definition add_author (acc : list Author_Experiment * Z) (author : string)
    : list Author_Experiment * Z :=
  if decide (author = "") then acc
  else (acc.1 ++ [{| author := author; order := acc.2 |}], (acc.2 + 1)%Z).

(** [experiment_owner] is saved with order 0, then the entries of
    [cleaned_data['researchers'].split(' ~ ')], empty ones skipped. *)
Definition save_authors (experiment_owner researchers : string)
    : list Author_Experiment :=
  (fold_left add_author (split " ~ " None researchers)
             ([{| author := experiment_owner; order := 0 |}], 1%Z)).1.

(** ** templatetags/formfieldfilters.py *)

Module FormFieldFilters.

Definition parametername_form (value : string) : string :=
  replace "/" "_s47_" value.

End FormFieldFilters.

(** ** Notions used to state what the phases keep *)

Module Keeps.

(** A string holds the character [c]. *)
Fixpoint has_char (c : ascii) (s : string) : bool :=
  match s with
  | "" => false
  | String a s' => Ascii.eqb a c || has_char c s'
  end.

(** No stored key holds a space or a slash. *)
Definition keys_normalised (d : Datafile.t) : Prop :=
  forall k, is_Some (Datafile.data d !! k) ->
    has_char " " k = false ∧ has_char "/" k = false.

(** The line is a marker that opens a record: its path's first segment is a
    selected beamline whose file types match the basename. *)
Definition opens_record (_config : gmap string BeamlineConfig)
    (beamlines : list string) (line : string) : bool :=
  let path := Spec.marker_path line in
  is_marker (rstrip nl line)
  && bool_decide (Spec.first_segment path ∈ beamlines)
  && match _config !! Spec.first_segment path with
     | Some c => filetypes c (basename path)
     | None => false
     end.

(** The parser state with the records [before] put in front. *)
Definition shift (before : list Datafile.t) (st : ParseState) : ParseState :=
  {| files := before ++ files st;
     df := Nat.add (length before) <$> df st |}.

(** [line] splits at the last occurrence of [sep] into [key] and [value]:
    no other way of cutting [line] around a [sep] has a shorter right
    part. *)
Definition splits_at_last (sep line key value : string) : Prop :=
  line = key +:+ sep +:+ value ∧
  forall key' value',
    line = key' +:+ sep +:+ value' -> String.length value <= String.length value'.

(** The open record, if any, is the last element of [files]. *)
Definition open_is_last (st : ParseState) : Prop :=
  forall i, df st = Some i -> S i = length (files st).

(** Both local variables of the sample-sheet loop refer to saved sets, of
    the schema their name says. *)
Definition pointers_valid (st : Sample.t) : Prop :=
  (forall i, Sample.sample_ps st = Some i ->
     exists ps, Sample.sets st !! i = Some ps ∧
                Sample.schema ps = Sample.sample_schema) ∧
  (forall i, Sample.chemical_ps st = Some i ->
     exists ps, Sample.sets st !! i = Some ps ∧
                Sample.schema ps = Sample.chemical_schema) ∧
  (is_Some (Sample.chemical_ps st) -> is_Some (Sample.sample_ps st)).

(** The sample-sheet state after the two tests on the key, before anything
    is saved for the line. *)
Definition opened (st : Sample.t) (key : string) : Sample.t :=
  if bool_decide (key = "SampleDescription")
     || bool_decide (Sample.sample_ps st = None) then
    {| Sample.sets := Sample.sets st
                      ++ [{| Sample.schema := Sample.sample_schema;
                             Sample.parameters := [] |}];
       Sample.sample_ps := Some (length (Sample.sets st));
       Sample.chemical_ps := None |}
  else if bool_decide (key = "ChemicalName") then
    {| Sample.sets := Sample.sets st
                      ++ [{| Sample.schema := Sample.chemical_schema;
                             Sample.parameters := [] |}];
       Sample.sample_ps := Sample.sample_ps st;
       Sample.chemical_ps := Some (length (Sample.sets st)) |}
  else st.

(** Every saved parameter has a non-empty value and a name the catalogue
    gave for the schema of its set. *)
Definition rows_sound
    (ParameterName_get : Sample.Schema -> string -> Sample.Lookup)
    (sets : list Sample.ExperimentParameterSet) : Prop :=
  forall ps param_name value,
    ps ∈ sets -> (param_name, value) ∈ Sample.parameters ps ->
    value ≠ "" ∧
    exists key, ParameterName_get (Sample.schema ps) key = Sample.Found param_name.

(** The first saved set, if any, is a sample set. *)
Definition starts_with_sample (sets : list Sample.ExperimentParameterSet)
    : Prop :=
  forall ps, head sets = Some ps -> Sample.schema ps = Sample.sample_schema.

(** The dataset name a record resolves to, when it has metadata and the
    helpers raise nothing. *)
Definition resolved (_config : gmap string BeamlineConfig) (df : Datafile.t)
    : option (string * bool) :=
  match Datafile.getBeamline df with
  | Ok beamline =>
      match _getDatasetName _config df beamline,
            _isDatasetMetadata _config df beamline with
      | Ok dsName, Ok is_meta => Some (dsName, is_meta)
      | _, _ => None
      end
  | Raise _ => None
  end.

(** The record has metadata and resolves to the dataset name [dsName]. *)
Definition resolves_to (_config : gmap string BeamlineConfig) (dsName : string)
    (df : Datafile.t) : bool :=
  Datafile.hasMetadata df
  && match resolved _config df with
     | Some (name, _) => bool_decide (name = dsName)
     | None => false
     end.

(** The record is a metadata carrier of the dataset [dsName]: it resolves to
    the name and matches its beamline's metadata marker. *)
Definition carrier_for (_config : gmap string BeamlineConfig) (dsName : string)
    (df : Datafile.t) : bool :=
  Datafile.hasMetadata df
  && bool_decide (resolved _config df = Some (dsName, true)).

(** The record is an ordinary file of the dataset [dsName]. *)
Definition files_under (_config : gmap string BeamlineConfig) (dsName : string)
    (df : Datafile.t) : bool :=
  Datafile.hasMetadata df
  && bool_decide (resolved _config df = Some (dsName, false)).

End Keeps.

(** ** Sample inputs *)

Module Samples.

Definition line (s : string) : string := s +:+ NL.

(** Two blocks for Wombat, as MetaMan prints them. *)
Definition block_f1 : Spec.Block :=
  {| Spec.marker := line "<b>/Wombat/RunA/f1.hdf</b>:";
     Spec.body := [line "sample_name : RunA"; line "a b/c : 1";
                   line "File Size : 12 bytes"; line "abc : 2"];
     Spec.blank := line "" |}.

Definition block_f2 : Spec.Block :=
  {| Spec.marker := line "<b>/Wombat/RunA/f2.PDF</b>:";
     Spec.body := [line "title : second : file"];
     Spec.blank := line "" |}.

(** A block whose only lines give the file size, twice. *)
Definition block_sizes : Spec.Block :=
  {| Spec.marker := line "<b>/Wombat/RunA/f3.hdf</b>:";
     Spec.body := [line "File Size : 1 bytes"; line "File Size : 2 bytes"];
     Spec.blank := line "" |}.

(** A marker for a beamline that was not selected directly follows the
    metadata of an accepted file, with no blank line in between. *)
Definition unterminated_then_rejected : list string :=
  [line "<b>/Wombat/RunA/f1.hdf</b>:";
   line "title : first";
   line "<b>/Emu/RunB/g1.hdf</b>:";
   line "owner : someone else";
   line ""].

(** The same with a file type Wombat does not accept. *)
Definition unterminated_then_unaccepted : list string :=
  [line "<b>/Wombat/RunA/f1.hdf</b>:";
   line "title : first";
   line "<b>/Wombat/RunA/notes.txt</b>:";
   line "owner : someone else";
   line ""].

(** Records of one dataset: a metadata carrier and an ordinary file. *)
Definition carrier : Datafile.t :=
  Datafile.__setitem__ (Datafile.__init__ "Wombat/RunA/meta.hdf") "proposal" "P1".

Definition plain : Datafile.t :=
  Datafile.__setitem__ (Datafile.__init__ "Wombat/RunA/f1.hdf") "title" "first".

(** A record naming its sample, one filed under a log-book directory, and
    one whose path has a single segment. *)
Definition named_foo : Datafile.t :=
  Datafile.__setitem__ (Datafile.__init__ "Wombat/LogBookXYZ/f9.hdf") "sample_name" "Foo".

Definition logbook : Datafile.t :=
  Datafile.__setitem__ (Datafile.__init__ "Wombat/LogBookXYZ/f1.pdf") "title" "notes".

Definition flat : Datafile.t :=
  Datafile.__setitem__ (Datafile.__init__ "f1.hdf") "title" "first".

(** The sample sheet of the specification's example. *)
Definition sample_sheet : string :=
  line "SampleDescription : foo" +:+ line "ChemicalName : bar" +:+ line "Mass : 5 mg".

(** A catalogue that knows every key under its own name. *)
Definition any_name (schema : Sample.Schema) (key : string) : Sample.Lookup :=
  Sample.Found key.

End Samples.

(** ** Tables with the other grouping rules *)

(** The rule the module's comments mention, [['directory', 1]], and a
    [file] rule splitting at the last underscore. *)
Definition directory_config : gmap string BeamlineConfig :=
  {["Wombat" := {| dfSchema := "http://www.tardis.edu.au/schemas/ansto/wbt/2011/06/21";
                   filetypes := re_pdf_hdf;
                   groupDSRules := [VStr "directory"; VInt 1];
                   metadata := None;
                   beamline_group := "BEAMLINE_WBT" |}]}.

Definition file_config : gmap string BeamlineConfig :=
  {["Wombat" := {| dfSchema := "http://www.tardis.edu.au/schemas/ansto/wbt/2011/06/21";
                   filetypes := re_pdf_hdf;
                   groupDSRules := [VStr "file"; VStr "_"];
                   metadata := None;
                   beamline_group := "BEAMLINE_WBT" |}]}.

Definition scan_file : Datafile.t :=
  Datafile.__setitem__ (Datafile.__init__ "Wombat/run_7/scan_0001.hdf")
                       "title" "first".

(** ** _save_parameters *)

Module SaveParameters.

(** [s.rstrip(chars)]: the longest tail made of characters of [chars] is
    dropped. *)
Fixpoint rstrip_chars (chars s : string) : string :=
  match s with
  | "" => ""
  | String a s' =>
      match rstrip_chars chars s' with
      | "" => if Keeps.has_char a chars then "" else String a ""
      | r => String a r
      end
  end.

(** The three parameter models. *)
Inductive Kind : Type :=
  | DatafileParameter
  | DatasetParameter
  | ExperimentParameter.

(** The chain of tests on [partype]; [None] is the [else] branch. *)
Definition new_parameter (partype : string) : option Kind :=
  if decide (partype = "DatafileParameter") then Some DatafileParameter
  else if decide (partype = "DatasetParameter") then Some DatasetParameter
  else if decide (partype = "ExperimentParameter") then Some ExperimentParameter
  else None.

(** A [ParameterName] row: its name, and whether its [data_type] is
    [NUMERIC]. *)
Record ParameterName : Type := mkName {
  name : string;
  numeric : bool;
}.

(** What [ParameterName.objects.get(schema=schema, name__iexact=key)] can do
    for the schema of the call. *)
Inductive Lookup : Type :=
  | Found (name : ParameterName)
  | DoesNotExist
  | MultipleReturned.

(** The exceptions that leave the function. *)
Inductive exn : Type :=
  | ObjectDoesNotExist
  | MultipleObjectsReturned.

Section Save.

(** Python's floats and [float(value)]; [None] when it raises. *)
Variable F : Type.
Variable float : string -> option F.

Inductive Value : Type :=
  | numerical_value (x : F)
  | string_value (s : string).

(** A parameter row: its model, its [name] and the value field set. *)
Record Row : Type := mkRow {
  kind : Kind;
  pname : ParameterName;
  value : Value;
}.

Variable ParameterName_get : string -> Lookup.

(** Whether [parameter.save()] goes through, given the rows saved so far;
    when it does not, the exception is logged and dropped. *)
Variable save : list Row -> Row -> bool.

(** The body of [for item in data[key]].  The result is the rows saved and
    the exception raised, if any. *)
Definition save_item (partype : string) (name : ParameterName)
    (rows : list Row) (item : string) : list Row * option exn :=
  match new_parameter partype with
  | None => (rows, Some ObjectDoesNotExist)
  | Some kind =>
      let value :=
        if numeric name then
          (* [tokens[0]] of [item.split(' ')], then [float]; anything raised
             is logged and the item skipped *)
          match split " " None item with
          | value :: _ => numerical_value <$> float value
          | [] => None
          end
        else Some (string_value item) in
      match value with
      | None => (rows, None)
      | Some value =>
          let parameter := {| kind := kind; pname := name; value := value |} in
          (if save rows parameter then rows ++ [parameter] else rows, None)
      end
  end.

Fixpoint save_items (partype : string) (name : ParameterName)
    (rows : list Row) (items : list string)
    : list Row * option exn :=
  match items with
  | [] => (rows, None)
  | item :: rest =>
      match save_item partype name rows item with
      | (rows, None) => save_items partype name rows rest
      | raised => raised
      end
  end.

(** The body of [for key in data.keys()]. *)
Definition save_key (partype : string) (rows : list Row)
    (entry : string * list string) : list Row * option exn :=
  match ParameterName_get entry.1 with
  | Found name => save_items partype name rows entry.2
  | DoesNotExist => (rows, None)
  | MultipleReturned => (rows, Some MultipleObjectsReturned)
  end.

Fixpoint save_keys (partype : string) (rows : list Row)
    (data : list (string * list string)) : list Row * option exn :=
  match data with
  | [] => (rows, None)
  | entry :: rest =>
      match save_key partype rows entry with
      | (rows, None) => save_keys partype rows rest
      | raised => raised
      end
  end.

(** [parset] is [type(parameterset).__name__]; [data] is the dict as the
    list of its items, in the order [data.keys()] gives them; [rows] is what
    the repository holds for the parameter set before the call. *)
Definition _save_parameters (parset : string) (rows : list Row)
    (data : list (string * list string)) : list Row * option exn :=
  let partype := rstrip_chars "Set" parset in
  save_keys partype rows data.

End Save.

Arguments numerical_value {F} _.
Arguments string_value {F} _.
Arguments mkRow {F} _ _ _.
Arguments kind {F} _.
Arguments pname {F} _.
Arguments value {F} _.

(** The value saved for [item] under [name], if one is. *)
Definition value_of {F} (float : string -> option F) (name : ParameterName)
    (item : string) : option (Value F) :=
  if numeric name then
    numerical_value <$> (head (split " " None item) ≫= float)
  else Some (string_value item).

(** A saved row comes from an item of [data]: its name is what the catalogue
    gave for the item's key, its kind is [k], its value is the item's. *)
Definition from_data {F} (float : string -> option F)
    (ParameterName_get : string -> Lookup) (k : Kind)
    (data : list (string * list string)) (p : Row F) : Prop :=
  exists key items item,
    (key, items) ∈ data ∧ item ∈ items ∧
    ParameterName_get key = Found (pname p) ∧
    kind p = k ∧
    value_of float (pname p) item = Some (value p).

(** Some key of [data] makes the function go past the catalogue: the lookup
    finds several names, or finds one for a key that has a value. *)
Definition resolves (ParameterName_get : string -> Lookup)
    (data : list (string * list string)) : Prop :=
  exists key items,
    (key, items) ∈ data ∧
    match ParameterName_get key with
    | Found _ => items ≠ []
    | DoesNotExist => False
    | MultipleReturned => True
    end.

End SaveParameters.

(** ** register_metaman *)

Module View.

(** What [authenticate] returns: [None], or a user with its [is_active]. *)
Inductive AuthResult : Type :=
  | NoUser
  | User (is_active : bool).

(** What the view does besides answering, in order. *)
Inductive Event : Type :=
  | Authenticate
  | Login
  | ParseMetaman
  | Logout
  | RenderDiscarded (error : bool).

(** The answers: the two error classes, the response whose body is
    [str(expid)], and the form page with whether the form is bound to the
    posted data and whether the context holds [error]. *)
Inductive Response : Type :=
  | HttpResponseForbidden (body : string)
  | HttpResponseServerError
  | HttpResponse (expid : Z)
  | FormPage (bound error : bool).

(** [post] is [request.method == 'POST'], [is_valid] is [form.is_valid()],
    [auth] is what [authenticate] returns, and [parsed] is what the call of
    [_parse_metaman] does: the experiment id, [None], or an exception. *)
Definition register_metaman {E : Type} (post is_valid : bool)
    (auth : AuthResult) (parsed : E + option Z) : list Event * Response :=
  if post then
    if is_valid then
      match auth with
      | NoUser => ([Authenticate], HttpResponseForbidden "authorization failed")
      | User false =>
          ([Authenticate], HttpResponseForbidden "authorization failed")
      | User true =>
          match parsed with
          | inr (Some expid) =>
              ([Authenticate; Login; ParseMetaman; Logout], HttpResponse expid)
          | inr None =>
              (* ['%i' % None] raises [TypeError] inside the [try] *)
              ([Authenticate; Login; ParseMetaman], HttpResponseServerError)
          | inl _ =>
              ([Authenticate; Login; ParseMetaman], HttpResponseServerError)
          end
      end
    else ([RenderDiscarded true], FormPage true false)
  else ([], FormPage false false).

End View.

(** ** Facts about the built-ins *)

Section StringFacts.

Implicit Types (s t sep : string) (c : ascii).

Lemma append_nil_l s : "" +:+ s = s.
Proof. reflexivity. Qed.

Lemma append_cons c s t : String c s +:+ t = String c (s +:+ t).
Proof. reflexivity. Qed.

Lemma append_nil_r s : s +:+ "" = s.
Proof. induction s as [|c s IH]; [done | by rewrite append_cons, IH]. Qed.

Lemma append_assoc s t u : (s +:+ t) +:+ u = s +:+ t +:+ u.
Proof. induction s as [|c s IH]; [done | by rewrite !append_cons, IH]. Qed.

Lemma length_append s t :
  String.length (s +:+ t) = String.length s + String.length t.
Proof.
  induction s as [|c s IH]; [done|].
  rewrite append_cons. simpl. by rewrite IH.
Qed.

Lemma substring_0_length s : String.substring 0 (String.length s) s = s.
Proof. induction s as [|c s IH]; simpl; [done | by f_equal]. Qed.

Lemma substring_0_append s t :
  String.substring 0 (String.length s) (s +:+ t) = s.
Proof.
  induction s as [|c s IH]; [by destruct t|].
  rewrite append_cons. simpl. by rewrite IH.
Qed.

Lemma substring_skip_append s t n m :
  String.substring (String.length s + n) m (s +:+ t) = String.substring n m t.
Proof. induction s as [|c s IH]; [done|]. rewrite append_cons. simpl. done. Qed.

Lemma prefix_nil s : String.prefix "" s = true.
Proof. by destruct s. Qed.

Lemma prefix_cons c1 c2 s t :
  String.prefix (String c1 s) (String c2 t)
  = bool_decide (c1 = c2) && String.prefix s t.
Proof.
  simpl. destruct (ascii_dec c1 c2) as [->|Hne].
  - by rewrite bool_decide_eq_true_2.
  - by rewrite bool_decide_eq_false_2.
Qed.

(** *** rstrip *)

Lemma rstrip_append_char c s : rstrip c (s +:+ String c "") = rstrip c s.
Proof.
  induction s as [|a s IH].
  - simpl. by rewrite Ascii.eqb_refl.
  - rewrite append_cons. simpl. by rewrite IH.
Qed.

Lemma rstrip_last_other c a s :
  a ≠ c -> rstrip c (s +:+ String a "") = s +:+ String a "".
Proof.
  intros Hne. induction s as [|b s IH].
  - simpl. apply Ascii.eqb_neq in Hne. by rewrite Hne.
  - rewrite append_cons. simpl. rewrite IH. by destruct s.
Qed.

Lemma rstrip_idemp c s : rstrip c (rstrip c s) = rstrip c s.
Proof.
  induction s as [|a s IH]; simpl; [done|].
  destruct (rstrip c s) as [|b r] eqn:E.
  - destruct (Ascii.eqb a c) eqn:Ea; simpl; [done | by rewrite Ea].
  - simpl in IH |- *. rewrite IH. done.
Qed.

(** *** split, count, contains *)

Lemma prefix_empty_string sep : sep ≠ "" -> String.prefix sep "" = false.
Proof. by destruct sep. Qed.

Lemma contains_empty_string sep : sep ≠ "" -> contains sep "" = false.
Proof. by destruct sep. Qed.

Lemma contains_cons sep c s :
  contains sep (String c s) = String.prefix sep (String c s) || contains sep s.
Proof. reflexivity. Qed.

Lemma split_go_cons sep m c s :
  split_go sep m 0 (String c s)
  = if negb (bool_decide (m = Some 0)) && String.prefix sep (String c s)
    then let '(t, ts) := split_go sep (Nat.pred <$> m) (String.length sep - 1) s
         in ("", t :: ts)
    else let '(t, ts) := split_go sep m 0 s in (String c t, ts).
Proof. reflexivity. Qed.

Lemma split_go_no_more sep skip s :
  split_go sep (Some 0) skip s
  = (String.substring skip (String.length s - skip) s, []).
Proof.
  revert skip. induction s as [|c s IH]; intros skip; simpl.
  - by destruct skip.
  - destruct skip as [|k]; simpl.
    + rewrite IH. simpl. by rewrite Nat.sub_0_r, substring_0_length.
    + by rewrite IH.
Qed.

Lemma split_go_absent sep m s :
  contains sep s = false -> split_go sep m 0 s = (s, []).
Proof.
  induction s as [|c s IH]; [done|].
  rewrite contains_cons, split_go_cons. intros [Hp Hc]%orb_false_elim.
  rewrite Hp, andb_false_r. by rewrite IH.
Qed.

Lemma split_absent sep m s : contains sep s = false -> split sep m s = [s].
Proof. intros H. unfold split. by rewrite split_go_absent. Qed.

Lemma split_go_present sep m s :
  sep ≠ "" -> m ≠ Some 0 -> contains sep s = true ->
  exists a b rest, split_go sep m 0 s = (a, b :: rest).
Proof.
  intros Hsep Hm. induction s as [|c s IH].
  - by rewrite contains_empty_string.
  - rewrite contains_cons, split_go_cons.
    rewrite (bool_decide_eq_false_2 _ Hm). simpl negb. rewrite andb_true_l.
    destruct (String.prefix sep (String c s)) eqn:Hp.
    + intros _. destruct (split_go sep (Nat.pred <$> m) _ s) as [t ts]. eauto.
    + rewrite orb_false_l. intros (a & b & rest & Heq)%IH. rewrite Heq.
      simpl. eauto.
Qed.

Lemma split_present sep s :
  sep ≠ "" -> contains sep s = true ->
  exists a b rest, split sep None s = a :: b :: rest.
Proof.
  intros Hsep Hc. unfold split.
  destruct (split_go_present sep None s) as (a & b & rest & ->); eauto.
Qed.

Lemma split1_present sep s :
  sep ≠ "" -> contains sep s = true ->
  exists key value, split sep (Some 1) s = [key; value].
Proof.
  intros Hsep. unfold split. induction s as [|c s IH].
  - by rewrite contains_empty_string.
  - rewrite contains_cons, split_go_cons.
    rewrite bool_decide_eq_false_2 by done. simpl negb. rewrite andb_true_l.
    destruct (String.prefix sep (String c s)) eqn:Hp.
    + intros _. simpl fmap. rewrite split_go_no_more. simpl. eauto.
    + rewrite orb_false_l. intros Hc. destruct (IH Hc) as (k & v & Hkv).
      destruct (split_go sep (Some 1) 0 s) as [t ts].
      injection Hkv as -> ->. simpl. eauto.
Qed.

Lemma split1_cases sep s :
  sep ≠ "" ->
  (contains sep s = false ∧ split sep (Some 1) s = [s]) ∨
  (contains sep s = true ∧ exists key value, split sep (Some 1) s = [key; value]).
Proof.
  intros Hsep. destruct (contains sep s) eqn:Hc.
  - right. split; [done|]. by apply split1_present.
  - left. split; [done|]. by apply split_absent.
Qed.

Lemma count_go_cons sep c s :
  count_go sep 0 (String c s)
  = if String.prefix sep (String c s)
    then S (count_go sep (String.length sep - 1) s)
    else count_go sep 0 s.
Proof. reflexivity. Qed.

Lemma length_split_go sep skip s :
  length (split_go sep None skip s).2 = count_go sep skip s.
Proof.
  revert skip. induction s as [|c s IH]; intros skip; [done|].
  destruct skip as [|k].
  - rewrite split_go_cons, count_go_cons.
    rewrite bool_decide_eq_false_2 by done. simpl negb. rewrite andb_true_l.
    change (Nat.pred <$> None) with (@None nat).
    destruct (String.prefix sep (String c s)).
    + specialize (IH (String.length sep - 1)).
      destruct (split_go sep None _ s) as [t ts]. simpl in *. by rewrite IH.
    + specialize (IH 0). destruct (split_go sep None 0 s) as [t ts]. done.
  - apply IH.
Qed.

Lemma length_split sep s : length (split sep None s) = S (count sep s).
Proof.
  unfold split, count. rewrite <- length_split_go.
  by destruct (split_go sep None 0 s).
Qed.

Lemma count_zero sep s :
  sep ≠ "" -> count sep s = 0 <-> contains sep s = false.
Proof.
  intros Hsep. unfold count. induction s as [|c s IH].
  - by rewrite contains_empty_string.
  - rewrite contains_cons, count_go_cons.
    destruct (String.prefix sep (String c s)); simpl; [done | apply IH].
Qed.

(** *** replace *)

Lemma replace_go_cons old new c s :
  replace_go old new 0 (String c s)
  = if String.prefix old (String c s)
    then new +:+ replace_go old new (String.length old - 1) s
    else String c (replace_go old new 0 s).
Proof. reflexivity. Qed.

Lemma replace_char a s :
  replace (String a "") "" s
  = (fix drop s := match s with
                   | "" => ""
                   | String c s' => if Ascii.eqb c a then drop s' else String c (drop s')
                   end) s.
Proof.
  unfold replace. induction s as [|c s IH]; [done|].
  rewrite replace_go_cons, prefix_cons, prefix_nil, andb_true_r.
  rewrite Ascii.eqb_sym. destruct (Ascii.eqb_spec a c) as [->|Hne].
  - rewrite bool_decide_eq_true_2 by done. simpl. apply IH.
  - rewrite bool_decide_eq_false_2 by done. by rewrite IH.
Qed.

Lemma normalise_key key :
  replace "/" "" (replace " " "" key) = Spec.strip_space_slash key.
Proof.
  rewrite (replace_char " " key).
  induction key as [|c key IH]; [done|].
  simpl. destruct (Ascii.eqb c " ") eqn:E1; simpl; [apply IH|].
  rewrite <- IH. unfold replace. rewrite replace_go_cons, prefix_cons, prefix_nil, andb_true_r.
  rewrite Ascii.eqb_sym. destruct (Ascii.eqb_spec "/"%char c) as [->|Hne].
  - by rewrite bool_decide_eq_true_2.
  - by rewrite bool_decide_eq_false_2.
Qed.

Lemma prefix_bytes_straddle s :
  contains " bytes" s = false ->
  String.prefix " bytes" (s +:+ " bytes") = true -> s = "".
Proof.
  intros Hc Hp.
  do 6 (destruct s as [|? s]; [done || (exfalso; revert Hp; clear; cbv; repeat case_match; done)|];
        rewrite append_cons, prefix_cons in Hp;
        apply andb_prop in Hp as [<-%bool_decide_eq_true Hp]).
  exfalso. revert Hc. rewrite contains_cons. rewrite !prefix_cons, prefix_nil.
  by rewrite !bool_decide_eq_true_2.
Qed.

Lemma replace_bytes_suffix n :
  contains " bytes" n = false -> replace " bytes" "" (n +:+ " bytes") = n.
Proof.
  unfold replace. induction n as [|c n IH]; intros Hc; [done|].
  rewrite append_cons, replace_go_cons, <- append_cons.
  destruct (String.prefix " bytes" (String c n +:+ " bytes")) eqn:Hp.
  - by apply prefix_bytes_straddle in Hp.
  - rewrite contains_cons in Hc. apply orb_false_elim in Hc as [_ Hc].
    by rewrite IH.
Qed.

(** *** slices of a marker line *)

Lemma clamp_nonneg len i :
  (0 <= i)%Z -> clamp len i = Nat.min (Z.to_nat i) len.
Proof. intros H. unfold clamp. destruct (Z.ltb_spec i 0); [lia | done]. Qed.

Lemma clamp_neg len i :
  (i < 0)%Z -> clamp len i = Z.to_nat (Z.max 0 (Z.of_nat len + i)).
Proof. intros H. unfold clamp. destruct (Z.ltb_spec i 0); [done | lia]. Qed.

Lemma length_marker_line p :
  String.length (Spec.marker_line p) = 3 + String.length p + 5.
Proof. unfold Spec.marker_line. rewrite !length_append. simpl. lia. Qed.

Lemma is_marker_marker_line p : is_marker (Spec.marker_line p) = true.
Proof.
  unfold is_marker, slice. rewrite length_marker_line. simpl from_option.
  apply andb_true_intro. split; apply bool_decide_eq_true.
  - rewrite !clamp_nonneg by lia.
    replace (_ - _) with (String.length "<b>") by (simpl; lia).
    replace (Nat.min (Z.to_nat 0) _) with 0 by lia.
    apply substring_0_append.
  - replace (clamp _ (-5)) with (String.length ("<b>" +:+ p) + 0)
      by (rewrite clamp_neg, length_append by lia; simpl; lia).
    unfold Spec.marker_line. rewrite <- append_assoc, substring_skip_append.
    rewrite length_append. simpl String.length.
    replace (_ - _) with 5 by lia. done.
Qed.

Lemma slice_marker_line p :
  slice (Some 4%Z) (Some (-5)%Z) (Spec.marker_line p) = Spec.tail p.
Proof.
  unfold slice. rewrite length_marker_line. simpl from_option.
  replace (clamp _ 4) with (String.length "<b>" + 1)
    by (rewrite clamp_nonneg by lia; change (String.length "<b>") with 3; lia).
  replace (clamp _ (-5)) with (3 + String.length p)
    by (rewrite clamp_neg by lia; lia).
  unfold Spec.marker_line. rewrite substring_skip_append.
  destruct p as [|c p]; [done|].
  rewrite append_cons. simpl String.length.
  replace (_ - _) with (String.length p) by lia.
  simpl. apply substring_0_append.
Qed.

Lemma rstrip_marker_line p :
  rstrip nl (Spec.marker_line p) = Spec.marker_line p.
Proof.
  unfold Spec.marker_line.
  change "</b>:" with ("</b>" +:+ String ":" "").
  rewrite <- !append_assoc. by apply rstrip_last_other.
Qed.

End StringFacts.

(** *** The built-ins on small inputs *)

Example split_slash : split "/" None "Wombat/RunA/f1.hdf" = ["Wombat"; "RunA"; "f1.hdf"].
Proof. reflexivity. Qed.
Example split_trailing : split "/" None "a/" = ["a"; ""].
Proof. reflexivity. Qed.
Example split_first_only : split " : " (Some 1) "a : b : c" = ["a"; "b : c"].
Proof. reflexivity. Qed.
Example split_overlap : split " : " None "a : : b" = ["a"; ": b"].
Proof. reflexivity. Qed.
Example rsplit_last : rsplit "." (Some 1) "a.b.c" = Ok ["a.b"; "c"].
Proof. reflexivity. Qed.
Example replace_bytes : replace " bytes" "" "1024 bytes" = "1024".
Proof. reflexivity. Qed.
Example rstrip_newlines : rstrip nl ("ab" +:+ NL +:+ "c" +:+ NL +:+ NL) = "ab" +:+ NL +:+ "c".
Proof. reflexivity. Qed.
Example slice_marker : slice (Some 4%Z) (Some (-5)%Z) "<b>/A/B/f</b>:" = "A/B/f".
Proof. reflexivity. Qed.
Example slice_tail : slice (Some (-5)%Z) None "<b>/A/B/f</b>:" = "</b>:".
Proof. reflexivity. Qed.
Example basename_path : basename "Wombat/RunA/f1.hdf" = "f1.hdf".
Proof. reflexivity. Qed.
Example basename_dir : basename "a/b/" = "".
Proof. reflexivity. Qed.
Example endswith_ci : endswith ".hdf" (lower "F1.HdF") = true.
Proof. reflexivity. Qed.
Example file_lines_ex :
  file_lines ("a : b" +:+ NL +:+ NL +:+ "c") = ["a : b" +:+ NL; NL; "c"].
Proof. reflexivity. Qed.

(** ** The block parser, line by line *)

Lemma getitem_0 {A} (x : A) l : getitem (x :: l) 0 = Ok x.
Proof. reflexivity. Qed.

Lemma getitem_1 {A} (x y : A) l : getitem (x :: y :: l) 1 = Ok y.
Proof. reflexivity. Qed.

Lemma getitem_1_short {A} (x : A) : getitem [x] 1 = Raise IndexError.
Proof. reflexivity. Qed.

Lemma getitem_split_0 sep m s :
  getitem (split sep m s) 0 = Ok (split_go sep m 0 s).1.
Proof. unfold split. by destruct (split_go sep m 0 s). Qed.

Lemma is_marker_empty : is_marker "" = false.
Proof. reflexivity. Qed.

Lemma key_value_present line :
  contains " : " (rstrip nl line) = true ->
  exists key value, Spec.key_value line = Some (key, value).
Proof.
  intros (k & v & H)%split1_present; [|done].
  unfold Spec.key_value. rewrite H. eauto.
Qed.

Lemma key_value_absent line :
  contains " : " (rstrip nl line) = false -> Spec.key_value line = None.
Proof.
  intros H. unfold Spec.key_value. by rewrite split_absent.
Qed.

Lemma key_value_split line key value :
  Spec.key_value line = Some (key, value) ->
  split " : " (Some 1) (rstrip nl line) = [key; value].
Proof.
  unfold Spec.key_value.
  destruct (split _ _ _) as [|a [|b [|? ?]]]; intros [=]; by subst.
Qed.

Section ParserFacts.

Variable _config : gmap string BeamlineConfig.
Variable beamlines : list string.

Lemma parse_line_blank st line :
  rstrip nl line = "" ->
  parse_line _config beamlines st line = Ok {| files := files st; df := None |}.
Proof. intros H. unfold parse_line. by rewrite H. Qed.

Lemma parse_line_closed st line :
  Spec.metadata_line line -> df st = None -> parse_line _config beamlines st line = Ok st.
Proof.
  intros [Hm Hne] Hdf. unfold parse_line. rewrite Hm.
  destruct (decide _); [done|]. by rewrite Hdf.
Qed.

Lemma parse_line_no_separator st line :
  Spec.metadata_line line -> contains " : " (rstrip nl line) = false ->
  parse_line _config beamlines st line = Ok st.
Proof.
  intros [Hm Hne] Hc. unfold parse_line. rewrite Hm.
  destruct (decide _); [done|]. destruct (df st); [|done].
  by rewrite split_absent.
Qed.

Lemma parse_line_key_value st line i key value :
  Spec.metadata_line line -> df st = Some i ->
  Spec.key_value line = Some (key, value) ->
  parse_line _config beamlines st line
  = Ok {| files := alter (fun d => Datafile.__setitem__ d key value) i (files st);
          df := Some i |}.
Proof.
  intros [Hm Hne] Hdf Hkv%key_value_split. unfold parse_line.
  rewrite Hm. destruct (decide _); [done|]. by rewrite Hdf, Hkv.
Qed.

Lemma parse_line_accepted st line :
  is_marker (rstrip nl line) = true ->
  Spec.accepted _config beamlines (Spec.marker_path line) ->
  parse_line _config beamlines st line
  = Ok {| files := files st ++ [Datafile.__init__ (Spec.marker_path line)];
          df := Some (length (files st)) |}.
Proof.
  intros Hm (Hin & c & Hc & Hpat). unfold parse_line. rewrite Hm.
  fold (Spec.marker_path line). rewrite getitem_split_0.
  fold (Spec.first_segment (Spec.marker_path line)). simpl.
  rewrite bool_decide_eq_false_2 by (by intros ?).
  unfold _acceptFile, config_get. rewrite Hc. simpl. by rewrite Hpat.
Qed.

(** A marker for a beamline that was not selected, or for a file type the
    beamline does not accept, leaves the state as it is: no record is
    created and the open record, if any, stays open. *)
Lemma parse_line_rejected st line :
  is_marker (rstrip nl line) = true ->
  Spec.first_segment (Spec.marker_path line) ∉ beamlines ∨
  (exists c, _config !! Spec.first_segment (Spec.marker_path line) = Some c ∧
             filetypes c (basename (Spec.marker_path line)) = false) ->
  parse_line _config beamlines st line = Ok st.
Proof.
  intros Hm Hrej. unfold parse_line. rewrite Hm.
  fold (Spec.marker_path line). rewrite getitem_split_0.
  fold (Spec.first_segment (Spec.marker_path line)). simpl.
  case_bool_decide; [done|].
  destruct Hrej as [?|(c & Hc & Hpat)]; [done|].
  unfold _acceptFile, config_get. rewrite Hc. simpl. by rewrite Hpat.
Qed.

Lemma accumulate_name r lines :
  Datafile.name (Spec.accumulate r lines) = Datafile.name r.
Proof.
  revert r. induction lines as [|l lines IH]; intros r; [done|].
  simpl. rewrite IH. destruct (Spec.key_value l) as [[k v]|]; [|done].
  unfold Datafile.__setitem__. by repeat case_match.
Qed.

Lemma parse_lines_body fs r body rest :
  Forall (fun line => Spec.metadata_line line ∧
                      contains " : " (rstrip nl line) = true) body ->
  parse_lines _config beamlines {| files := fs ++ [r]; df := Some (length fs) |} (body ++ rest)
  = parse_lines _config beamlines {| files := fs ++ [Spec.accumulate r body];
                   df := Some (length fs) |} rest.
Proof.
  intros Hbody. revert r. induction Hbody as [|l body [Hl Hc] _ IH]; intros r; [done|].
  destruct (key_value_present l Hc) as (k & v & Hkv).
  simpl. rewrite (parse_line_key_value _ l (length fs) k v) by done. simpl.
  replace (length fs) with (length fs + 0) at 1 by lia.
  rewrite alter_app_r. simpl. rewrite IH. by rewrite Hkv.
Qed.

Lemma parse_lines_block st b rest :
  Spec.well_formed _config beamlines b ->
  parse_lines _config beamlines st (Spec.block_lines b ++ rest)
  = parse_lines _config beamlines
      {| files := files st ++
           [Spec.accumulate (Datafile.__init__ (Spec.marker_path (Spec.marker b)))
                            (Spec.body b)];
         df := None |} rest.
Proof.
  intros (Hm & Hacc & Hbody & Hblank). unfold Spec.block_lines.
  simpl. rewrite parse_line_accepted by done. simpl.
  rewrite <- app_assoc, parse_lines_body by done.
  simpl. by rewrite parse_line_blank.
Qed.

Lemma parse_lines_blocks st blocks :
  Forall (Spec.well_formed _config beamlines) blocks -> df st = None ->
  parse_lines _config beamlines st (concat (Spec.block_lines <$> blocks))
  = Ok {| files := files st ++ (Spec.block_record <$> blocks); df := None |}.
Proof.
  intros Hwf. revert st. induction Hwf as [|b blocks Hb _ IH]; intros st Hdf.
  - simpl. rewrite app_nil_r. destruct st; simpl in *; by subst.
  - rewrite fmap_cons, concat_cons, parse_lines_block by done.
    rewrite IH by done. simpl. by rewrite <- app_assoc.
Qed.

End ParserFacts.

(** ** What a record accumulates *)

Lemma setitem_file_size self value :
  Datafile.__setitem__ self "File Size" value
  = {| Datafile.data := Datafile.data self;
       Datafile.name := Datafile.name self;
       Datafile.size := Datafile.SizeStr (replace " bytes" "" value) |}.
Proof. reflexivity. Qed.

Lemma setitem_data self key value k :
  key ≠ "File Size" ->
  Datafile.data (Datafile.__setitem__ self key value) !! k
  = if decide (Spec.strip_space_slash key = k)
    then Some (default [] (Datafile.data self !! k) ++ [value])
    else Datafile.data self !! k.
Proof.
  intros Hkey. unfold Datafile.__setitem__.
  destruct (decide (key = "File Size")) as [|_]; [done|].
  rewrite normalise_key. set (k' := Spec.strip_space_slash key).
  destruct (Datafile.data self !! k') as [vs|] eqn:Hk'; simpl;
    (destruct (decide (k' = k)) as [<-|Hne];
     [rewrite lookup_insert_eq, ?Hk'; done | by rewrite lookup_insert_ne]).
Qed.

Lemma accumulate_data r lines k :
  Datafile.data (Spec.accumulate r lines) !! k
  = match Spec.stored_values k lines with
    | [] => Datafile.data r !! k
    | vs => Some (default [] (Datafile.data r !! k) ++ vs)
    end.
Proof.
  revert r. induction lines as [|l lines IH]; intros r; [done|].
  simpl. rewrite IH. clear IH.
  destruct (Spec.key_value l) as [[key value]|]; [|done].
  destruct (decide (key = "File Size")) as [->|Hkey].
  - rewrite bool_decide_eq_false_2 by (by intros ?). done.
  - rewrite bool_decide_eq_true_2 by done. rewrite andb_true_l.
    rewrite setitem_data by done.
    destruct (decide (Spec.strip_space_slash key = k)) as [Heq|Hne].
    + rewrite bool_decide_eq_true_2 by done. simpl.
      destruct (Spec.stored_values k lines); [done|].
      by rewrite <- app_assoc.
    + by rewrite bool_decide_eq_false_2.
Qed.

Lemma block_record_data b k :
  Datafile.data (Spec.block_record b) !! k = Spec.stored k (Spec.body b).
Proof.
  unfold Spec.block_record, Spec.stored. rewrite accumulate_data. simpl.
  rewrite lookup_empty. by destruct (Spec.stored_values k (Spec.body b)).
Qed.

Lemma stored_values_source k lines v :
  v ∈ Spec.stored_values k lines ->
  exists line key,
    line ∈ lines ∧ Spec.key_value line = Some (key, v) ∧
    key ≠ "File Size" ∧ k = Spec.strip_space_slash key.
Proof.
  induction lines as [|l lines IH]; simpl; [by intros ?%elem_of_nil|].
  assert (v ∈ Spec.stored_values k lines ->
          exists line key,
            line ∈ l :: lines ∧ Spec.key_value line = Some (key, v) ∧
            key ≠ "File Size" ∧ k = Spec.strip_space_slash key) as Hrest.
  { intros (l' & key' & ? & ?)%IH. exists l', key'.
    split; [by apply list_elem_of_further | done]. }
  destruct (Spec.key_value l) as [[key value]|] eqn:Hkv; [|done].
  destruct (bool_decide (key ≠ "File Size")) eqn:H1; [|done].
  destruct (bool_decide (Spec.strip_space_slash key = k)) eqn:H2; [|done].
  simpl. intros [->|Hin]%elem_of_cons; [|by apply Hrest].
  apply bool_decide_eq_true in H1, H2. exists l, key.
  split; [apply list_elem_of_here | done].
Qed.


(** ** The first separator of a line *)

Lemma prefix_append sep s :
  String.prefix sep s = true <-> exists rest, s = sep +:+ rest.
Proof.
  revert s. induction sep as [|a sep IH]; intros s.
  - rewrite prefix_nil. split; [by exists s | done].
  - destruct s as [|c s].
    + split; [done | by intros [rest [=]]].
    + rewrite prefix_cons. split.
      * intros [->%bool_decide_eq_true [rest ->]%IH]%andb_prop. by exists rest.
      * intros [rest [= -> ->]]. rewrite bool_decide_eq_true_2 by done.
        apply IH. by exists rest.
Qed.

Lemma contains_append sep key value :
  contains sep (key +:+ sep +:+ value) = true.
Proof.
  induction key as [|c key IH].
  - rewrite append_nil_l. destruct sep as [|a sep'].
    + by destruct value.
    + rewrite append_cons, contains_cons, <- append_cons.
      apply orb_true_intro. left. apply prefix_append. by exists value.
  - rewrite append_cons, contains_cons, IH. apply orb_true_r.
Qed.

Lemma append_eq_length s1 s2 t1 t2 :
  s1 +:+ t1 = s2 +:+ t2 -> String.length s1 = String.length s2 ->
  s1 = s2 ∧ t1 = t2.
Proof.
  revert s2. induction s1 as [|c s1 IH]; intros [|c2 s2]; try done.
  rewrite !append_cons. intros [= -> H] [= Hlen].
  by destruct (IH _ H Hlen) as [-> ->].
Qed.

Lemma split_go_skip sep s rest :
  split_go sep (Some 0) (String.length s) (s +:+ rest) = (rest, []).
Proof.
  rewrite split_go_no_more, length_append.
  pose proof (substring_skip_append s rest 0 (String.length rest)) as H.
  rewrite Nat.add_0_r, substring_0_length in H.
  replace (_ - _) with (String.length rest) by lia. by rewrite H.
Qed.

Lemma split1_first sep line key value :
  sep ≠ "" -> split sep (Some 1) line = [key; value] ->
  Spec.splits_at_first sep line key value.
Proof.
  intros Hsep. unfold split. revert key.
  induction line as [|c s IH]; intros key; [done|].
  rewrite split_go_cons. rewrite bool_decide_eq_false_2 by done.
  simpl negb. rewrite andb_true_l.
  destruct (String.prefix sep (String c s)) eqn:Hp.
  - apply prefix_append in Hp as [rest Hrest].
    destruct sep as [|a sep']; [done|].
    rewrite append_cons in Hrest. injection Hrest as -> ->.
    simpl fmap. simpl String.length.
    replace (S (String.length sep') - 1) with (String.length sep') by lia.
    rewrite split_go_skip. intros [= <- <-]. split; [done|]. intros; simpl; lia.
  - destruct (split_go sep (Some 1) 0 s) as [t ts] eqn:Hs.
    intros [= <- ->].
    destruct (IH t eq_refl) as [-> Hmin]. split; [done|].
    intros [|c' key'] value' Heq.
    + assert (String.prefix sep (String c (t +:+ sep +:+ value)) = true) as Hp'
        by (apply prefix_append; exists value'; exact Heq).
      congruence.
    + rewrite !append_cons in Heq. injection Heq as -> Heq.
      simpl. apply le_n_S. by eapply Hmin.
Qed.

Lemma split1_first_iff sep line key value :
  sep ≠ "" ->
  split sep (Some 1) line = [key; value]
  <-> Spec.splits_at_first sep line key value.
Proof.
  intros Hsep. split; [by apply split1_first|].
  intros [Hline Hmin].
  destruct (split1_present sep line Hsep) as (k0 & v0 & Hsplit).
  { rewrite Hline. apply contains_append. }
  destruct (split1_first _ _ _ _ Hsep Hsplit) as [Hline0 Hmin0].
  assert (String.length k0 = String.length key) as Hlen.
  { apply Nat.le_antisymm; [by eapply Hmin0 | by eapply Hmin]. }
  rewrite Hline in Hline0.
  destruct (append_eq_length _ _ _ _ Hline0 (eq_sym Hlen)) as [-> Hrest].
  apply (inj (String.append sep)) in Hrest as ->. done.
Qed.

(** The key and value of a line are those around its first [" : "]. *)
Lemma key_value_first_separator line key value :
  Spec.key_value line = Some (key, value)
  <-> Spec.splits_at_first " : " (rstrip nl line) key value.
Proof.
  rewrite <- split1_first_iff by done. split; [apply key_value_split|].
  intros H. unfold Spec.key_value. by rewrite H.
Qed.

(** ** The block parser on well-formed blocks *)

(** Claim C2, amended.  A stream made of well-formed blocks of accepted files (a
    marker line, metadata lines each holding [" : "], a blank line) parses to
    exactly one record per block, in the order of the markers.  Each record
    is named by its marker's path; under a stored key [k] it holds, in line
    order, the values of the block's lines whose key (the text before the
    first [" : "]) is [k] once spaces and slashes are removed, the [File Size]
    lines apart; and every stored key is such a normalised line key. *)
Theorem block_parser_one_record_per_block
    (_config : gmap string BeamlineConfig) (beamlines : list string)
    (blocks : list Spec.Block) :
  Forall (Spec.well_formed _config beamlines) blocks ->
  exists records,
    parse _config beamlines (concat (Spec.block_lines <$> blocks)) = Ok records ∧
    length records = length blocks ∧
    forall i b, blocks !! i = Some b ->
      exists r,
        records !! i = Some r ∧
        Datafile.name r = Spec.marker_path (Spec.marker b) ∧
        (forall k, Datafile.data r !! k = Spec.stored k (Spec.body b)) ∧
        (forall k, is_Some (Datafile.data r !! k) ->
           exists line key value,
             line ∈ Spec.body b ∧
             Spec.key_value line = Some (key, value) ∧
             key ≠ "File Size" ∧
             k = Spec.strip_space_slash key).
Proof.
  intros Hwf. exists (Spec.block_record <$> blocks).
  split; [|split].
  - unfold parse. by rewrite (parse_lines_blocks _ _ parse_init blocks Hwf eq_refl).
  - by rewrite length_fmap.
  - intros i b Hb. exists (Spec.block_record b).
    split; [by rewrite list_lookup_fmap, Hb|].
    split; [apply accumulate_name|].
    split; [apply block_record_data|].
    intros k [vs Hvs]. rewrite block_record_data in Hvs. unfold Spec.stored in Hvs.
    destruct (Spec.stored_values k (Spec.body b)) as [|v vs'] eqn:Hst; [done|].
    destruct (stored_values_source k (Spec.body b) v) as (l & key & ? & ? & ? & ?).
    { rewrite Hst. apply list_elem_of_here. }
    by exists l, key, v.
Qed.

Lemma ansto_config_Wombat :
  ansto_config !! "Wombat"
  = Some (ansto_beamline "http://www.tardis.edu.au/schemas/ansto/wbt/2011/06/21"
                         "BEAMLINE_WBT").
Proof.
  unfold ansto_config. rewrite !lookup_insert_ne by done. apply lookup_insert_eq.
Qed.

Ltac metadata_lines :=
  repeat (apply Forall_cons_2;
          [split; [split; [vm_compute; reflexivity | vm_compute; discriminate]
                  | vm_compute; reflexivity]|]);
  apply Forall_nil_2.

Lemma accepted_intro _config beamlines path segment c :
  Spec.first_segment path = segment -> segment ∈ beamlines ->
  _config !! segment = Some c -> filetypes c (basename path) = true ->
  Spec.accepted _config beamlines path.
Proof. intros <- ? ? ?. split; eauto. Qed.

Ltac accepted_by lookup :=
  eapply accepted_intro;
  [vm_compute; reflexivity | apply list_elem_of_here | exact lookup
  | vm_compute; reflexivity].

Lemma well_formed_block_f1 :
  Spec.well_formed ansto_config ["Wombat"] Samples.block_f1.
Proof.
  split; [vm_compute; reflexivity|]. split; [accepted_by ansto_config_Wombat|].
  split; [metadata_lines | vm_compute; reflexivity].
Qed.

Lemma well_formed_block_f2 :
  Spec.well_formed ansto_config ["Wombat"] Samples.block_f2.
Proof.
  split; [vm_compute; reflexivity|]. split; [accepted_by ansto_config_Wombat|].
  split; [metadata_lines | vm_compute; reflexivity].
Qed.

Lemma well_formed_block_sizes :
  Spec.well_formed ansto_config ["Wombat"] Samples.block_sizes.
Proof.
  split; [vm_compute; reflexivity|]. split; [accepted_by ansto_config_Wombat|].
  split; [metadata_lines | vm_compute; reflexivity].
Qed.

(** Claim C2 as stated fails on [File Size] lines: the key occurs on two
    lines of a well-formed block and the record's map holds nothing for it. *)
Lemma block_parser_file_size_counterexample :
  Spec.well_formed ansto_config ["Wombat"] Samples.block_sizes ∧
  Spec.key_value (Samples.line "File Size : 1 bytes") = Some ("File Size", "1 bytes") ∧
  Spec.key_value (Samples.line "File Size : 2 bytes") = Some ("File Size", "2 bytes") ∧
  exists r,
    parse ansto_config ["Wombat"] (Spec.block_lines Samples.block_sizes) = Ok [r] ∧
    Datafile.data r = ∅ ∧
    Datafile.data r !! Spec.strip_space_slash "File Size"
    ≠ Some ["1 bytes"; "2 bytes"].
Proof.
  split; [exact well_formed_block_sizes|].
  split; [vm_compute; reflexivity|]. split; [vm_compute; reflexivity|].
  eexists. split; [vm_compute; reflexivity|]. split; [reflexivity|].
  vm_compute. discriminate.
Qed.

Lemma block_parser_witness :
  Forall (Spec.well_formed ansto_config ["Wombat"])
         [Samples.block_f1; Samples.block_f2] ∧
  exists records,
    parse ansto_config ["Wombat"]
          (concat (Spec.block_lines <$> [Samples.block_f1; Samples.block_f2]))
    = Ok records ∧
    length records = 2 ∧
    forall i b, [Samples.block_f1; Samples.block_f2] !! i = Some b ->
      exists r,
        records !! i = Some r ∧
        Datafile.name r = Spec.marker_path (Spec.marker b) ∧
        (forall k, Datafile.data r !! k = Spec.stored k (Spec.body b)) ∧
        (forall k, is_Some (Datafile.data r !! k) ->
           exists line key value,
             line ∈ Spec.body b ∧
             Spec.key_value line = Some (key, value) ∧
             key ≠ "File Size" ∧
             k = Spec.strip_space_slash key).
Proof.
  assert (Forall (Spec.well_formed ansto_config ["Wombat"])
                 [Samples.block_f1; Samples.block_f2]) as Hwf.
  { apply Forall_cons_2; [apply well_formed_block_f1|].
    apply Forall_cons_2; [apply well_formed_block_f2 | apply Forall_nil_2]. }
  split; [exact Hwf|].
  exact (block_parser_one_record_per_block ansto_config ["Wombat"] _ Hwf).
Defined.

(** ** Records built through [__setitem__] *)

Lemma lists_nonempty_init name : lists_nonempty (Datafile.__init__ name).
Proof. intros k vs. simpl. by rewrite lookup_empty. Qed.

Lemma lists_nonempty_setitem d key value :
  lists_nonempty d -> lists_nonempty (Datafile.__setitem__ d key value).
Proof.
  intros Hd k vs. destruct (decide (key = "File Size")) as [->|Hkey].
  - rewrite setitem_file_size. apply Hd.
  - rewrite setitem_data by done. case_decide; [|apply Hd].
    intros [= <-]. by destruct (default [] _).
Qed.

Section ParserInvariant.

Variable _config : gmap string BeamlineConfig.
Variable beamlines : list string.

Lemma parse_line_lists_nonempty st line st' :
  Forall lists_nonempty (files st) ->
  parse_line _config beamlines st line = Ok st' ->
  Forall lists_nonempty (files st').
Proof.
  intros Hst. unfold parse_line.
  destruct (is_marker (rstrip nl line)).
  - destruct (getitem _ 0) as [beamline|]; [|done]. simpl.
    case_bool_decide; [by intros [= <-]|].
    destruct (_acceptFile _ _ _) as [[]|]; simpl; intros [= <-]; [|done].
    apply Forall_app. split; [done|].
    apply Forall_cons_2; [apply lists_nonempty_init | apply Forall_nil_2].
  - destruct (decide _); [by intros [= <-]|].
    destruct (df st) as [i|]; [|by intros [= <-]].
    intros [= <-]. destruct (split " : " (Some 1) (rstrip nl line)) as [|a [|b l]];
      simpl; try done.
    by apply Forall_alter; [|intros; apply lists_nonempty_setitem].
Qed.

Lemma parse_lines_lists_nonempty metaman st st' :
  Forall lists_nonempty (files st) ->
  parse_lines _config beamlines st metaman = Ok st' ->
  Forall lists_nonempty (files st').
Proof.
  revert st. induction metaman as [|line rest IH]; intros st Hst; simpl.
  - by intros [= <-].
  - destruct (parse_line _config beamlines st line) as [st1|] eqn:H1; [|done].
    simpl. apply IH. by eapply parse_line_lists_nonempty.
Qed.

(** Every record the block parser returns holds non-empty value lists. *)
Lemma parse_lists_nonempty metaman records :
  parse _config beamlines metaman = Ok records ->
  Forall lists_nonempty records.
Proof.
  unfold parse.
  destruct (parse_lines _ _ parse_init metaman) as [st|] eqn:H; [|done].
  intros [= <-]. eapply parse_lines_lists_nonempty; [|done]. apply Forall_nil_2.
Qed.

End ParserInvariant.

(** ** Dataset names under the [sample] rule *)

Section SampleRule.

Variable _config : gmap string BeamlineConfig.
Variables (df : Datafile.t) (beamline : string) (c : BeamlineConfig)
          (rest : list PyVal).
Hypothesis Hconfig : _config !! beamline = Some c.
Hypothesis Hrule : groupDSRules c = VStr "sample" :: rest.

Lemma getDatasetName_sample :
  _getDatasetName _config df beamline
  = match Datafile.data df !! "sample_name" with
    | Some vs => getitem vs 0
    | None =>
        name ← getitem (split "/" None (Datafile.name df)) 1;
        Ok (if startswith "LogBook" name then "Log Books" else name)
    end.
Proof.
  unfold _getDatasetName, config_get. rewrite Hconfig. simpl.
  rewrite Hrule. simpl. unfold Datafile.__getitem__.
  destruct (Datafile.data df !! "sample_name") as [[|v vs]|]; simpl; try done.
  destruct (getitem _ 1) as [name|]; simpl; [|done].
  by destruct (startswith "LogBook" name).
Qed.

End SampleRule.

(** Claim C3.  Under the [sample] rule a record with a [sample_name] key is
    named by that key's first value, whatever it is; a record without the
    key is named by the second segment of its path, or [Log Books] when that
    segment starts with [LogBook]. *)
Theorem sample_name_rule_resolves
    (_config : gmap string BeamlineConfig) (df : Datafile.t)
    (beamline : string) (c : BeamlineConfig) (rest : list PyVal) :
  _config !! beamline = Some c ->
  groupDSRules c = VStr "sample" :: rest ->
  (forall v vs,
     Datafile.data df !! "sample_name" = Some (v :: vs) ->
     _getDatasetName _config df beamline = Ok v) ∧
  (Datafile.data df !! "sample_name" = None ->
   forall first second more,
     split "/" None (Datafile.name df) = first :: second :: more ->
     _getDatasetName _config df beamline
     = Ok (if startswith "LogBook" second then "Log Books" else second)).
Proof.
  intros Hc Hrule. split.
  - intros v vs Hv. rewrite (getDatasetName_sample _ _ _ _ _ Hc Hrule). by rewrite Hv.
  - intros Hnone first second more Hsplit.
    rewrite (getDatasetName_sample _ _ _ _ _ Hc Hrule). by rewrite Hnone, Hsplit.
Qed.

(** Claim C10.  Under the [sample] rule name resolution is partial: with no
    [sample_name] key and no [/] in the path the lookup of the second segment
    raises [IndexError]; it returns a name whenever the record has the key or
    its path has a second segment. *)
Theorem sample_name_rule_partial
    (_config : gmap string BeamlineConfig) (df : Datafile.t)
    (beamline : string) (c : BeamlineConfig) (rest : list PyVal) :
  _config !! beamline = Some c ->
  groupDSRules c = VStr "sample" :: rest ->
  lists_nonempty df ->
  (Datafile.data df !! "sample_name" = None ->
   contains "/" (Datafile.name df) = false ->
   _getDatasetName _config df beamline = Raise IndexError) ∧
  (is_Some (Datafile.data df !! "sample_name") ∨
   contains "/" (Datafile.name df) = true ->
   exists name, _getDatasetName _config df beamline = Ok name).
Proof.
  intros Hc Hrule Hdf. rewrite (getDatasetName_sample _ _ _ _ _ Hc Hrule). split.
  - intros -> Habsent. by rewrite split_absent.
  - intros Hpre. destruct (Datafile.data df !! "sample_name") as [vs|] eqn:Hvs.
    + destruct vs as [|v vs]; [by destruct (Hdf _ _ Hvs)|]. by exists v.
    + destruct Hpre as [[? [=]]|Hsl].
      destruct (split_present "/" (Datafile.name df)) as (a & b & l & ->); [done..|].
      simpl. eauto.
Qed.

(** Claim C5, amended.  A [File Size] line leaves the metadata map and the
    name as they are and sets [size] to the value with every occurrence of
    [" bytes"] removed; when the value is [n] followed by [" bytes"] and [n]
    holds no [" bytes"], that is [n]. *)
Theorem file_size_line_sets_size (self : Datafile.t) (value : string) :
  Datafile.data (Datafile.__setitem__ self "File Size" value) = Datafile.data self ∧
  Datafile.name (Datafile.__setitem__ self "File Size" value) = Datafile.name self ∧
  Datafile.size (Datafile.__setitem__ self "File Size" value)
  = Datafile.SizeStr (replace " bytes" "" value) ∧
  (forall n,
     value = n +:+ " bytes" -> contains " bytes" n = false ->
     Datafile.size (Datafile.__setitem__ self "File Size" value)
     = Datafile.SizeStr n).
Proof.
  rewrite setitem_file_size. simpl. repeat split.
  intros n -> Hn. by rewrite replace_bytes_suffix.
Qed.

Lemma file_size_line_sets_size_witness :
  "1024 bytes" = "1024" +:+ " bytes" ∧ contains " bytes" "1024" = false ∧
  Datafile.size (Datafile.__setitem__ Samples.plain "File Size" "1024 bytes")
  = Datafile.SizeStr "1024".
Proof.
  split; [reflexivity|]. split; [reflexivity|].
  apply (file_size_line_sets_size Samples.plain "1024 bytes"); reflexivity.
Defined.

(** Claim C5 as stated fails: [" bytes"] is removed wherever it occurs, not
    only as a suffix. *)
Lemma file_size_suffix_counterexample :
  Datafile.size (Datafile.__setitem__ (Datafile.__init__ "Wombat/RunA/f1.hdf")
                                      "File Size" "12 bytes (on disk)")
  = Datafile.SizeStr "12 (on disk)" ∧
  Spec.strip_suffix " bytes" "12 bytes (on disk)" = "12 bytes (on disk)" ∧
  Datafile.size (Datafile.__setitem__ (Datafile.__init__ "Wombat/RunA/f1.hdf")
                                      "File Size" "12 bytes (on disk)")
  ≠ Datafile.SizeStr (Spec.strip_suffix " bytes" "12 bytes (on disk)").
Proof. split; [reflexivity|]. split; [reflexivity|]. vm_compute. discriminate. Qed.

Lemma lists_nonempty_flat : lists_nonempty Samples.flat.
Proof. apply lists_nonempty_setitem, lists_nonempty_init. Qed.

Lemma sample_name_rule_resolves_witness :
  ansto_config !! "Wombat"
  = Some (ansto_beamline "http://www.tardis.edu.au/schemas/ansto/wbt/2011/06/21"
                         "BEAMLINE_WBT") ∧
  _getDatasetName ansto_config Samples.named_foo "Wombat" = Ok "Foo" ∧
  _getDatasetName ansto_config Samples.logbook "Wombat" = Ok "Log Books".
Proof.
  split; [exact ansto_config_Wombat|]. split.
  - apply (proj1 (sample_name_rule_resolves ansto_config Samples.named_foo
                    "Wombat" _ [] ansto_config_Wombat eq_refl) "Foo" []).
    vm_compute. reflexivity.
  - apply (proj2 (sample_name_rule_resolves ansto_config Samples.logbook
                    "Wombat" _ [] ansto_config_Wombat eq_refl)
                 eq_refl "Wombat" "LogBookXYZ" ["f1.pdf"] eq_refl).
Defined.

Lemma sample_name_rule_partial_witness :
  ansto_config !! "Wombat"
  = Some (ansto_beamline "http://www.tardis.edu.au/schemas/ansto/wbt/2011/06/21"
                         "BEAMLINE_WBT") ∧
  lists_nonempty Samples.flat ∧
  _getDatasetName ansto_config Samples.flat "Wombat" = Raise IndexError ∧
  exists name, _getDatasetName ansto_config Samples.logbook "Wombat" = Ok name.
Proof.
  split; [exact ansto_config_Wombat|]. split; [exact lists_nonempty_flat|]. split.
  - apply (proj1 (sample_name_rule_partial ansto_config Samples.flat "Wombat" _ []
                    ansto_config_Wombat eq_refl lists_nonempty_flat));
      vm_compute; reflexivity.
  - apply (proj2 (sample_name_rule_partial ansto_config Samples.logbook "Wombat"
                    _ [] ansto_config_Wombat eq_refl
                    (lists_nonempty_setitem _ _ _ (lists_nonempty_init _)))).
    right. vm_compute. reflexivity.
Defined.

(** ** The block parser on lines without a separator (C7) *)

Section OpenRecord.

Variable _config : gmap string BeamlineConfig.
Variable beamlines : list string.

(** Claim C7.  With a record open, a metadata line without [" : "] leaves
    the whole parser state (the record's map and size included) as it is,
    and a following [key : value] line is still added to that same record:
    the record keeps its name; for the key [File Size] its map is unchanged
    and its size becomes the value without [" bytes"]; for any other key its
    size is unchanged and its map holds the value, after the values already
    there, under the key with spaces and slashes removed, the other keys
    being as before.  The other records are untouched. *)
Theorem line_without_separator_skipped
    (st : ParseState) (i : nat) (r : Datafile.t) (line : string) :
  df st = Some i ->
  files st !! i = Some r ->
  Spec.metadata_line line ->
  contains " : " (rstrip nl line) = false ->
  parse_line _config beamlines st line = Ok st ∧
  forall next key value,
    Spec.metadata_line next ->
    Spec.key_value next = Some (key, value) ->
    exists st' r',
      parse_lines _config beamlines st [line; next] = Ok st' ∧
      df st' = Some i ∧
      files st' !! i = Some r' ∧
      r' = Datafile.__setitem__ r key value ∧
      Datafile.name r' = Datafile.name r ∧
      (key = "File Size" ->
       Datafile.data r' = Datafile.data r ∧
       Datafile.size r' = Datafile.SizeStr (replace " bytes" "" value)) ∧
      (key ≠ "File Size" ->
       Datafile.size r' = Datafile.size r ∧
       forall k,
         Datafile.data r' !! k
         = if decide (Spec.strip_space_slash key = k)
           then Some (default [] (Datafile.data r !! k) ++ [value])
           else Datafile.data r !! k) ∧
      length (files st') = length (files st) ∧
      forall j, j ≠ i -> files st' !! j = files st !! j.
Proof.
  intros Hdf Hr Hline Habsent.
  assert (parse_line _config beamlines st line = Ok st) as Hskip
    by by apply parse_line_no_separator.
  split; [done|]. intros next key value Hnext Hkv.
  exists {| files := alter (fun d => Datafile.__setitem__ d key value) i (files st);
            df := Some i |}, (Datafile.__setitem__ r key value).
  simpl. rewrite Hskip. simpl.
  rewrite (parse_line_key_value _ _ st next i key value) by done. simpl.
  split; [done|]. split; [done|].
  split; [by rewrite list_lookup_alter_eq, Hr|].
  split; [done|].
  split; [unfold Datafile.__setitem__; by repeat case_match|].
  split; [intros ->; by rewrite setitem_file_size|].
  split.
  - intros Hkey. split; [|intros k; by apply setitem_data].
    unfold Datafile.__setitem__. destruct (decide _); [done|].
    by case_match.
  - split; [by rewrite length_alter|].
    intros j Hj. by rewrite list_lookup_alter_ne.
Qed.

End OpenRecord.

Lemma line_without_separator_skipped_witness :
  exists st' r',
    parse_lines ansto_config ["Wombat"]
      {| files := [Samples.plain]; df := Some 0 |}
      [Samples.line "no separator here"; Samples.line "owner : me"] = Ok st' ∧
    df st' = Some 0 ∧
    files st' !! 0 = Some r' ∧
    Datafile.name r' = "Wombat/RunA/f1.hdf" ∧
    Datafile.size r' = Datafile.SizeInt 0 ∧
    Datafile.data r' !! "owner" = Some ["me"] ∧
    Datafile.data r' !! "title" = Some ["first"].
Proof.
  destruct (line_without_separator_skipped ansto_config ["Wombat"]
              {| files := [Samples.plain]; df := Some 0 |} 0 Samples.plain
              (Samples.line "no separator here") eq_refl eq_refl)
    as [_ Hnext].
  - split; [vm_compute; reflexivity | vm_compute; discriminate].
  - vm_compute; reflexivity.
  - destruct (Hnext (Samples.line "owner : me") "owner" "me")
      as (st' & r' & Hparse & Hdf & Hr & _ & Hname & _ & Hdata & _).
    + split; [vm_compute; reflexivity | vm_compute; discriminate].
    + vm_compute; reflexivity.
    + destruct Hdata as [Hsize Hdata]; [discriminate|].
      exists st', r'. split; [exact Hparse|]. split; [exact Hdf|].
      split; [exact Hr|]. split; [exact Hname|]. split; [exact Hsize|].
      split; [exact (Hdata "owner") | exact (Hdata "title")].
Defined.

(** ** Marker lines (C8) *)

(** Claim C8.  For a line reading [<b>] [p] [</b>:] the parser takes as path
    [p] without its first character, whatever that character is; when that
    path is accepted exactly one record is appended to [files] and becomes
    the open one: its stored name is [p] without its first character, it
    holds no metadata yet, and its beamline is the first segment of that
    name. *)
Theorem marker_path_drops_first_character
    (_config : gmap string BeamlineConfig) (beamlines : list string)
    (st : ParseState) (p line : string) :
  rstrip nl line = Spec.marker_line p ->
  Spec.marker_path line = Spec.tail p ∧
  (forall c rest, p = String c rest -> Spec.marker_path line = rest) ∧
  (Spec.accepted _config beamlines (Spec.tail p) ->
   exists st' r,
     parse_line _config beamlines st line = Ok st' ∧
     files st' = files st ++ [r] ∧
     df st' = Some (length (files st)) ∧
     r = Datafile.__init__ (Spec.tail p) ∧
     Datafile.name r = Spec.tail p ∧
     Datafile.data r = ∅ ∧
     Datafile.size r = Datafile.SizeInt 0 ∧
     Datafile.getBeamline r = Ok (Spec.first_segment (Datafile.name r))).
Proof.
  intros Hline.
  assert (Spec.marker_path line = Spec.tail p) as Hpath.
  { unfold Spec.marker_path. rewrite Hline. apply slice_marker_line. }
  split; [done|]. split; [intros c rest ->; by rewrite Hpath|].
  intros Hacc.
  exists {| files := files st ++ [Datafile.__init__ (Spec.tail p)];
            df := Some (length (files st)) |}, (Datafile.__init__ (Spec.tail p)).
  split.
  - rewrite parse_line_accepted; [by rewrite Hpath| |by rewrite Hpath].
    rewrite Hline. apply is_marker_marker_line.
  - repeat split. unfold Datafile.getBeamline. simpl. apply getitem_split_0.
Qed.

Lemma marker_path_drops_first_character_witness :
  rstrip nl (Samples.line "<b>/Wombat/RunA/f1.hdf</b>:")
  = Spec.marker_line "/Wombat/RunA/f1.hdf" ∧
  Spec.marker_path (Samples.line "<b>/Wombat/RunA/f1.hdf</b>:")
  = "Wombat/RunA/f1.hdf" ∧
  exists st' r,
    parse_line ansto_config ["Wombat"] parse_init
               (Samples.line "<b>/Wombat/RunA/f1.hdf</b>:") = Ok st' ∧
    files st' = [r] ∧
    df st' = Some 0 ∧
    Datafile.name r = "Wombat/RunA/f1.hdf" ∧
    Datafile.getBeamline r = Ok "Wombat".
Proof.
  split; [vm_compute; reflexivity|].
  destruct (marker_path_drops_first_character ansto_config ["Wombat"] parse_init
              "/Wombat/RunA/f1.hdf" (Samples.line "<b>/Wombat/RunA/f1.hdf</b>:"))
    as (Hpath & _ & Hrec); [vm_compute; reflexivity|].
  split; [exact Hpath|].
  destruct Hrec as (st' & r & Hparse & Hfiles & Hdf & _ & Hname & _ & _ & Hbeam).
  { accepted_by ansto_config_Wombat. }
  exists st', r. split; [exact Hparse|]. split; [exact Hfiles|].
  split; [exact Hdf|]. split; [exact Hname|].
  rewrite Hbeam, Hname. reflexivity.
Defined.

(** The marker of the source's own comment, and a path written without the
    leading slash. *)
Example marker_with_slash :
  Spec.marker_path "<b>/A/B/f</b>:" = "A/B/f" ∧ Spec.first_segment "A/B/f" = "A".
Proof. split; reflexivity. Qed.

Example marker_without_slash :
  Spec.marker_path "<b>Wombat/RunA/f1.hdf</b>:" = "ombat/RunA/f1.hdf".
Proof. reflexivity. Qed.

(** ** One separator, as the scan counts *)

Lemma split_go_skip_any sep m s rest :
  split_go sep m (String.length s) (s +:+ rest) = split_go sep m 0 rest.
Proof.
  induction s as [|c s IH]; [by rewrite append_nil_l|].
  rewrite append_cons. simpl. exact IH.
Qed.

(** The unbounded split is the split at the first separator followed by the
    unbounded split of the rest. *)
Lemma split_after_first sep s key value :
  sep ≠ "" ->
  split sep (Some 1) s = [key; value] ->
  split sep None s = key :: split sep None value.
Proof.
  intros Hsep. unfold split. revert key.
  induction s as [|c s IH]; intros key; [done|].
  rewrite !split_go_cons.
  rewrite !bool_decide_eq_false_2 by done. simpl negb. rewrite !andb_true_l.
  destruct (String.prefix sep (String c s)) eqn:Hp.
  - simpl fmap.
    apply prefix_append in Hp as [rest Hrest].
    destruct sep as [|a sep']; [done|].
    rewrite append_cons in Hrest. injection Hrest as -> ->.
    simpl String.length.
    replace (S (String.length sep') - 1) with (String.length sep') by lia.
    rewrite split_go_skip, split_go_skip_any.
    intros [= <- <-]. by destruct (split_go _ None 0 rest).
  - destruct (split_go sep (Some 1) 0 s) as [t ts] eqn:H1.
    intros [= <- Hts]. subst ts.
    specialize (IH t eq_refl).
    destruct (split_go sep None 0 s) as [t' ts'].
    injection IH as -> ->. done.
Qed.

(** What the scan counts: the separator is found exactly once when the line
    splits at its first separator and the rest holds no other. *)
Lemma count_one_iff sep s :
  sep ≠ "" ->
  count sep s = 1
  <-> exists key value,
        Spec.splits_at_first sep s key value ∧ contains sep value = false.
Proof.
  intros Hsep. pose proof (length_split sep s) as Hlen. split.
  - intros Hcount.
    destruct (contains sep s) eqn:Hc;
      [|apply count_zero in Hc; [lia|done]].
    destruct (split1_present sep s Hsep Hc) as (key & value & Hsplit).
    exists key, value. split; [by apply split1_first|].
    rewrite (split_after_first _ _ _ _ Hsep Hsplit) in Hlen.
    simpl in Hlen. rewrite length_split in Hlen.
    destruct (contains sep value) eqn:Hv; [|done].
    assert (count sep value ≠ 0); [|lia].
    intros Hz. apply count_zero in Hz; [congruence|done].
  - intros (key & value & Hfirst%split1_first_iff & Hv); [|done].
    rewrite (split_after_first _ _ _ _ Hsep Hfirst) in Hlen.
    simpl in Hlen. rewrite length_split in Hlen.
    apply count_zero in Hv; [lia|done].
Qed.

(** ** The sample sheet (C6, C9) *)

Section SampleSheet.

Variable ParameterName_get : Sample.Schema -> string -> Sample.Lookup.

(** Claim C6.  On the sample sheet of the specification's example, with the
    three keys known to the catalogue, the parser saves exactly two parameter
    sets in order: a sample set holding [SampleDescription = foo], opened by
    the first line, then a chemical set, opened by the [ChemicalName] line,
    holding [ChemicalName = bar] and [Mass = 5 mg]. *)
Theorem sample_sheet_example (name1 name2 name3 : string) :
  ParameterName_get Sample.sample_schema "SampleDescription" = Sample.Found name1 ->
  ParameterName_get Sample.chemical_schema "ChemicalName" = Sample.Found name2 ->
  ParameterName_get Sample.chemical_schema "Mass" = Sample.Found name3 ->
  file_lines Samples.sample_sheet
  = [Samples.line "SampleDescription : foo"; Samples.line "ChemicalName : bar";
     Samples.line "Mass : 5 mg"] ∧
  Sample.loop ParameterName_get Sample.init
    [Samples.line "SampleDescription : foo"]
  = Ok {| Sample.sets :=
            [{| Sample.schema := Sample.sample_schema;
                Sample.parameters := [(name1, "foo")] |}];
          Sample.sample_ps := Some 0;
          Sample.chemical_ps := None |} ∧
  Sample.loop ParameterName_get Sample.init
    [Samples.line "SampleDescription : foo"; Samples.line "ChemicalName : bar"]
  = Ok {| Sample.sets :=
            [{| Sample.schema := Sample.sample_schema;
                Sample.parameters := [(name1, "foo")] |};
             {| Sample.schema := Sample.chemical_schema;
                Sample.parameters := [(name2, "bar")] |}];
          Sample.sample_ps := Some 0;
          Sample.chemical_ps := Some 1 |} ∧
  Sample.parse ParameterName_get (file_lines Samples.sample_sheet)
  = Ok [{| Sample.schema := Sample.sample_schema;
           Sample.parameters := [(name1, "foo")] |};
        {| Sample.schema := Sample.chemical_schema;
           Sample.parameters := [(name2, "bar"); (name3, "5 mg")] |}].
Proof.
  intros H1 H2 H3. split; [vm_compute; reflexivity|].
  split; [|split].
  - vm_compute. rewrite H1. reflexivity.
  - vm_compute. rewrite H1, H2. reflexivity.
  - vm_compute. rewrite H1, H2, H3. reflexivity.
Qed.

Lemma sample_step_bad_line st line :
  rstrip nl line ≠ "" -> count " : " (rstrip nl line) ≠ 1 ->
  Sample.step ParameterName_get st line = Raise ValueError.
Proof.
  intros Hne Hcount. unfold Sample.step.
  destruct (decide _) as [|_]; [done|].
  pose proof (length_split " : " (rstrip nl line)) as Hlen.
  destruct (split " : " None (rstrip nl line)) as [|a [|b [|? ?]]]; try done.
  simpl in Hlen. lia.
Qed.

Lemma sample_loop_bad_line st pre line post :
  rstrip nl line ≠ "" -> count " : " (rstrip nl line) ≠ 1 ->
  forall r, Sample.loop ParameterName_get st (pre ++ line :: post) ≠ Ok r.
Proof.
  intros Hne Hcount. revert st.
  induction pre as [|l pre IH]; intros st r; simpl.
  - by rewrite sample_step_bad_line.
  - destruct (Sample.step ParameterName_get st l) as [st'|]; [apply IH | done].
Qed.

(** Claim C9, amended.  A non-blank sample-sheet line in which the scan of
    [split], going left to right and consuming each separator it finds,
    finds [" : "] not exactly once makes the two-way unpack raise
    [ValueError]: the sheet never parses and [_parse_metaman] returns no
    ingest.  Such a line holds no [" : "], or holds another [" : "] in what
    follows its first one.  The main parser, on the same line as a metadata
    line, raises nothing: without a separator the state is unchanged, with
    several the line is split at the first one only. *)
Theorem sample_sheet_bad_line_aborts
    (_config : gmap string BeamlineConfig)
    (pre post : list string) (line : string) :
  rstrip nl line ≠ "" ->
  count " : " (rstrip nl line) ≠ 1 ->
  (forall st, Sample.step ParameterName_get st line = Raise ValueError) ∧
  (forall sets, Sample.parse ParameterName_get (pre ++ line :: post) ≠ Ok sets) ∧
  (forall cleaned_beamline metaman ingest,
     _parse_metaman _config ParameterName_get cleaned_beamline
                    (Some (pre ++ line :: post)) metaman ≠ Ok (Some ingest)) ∧
  (Spec.metadata_line line ->
   forall beamlines st,
     (count " : " (rstrip nl line) = 0 ->
      parse_line _config beamlines st line = Ok st) ∧
     (2 <= count " : " (rstrip nl line) ->
      forall i, df st = Some i ->
        exists key value,
          split " : " (Some 1) (rstrip nl line) = [key; value] ∧
          parse_line _config beamlines st line
          = Ok {| files := alter (fun d => Datafile.__setitem__ d key value) i
                                 (files st);
                  df := Some i |})) ∧
  (contains " : " (rstrip nl line) = false ∨
   exists key value,
     Spec.splits_at_first " : " (rstrip nl line) key value ∧
     contains " : " value = true).
Proof.
  intros Hne Hcount.
  assert (forall sets, Sample.parse ParameterName_get (pre ++ line :: post) ≠ Ok sets)
    as Hparse.
  { intros sets. unfold Sample.parse.
    destruct (Sample.loop _ _ _) as [st|] eqn:Hloop; [|done].
    by apply sample_loop_bad_line in Hloop. }
  split; [intros st; by apply sample_step_bad_line|].
  split; [done|]. split.
  - intros cleaned metaman ingest. unfold _parse_metaman.
    destruct (decide _); [done|].
    pose proof (Hparse) as Hs.
    destruct (Sample.parse _ _) as [sets|]; [by destruct (Hs sets) | done].
  - split.
    + intros Hmeta beamlines st. split.
      * intros Hzero%count_zero; [|done]. by apply parse_line_no_separator.
      * intros Htwo i Hi.
        destruct (contains " : " (rstrip nl line)) eqn:Hc;
          [|apply count_zero in Hc; [lia | done]].
        destruct (key_value_present line Hc) as (key & value & Hkv).
        exists key, value. split; [by apply key_value_split|].
        by apply parse_line_key_value.
    + destruct (contains " : " (rstrip nl line)) eqn:Hc; [right|by left].
      destruct (split1_present " : " (rstrip nl line)) as (key & value & Hsplit);
        [done..|].
      exists key, value. split; [by apply split1_first|].
      destruct (contains " : " value) eqn:Hv; [done|].
      destruct Hcount. apply count_one_iff; [done|].
      exists key, value. split; [by apply split1_first|done].
Qed.

End SampleSheet.

Lemma sample_sheet_example_witness :
  Sample.parse Samples.any_name (file_lines Samples.sample_sheet)
  = Ok [{| Sample.schema := Sample.sample_schema;
           Sample.parameters := [("SampleDescription", "foo")] |};
        {| Sample.schema := Sample.chemical_schema;
           Sample.parameters := [("ChemicalName", "bar"); ("Mass", "5 mg")] |}].
Proof.
  apply (sample_sheet_example Samples.any_name "SampleDescription" "ChemicalName"
           "Mass" eq_refl eq_refl eq_refl).
Defined.

Lemma sample_sheet_bad_line_aborts_witness :
  rstrip nl (Samples.line "Mass : 5 : mg") ≠ "" ∧
  count " : " (rstrip nl (Samples.line "Mass : 5 : mg")) ≠ 1 ∧
  (forall sets,
     Sample.parse Samples.any_name
       ([Samples.line "SampleDescription : foo"]
        ++ Samples.line "Mass : 5 : mg" :: []) ≠ Ok sets) ∧
  (forall st,
     Sample.step Samples.any_name st (Samples.line "no separator") = Raise ValueError).
Proof.
  assert (rstrip nl (Samples.line "Mass : 5 : mg") ≠ "") as H1
    by (vm_compute; discriminate).
  assert (count " : " (rstrip nl (Samples.line "Mass : 5 : mg")) ≠ 1) as H2
    by (vm_compute; discriminate).
  split; [exact H1|]. split; [exact H2|]. split.
  - apply (sample_sheet_bad_line_aborts Samples.any_name ansto_config
             [Samples.line "SampleDescription : foo"] [] _ H1 H2).
  - apply (sample_sheet_bad_line_aborts Samples.any_name ansto_config [] []
             (Samples.line "no separator")); vm_compute; discriminate.
Defined.


(** Claim C9 as stated fails: the line holds the separator at offsets 1 and
    3, so more than once, and the sheet parses; the two occurrences share a
    space and the scan of [split] finds one. *)
Lemma overlapping_separators_counterexample :
  rstrip nl (Samples.line "a : : b") = "a : : b" ∧
  String.substring 1 3 "a : : b" = " : " ∧
  String.substring 3 3 "a : : b" = " : " ∧
  split " : " None "a : : b" = ["a"; ": b"] ∧
  Sample.step Samples.any_name Sample.init (Samples.line "a : : b")
  = Ok {| Sample.sets := [{| Sample.schema := Sample.sample_schema;
                             Sample.parameters := [("a", ": b")] |}];
          Sample.sample_ps := Some 0;
          Sample.chemical_ps := None |} ∧
  Sample.step Samples.any_name Sample.init (Samples.line "a : : b")
  ≠ Raise ValueError ∧
  Sample.parse Samples.any_name [Samples.line "a : : b"]
  = Ok [{| Sample.schema := Sample.sample_schema;
           Sample.parameters := [("a", ": b")] |}].
Proof.
  repeat split; try (vm_compute; reflexivity). vm_compute. discriminate.
Qed.

(** Two separators that share a space are one separator to [split]. *)
Example sample_sheet_shared_space :
  count " : " "a : : b" = 1 ∧
  Sample.parse Samples.any_name [Samples.line "a : : b"]
  = Ok [{| Sample.schema := Sample.sample_schema;
           Sample.parameters := [("a", ": b")] |}].
Proof. split; vm_compute; reflexivity. Qed.

(** ** Rejected markers (C4) *)

Section Rejected.

Variable _config : gmap string BeamlineConfig.
Variable beamlines : list string.

(** With no record open, the lines under a rejected marker are dropped. *)
Lemma rejected_block_dropped_when_closed st marker body rest :
  df st = None ->
  is_marker (rstrip nl marker) = true ->
  Spec.first_segment (Spec.marker_path marker) ∉ beamlines ∨
  (exists c, _config !! Spec.first_segment (Spec.marker_path marker) = Some c ∧
             filetypes c (basename (Spec.marker_path marker)) = false) ->
  Forall Spec.metadata_line body ->
  parse_lines _config beamlines st (marker :: body ++ rest)
  = parse_lines _config beamlines st rest.
Proof.
  intros Hdf Hm Hrej Hbody. simpl. rewrite parse_line_rejected by done. simpl.
  induction Hbody as [|l body Hl _ IH]; [done|].
  simpl. by rewrite parse_line_closed.
Qed.

(** With a record open, they are added to it. *)
Lemma rejected_block_leaks_when_open st i marker line key value :
  df st = Some i ->
  is_marker (rstrip nl marker) = true ->
  Spec.first_segment (Spec.marker_path marker) ∉ beamlines ∨
  (exists c, _config !! Spec.first_segment (Spec.marker_path marker) = Some c ∧
             filetypes c (basename (Spec.marker_path marker)) = false) ->
  Spec.metadata_line line ->
  Spec.key_value line = Some (key, value) ->
  parse_lines _config beamlines st [marker; line]
  = Ok {| files := alter (fun d => Datafile.__setitem__ d key value) i (files st);
          df := Some i |}.
Proof.
  intros Hdf Hm Hrej Hl Hkv. simpl. rewrite parse_line_rejected by done. simpl.
  by rewrite (parse_line_key_value _ _ st line i key value).
Qed.

End Rejected.

(** Claim C4, evaluated where it fails.  A marker for a beamline that was
    not selected, or for a file type that is not accepted, comes while the
    record of the previous file is still open: the line under the rejected
    marker lands in that record. *)
Theorem rejected_marker_lines_reach_open_record :
  parse ansto_config ["Wombat"] Samples.unterminated_then_rejected
  = Ok [Datafile.__setitem__
          (Datafile.__setitem__ (Datafile.__init__ "Wombat/RunA/f1.hdf")
                                "title" "first")
          "owner" "someone else"] ∧
  parse ansto_config ["Wombat"] Samples.unterminated_then_unaccepted
  = Ok [Datafile.__setitem__
          (Datafile.__setitem__ (Datafile.__init__ "Wombat/RunA/f1.hdf")
                                "title" "first")
          "owner" "someone else"].
Proof. split; vm_compute; reflexivity. Qed.

(** ** Grouping (C1) *)

Section GroupingFacts.

Variable _config : gmap string BeamlineConfig.

(** Each record with metadata resets its dataset's entry to the placeholder
    and then, if it is a carrier, to itself: the last record of a name
    decides the entry. *)
Lemma group_step_metadata g df beamline dsName is_meta :
  Datafile.hasMetadata df = true ->
  Datafile.getBeamline df = Ok beamline ->
  _getDatasetName _config df beamline = Ok dsName ->
  _isDatasetMetadata _config df beamline = Ok is_meta ->
  exists g',
    Grouping.step _config g df = Ok g' ∧
    Grouping.metadata g' !! dsName
    = Some (if is_meta then Carrier df else Grouping.placeholder dsName) ∧
    forall other, other ≠ dsName ->
      Grouping.metadata g' !! other = Grouping.metadata g !! other.
Proof.
  intros Hmeta Hb Hname Hcarrier. unfold Grouping.step.
  rewrite Hmeta, Hb. simpl. rewrite Hname. simpl. rewrite Hcarrier. simpl.
  destruct is_meta; simpl.
  - eexists. split; [done|]. simpl. split; [by rewrite lookup_insert_eq|].
    intros other Hother. by rewrite !lookup_insert_ne.
  - destruct (Grouping.datasets g !! dsName); eexists; (split; [done|]); simpl;
      (split; [by rewrite lookup_insert_eq|]);
      intros other Hother; by rewrite lookup_insert_ne.
Qed.

End GroupingFacts.

(** No beamline of the shipped table names a metadata marker, so under it
    no record is a carrier and every entry is a placeholder. *)
Lemma ansto_config_no_marker beamline c :
  ansto_config !! beamline = Some c -> metadata c = None.
Proof.
  unfold ansto_config.
  repeat (rewrite lookup_insert; case_decide; [by intros [= <-]|]).
  by rewrite lookup_empty.
Qed.

Lemma ansto_config_never_carrier df beamline is_meta :
  _isDatasetMetadata ansto_config df beamline = Ok is_meta -> is_meta = false.
Proof.
  unfold _isDatasetMetadata, config_get.
  destruct (ansto_config !! beamline) as [c|] eqn:Hc; [|done].
  simpl. rewrite (ansto_config_no_marker _ _ Hc). by intros [= <-].
Qed.

(** The two orders, evaluated.  With a metadata marker configured, a carrier
    and an ordinary file resolve to the same dataset name; when the carrier
    comes last the final entry is the carrier, when it comes first the
    ordinary file's placeholder replaces it. *)
Example carrier_replaced_by_later_placeholder :
  _isDatasetMetadata marker_config Samples.carrier "Wombat" = Ok true ∧
  _getDatasetName marker_config Samples.carrier "Wombat" = Ok "RunA" ∧
  _getDatasetName marker_config Samples.plain "Wombat" = Ok "RunA" ∧
  (exists g,
     Grouping.group marker_config [Samples.plain; Samples.carrier] = Ok g ∧
     Grouping.metadata g !! "RunA" = Some (Carrier Samples.carrier)) ∧
  (exists g,
     Grouping.group marker_config [Samples.carrier; Samples.plain] = Ok g ∧
     Grouping.metadata g !! "RunA" = Some (Grouping.placeholder "RunA")).
Proof.
  split; [vm_compute; reflexivity|].
  split; [vm_compute; reflexivity|].
  split; [vm_compute; reflexivity|].
  split; eexists; (split; [vm_compute; reflexivity|]); vm_compute; reflexivity.
Qed.

(** ** End to end *)

(** The specification's scenario: two blocks for Wombat, one naming the
    sample, give one dataset holding both files in block order. *)
Example two_blocks_one_dataset :
  exists ingest,
    _parse_metaman ansto_config Samples.any_name "Wombat, Emu" None
      (Spec.block_lines Samples.block_f1 ++ Spec.block_lines Samples.block_f2)
    = Ok (Some ingest) ∧
    parsed_files ingest
    = [Spec.block_record Samples.block_f1; Spec.block_record Samples.block_f2] ∧
    Grouping.datasets (grouped ingest)
    = {["RunA" := [Spec.block_record Samples.block_f1;
                  Spec.block_record Samples.block_f2]]} ∧
    Grouping.metadata (grouped ingest) = {["RunA" := Grouping.placeholder "RunA"]}.
Proof.
  eexists. split; [vm_compute; reflexivity|].
  repeat split; vm_compute; reflexivity.
Qed.

Example no_beamline_selected :
  _parse_metaman ansto_config Samples.any_name "Emu, Koala" None
    (Spec.block_lines Samples.block_f1) = Ok None.
Proof. vm_compute. reflexivity. Qed.

(** ** More on the block parser *)

Section ParserMore.

Variable _config : gmap string BeamlineConfig.
Variable beamlines : list string.

(** What one line does, by cases. *)
Lemma parse_line_cases st line st' :
  parse_line _config beamlines st line = Ok st' ->
  (Keeps.opens_record _config beamlines line = true ∧
   st' = {| files := files st ++ [Datafile.__init__ (Spec.marker_path line)];
            df := Some (length (files st)) |}) ∨
  (Keeps.opens_record _config beamlines line = false ∧
   ((files st' = files st ∧ (df st' = df st ∨ df st' = None)) ∨
    (exists i key value,
       df st = Some i ∧ df st' = Some i ∧
       is_marker (rstrip nl line) = false ∧
       files st' = alter (fun d => Datafile.__setitem__ d key value) i (files st)))).
Proof.
  unfold parse_line, Keeps.opens_record. fold (Spec.marker_path line).
  destruct (is_marker (rstrip nl line)) eqn:Hm.
  - rewrite getitem_split_0. fold (Spec.first_segment (Spec.marker_path line)).
    simpl. case_bool_decide as Hin.
    + intros [= <-]. right. rewrite bool_decide_eq_false_2 by done.
      split; [done|]. left. auto.
    + rewrite bool_decide_eq_true_2 by done.
      unfold _acceptFile, config_get.
      destruct (_config !! _) as [c|]; [|done]. simpl.
      destruct (filetypes c (basename (Spec.marker_path line))).
      * intros [= <-]. left. auto.
      * intros [= <-]. right. split; [done|]. left. auto.
  - simpl. intros H. right. split; [done|]. revert H.
    destruct (decide _); [intros [= <-]; left; auto|].
    destruct (df st) as [i|] eqn:Hdf; [|intros [= <-]; left; auto].
    intros [= <-].
    destruct (split " : " (Some 1) (rstrip nl line)) as [|a [|b l]]; simpl;
      [left; auto..|].
    right. by exists i, a, b.
Qed.

Lemma parse_line_total st line :
  (forall b, b ∈ beamlines -> is_Some (_config !! b)) ->
  exists st', parse_line _config beamlines st line = Ok st'.
Proof.
  intros Hcover. unfold parse_line.
  destruct (is_marker (rstrip nl line)).
  - rewrite getitem_split_0. simpl. case_bool_decide as Hin; [eauto|].
    apply Hcover in Hin as [c Hc].
    unfold _acceptFile, config_get. rewrite Hc. simpl.
    destruct (filetypes c (basename _)); eauto.
  - destruct (decide _); [eauto|]. destruct (df st); eauto.
Qed.

Lemma parse_lines_total st metaman :
  (forall b, b ∈ beamlines -> is_Some (_config !! b)) ->
  exists st', parse_lines _config beamlines st metaman = Ok st'.
Proof.
  intros Hcover. revert st. induction metaman as [|line rest IH]; intros st.
  - by exists st.
  - simpl. destruct (parse_line_total st line Hcover) as [st1 ->]. apply IH.
Qed.

Lemma parse_line_open_is_last st line st' :
  Keeps.open_is_last st ->
  parse_line _config beamlines st line = Ok st' ->
  Keeps.open_is_last st'.
Proof.
  intros Hst [[_ ->]|[_ [[Hf [Hd|Hd]]|(i & k & v & Hi & Hi' & _ & Hf)]]]%parse_line_cases;
    intros j; simpl.
  - intros [= <-]. rewrite length_app. simpl. lia.
  - rewrite Hf, Hd. apply Hst.
  - by rewrite Hd.
  - rewrite Hf, length_alter, Hi', <- Hi. apply Hst.
Qed.

Lemma parse_line_closed_final st line st' j r :
  Keeps.open_is_last st ->
  parse_line _config beamlines st line = Ok st' ->
  files st !! j = Some r -> df st ≠ Some j ->
  files st' !! j = Some r ∧ df st' ≠ Some j.
Proof.
  intros Hst [[_ ->]|[_ [[Hf [Hd|Hd]]|(i & k & v & Hi & Hi' & _ & Hf)]]]%parse_line_cases
    Hj Hopen; simpl.
  - split; [by apply lookup_app_l_Some|].
    intros [= Heq]. apply lookup_lt_Some in Hj. lia.
  - by rewrite Hf, Hd.
  - by rewrite Hf, Hd.
  - rewrite Hf, Hi'. rewrite Hi in Hopen. split; [|done].
    rewrite list_lookup_alter_ne; [done | congruence].
Qed.

Lemma parse_line_name_kept st line st' j r :
  parse_line _config beamlines st line = Ok st' ->
  files st !! j = Some r ->
  exists r', files st' !! j = Some r' ∧ Datafile.name r' = Datafile.name r.
Proof.
  intros [[_ ->]|[_ [[Hf _]|(i & k & v & Hi & Hi' & _ & Hf)]]]%parse_line_cases Hj;
    simpl.
  - exists r. split; [by apply lookup_app_l_Some | done].
  - exists r. by rewrite Hf.
  - rewrite Hf. destruct (decide (i = j)) as [->|Hne].
    + rewrite list_lookup_alter_eq, Hj. simpl. eexists. split; [done|].
      unfold Datafile.__setitem__. by repeat case_match.
    + exists r. by rewrite list_lookup_alter_ne.
Qed.

End ParserMore.

Lemma setitem_name d key value :
  Datafile.name (Datafile.__setitem__ d key value) = Datafile.name d.
Proof. unfold Datafile.__setitem__. by repeat case_match. Qed.

Lemma has_char_strip_space_slash key :
  Keeps.has_char " " (Spec.strip_space_slash key) = false ∧
  Keeps.has_char "/" (Spec.strip_space_slash key) = false.
Proof.
  induction key as [|c key [IH1 IH2]]; [done|]. simpl.
  destruct (Ascii.eqb c " ") eqn:E1; [done|].
  destruct (Ascii.eqb c "/") eqn:E2; [done|].
  simpl. by rewrite E1, E2, IH1, IH2.
Qed.

Lemma keys_normalised_init name : Keeps.keys_normalised (Datafile.__init__ name).
Proof. intros k [? H]. simpl in H. by rewrite lookup_empty in H. Qed.

Lemma keys_normalised_setitem d key value :
  Keeps.keys_normalised d ->
  Keeps.keys_normalised (Datafile.__setitem__ d key value).
Proof.
  intros Hd k. destruct (decide (key = "File Size")) as [->|Hkey].
  - rewrite setitem_file_size. apply Hd.
  - rewrite setitem_data by done. case_decide as Hk; [|apply Hd].
    intros _. rewrite <- Hk. apply has_char_strip_space_slash.
Qed.

Lemma fmap_name_alter (f : Datafile.t -> Datafile.t) i (l : list Datafile.t) :
  (forall d, Datafile.name (f d) = Datafile.name d) ->
  Datafile.name <$> alter f i l = Datafile.name <$> l.
Proof.
  intros Hf. apply list_eq. intros j. rewrite !list_lookup_fmap.
  destruct (decide (i = j)) as [->|Hne].
  - rewrite list_lookup_alter_eq. destruct (l !! j); simpl; by rewrite ?Hf.
  - by rewrite list_lookup_alter_ne.
Qed.

Section ParserKeeps.

Variable _config : gmap string BeamlineConfig.
Variable beamlines : list string.

(** A property of records that holds of new records and is kept by
    [__setitem__] holds of every record the parser builds. *)
Lemma parse_lines_records_keep (P : Datafile.t -> Prop) metaman st st' :
  (forall path, P (Datafile.__init__ path)) ->
  (forall d key value, P d -> P (Datafile.__setitem__ d key value)) ->
  Forall P (files st) ->
  parse_lines _config beamlines st metaman = Ok st' ->
  Forall P (files st').
Proof.
  intros Hinit Hset. revert st.
  induction metaman as [|line rest IH]; intros st Hst; simpl.
  - by intros [= <-].
  - destruct (parse_line _config beamlines st line) as [st1|] eqn:H1; [|done].
    simpl. apply IH.
    apply parse_line_cases in H1
      as [[_ ->]|[_ [[Hf _]|(i & k & v & _ & _ & _ & Hf)]]]; simpl.
    + apply Forall_app. split; [done|].
      apply Forall_cons_2; [apply Hinit | apply Forall_nil_2].
    + by rewrite Hf.
    + rewrite Hf. apply Forall_alter; [done|]. intros; by apply Hset.
Qed.

Lemma parse_lines_open_is_last metaman st st' :
  Keeps.open_is_last st ->
  parse_lines _config beamlines st metaman = Ok st' ->
  Keeps.open_is_last st'.
Proof.
  revert st. induction metaman as [|line rest IH]; intros st Hst; simpl.
  - by intros [= <-].
  - destruct (parse_line _config beamlines st line) as [st1|] eqn:H1; [|done].
    simpl. apply IH. by eapply parse_line_open_is_last.
Qed.

Lemma parse_lines_closed_final metaman st st' j r :
  Keeps.open_is_last st ->
  parse_lines _config beamlines st metaman = Ok st' ->
  files st !! j = Some r -> df st ≠ Some j ->
  files st' !! j = Some r.
Proof.
  revert st. induction metaman as [|line rest IH]; intros st Hst; simpl.
  - by intros [= <-].
  - destruct (parse_line _config beamlines st line) as [st1|] eqn:H1; [|done].
    simpl. intros H2 Hj Hopen.
    destruct (parse_line_closed_final _ _ _ _ _ _ _ Hst H1 Hj Hopen) as [Hj1 Hopen1].
    eapply IH; [by eapply parse_line_open_is_last | done..].
Qed.

Lemma parse_lines_names metaman st st' :
  parse_lines _config beamlines st metaman = Ok st' ->
  Datafile.name <$> files st'
  = (Datafile.name <$> files st)
    ++ (Spec.marker_path
          <$> filter (fun line => Keeps.opens_record _config beamlines line = true)
                     metaman).
Proof.
  revert st. induction metaman as [|line rest IH]; intros st; simpl.
  - intros [= <-]. by rewrite app_nil_r.
  - destruct (parse_line _config beamlines st line) as [st1|] eqn:H1; [|done].
    simpl. intros ->%IH. rewrite filter_cons.
    apply parse_line_cases in H1
      as [[Ho ->]|[Ho [[Hf _]|(i & k & v & _ & _ & _ & Hf)]]]; simpl.
    + rewrite decide_True by done. rewrite fmap_app, <- app_assoc. done.
    + rewrite decide_False by congruence. by rewrite Hf.
    + rewrite decide_False by congruence. rewrite Hf.
      by rewrite fmap_name_alter by (intros; apply setitem_name).
Qed.

Lemma parse_line_shift before st line :
  parse_line _config beamlines (Keeps.shift before st) line
  = match parse_line _config beamlines st line with
    | Ok st' => Ok (Keeps.shift before st')
    | Raise e => Raise e
    end.
Proof.
  destruct st as [fs d]. unfold parse_line, Keeps.shift. simpl.
  destruct (is_marker (rstrip nl line)).
  - destruct (getitem _ 0) as [b|]; [|done]. simpl.
    case_bool_decide; [done|].
    destruct (_acceptFile _ _ _) as [[]|]; simpl; [|done..].
    by rewrite length_app, app_assoc.
  - destruct (decide _); [done|].
    destruct d as [i|]; simpl; [|done].
    destruct (split " : " (Some 1) (rstrip nl line)) as [|a [|b l]]; simpl;
      try done.
    by rewrite alter_app_r.
Qed.

Lemma parse_lines_shift before metaman st :
  parse_lines _config beamlines (Keeps.shift before st) metaman
  = match parse_lines _config beamlines st metaman with
    | Ok st' => Ok (Keeps.shift before st')
    | Raise e => Raise e
    end.
Proof.
  revert st. induction metaman as [|line rest IH]; intros st; [done|].
  simpl. rewrite parse_line_shift.
  destruct (parse_line _config beamlines st line) as [st1|]; [|done].
  simpl. apply IH.
Qed.

End ParserKeeps.

(** Property X1.  With the selected beamlines filtered against the table,
    as [_parse_metaman] does, the block parser raises on no stream: it
    returns one record per marker line that opens a record, in the order of
    those lines, each named by its marker's path. *)
Theorem parser_total_one_record_per_opening_marker
    (_config : gmap string BeamlineConfig)
    (beamlines_unfiltered metaman : list string) :
  exists records,
    parse _config
      (filter (fun beamline => is_Some (_config !! beamline)) beamlines_unfiltered)
      metaman = Ok records ∧
    Datafile.name <$> records
    = Spec.marker_path
        <$> filter
              (fun line =>
                 Keeps.opens_record _config
                   (filter (fun beamline => is_Some (_config !! beamline))
                           beamlines_unfiltered) line = true)
              metaman.
Proof.
  set (beamlines := filter _ beamlines_unfiltered).
  destruct (parse_lines_total _config beamlines parse_init metaman) as [st Hst].
  { intros b Hb. unfold beamlines in Hb. by apply list_elem_of_filter in Hb as [? _]. }
  exists (files st). unfold parse. rewrite Hst. split; [done|].
  by rewrite (parse_lines_names _ _ _ _ _ Hst).
Qed.

(** Property X2.  Once the parser has gone through a first part of the
    stream, every record that is not the open one is final: whatever lines
    follow, it is returned as it stands. *)
Theorem closed_records_are_final
    (_config : gmap string BeamlineConfig) (beamlines : list string)
    (first_part rest : list string) (st1 st2 : ParseState)
    (j : nat) (r : Datafile.t) :
  parse_lines _config beamlines parse_init first_part = Ok st1 ->
  parse_lines _config beamlines st1 rest = Ok st2 ->
  files st1 !! j = Some r ->
  df st1 ≠ Some j ->
  files st2 !! j = Some r.
Proof.
  intros H1 H2 Hj Hopen.
  eapply parse_lines_closed_final; [|exact H2|done..].
  eapply parse_lines_open_is_last; [|exact H1]. by intros i.
Qed.

Lemma closed_records_are_final_witness :
  files {| files := [Spec.block_record Samples.block_f1;
                     Spec.block_record Samples.block_f2];
           df := None |} !! 0
  = Some (Spec.block_record Samples.block_f1).
Proof.
  apply (closed_records_are_final ansto_config ["Wombat"]
           (Spec.block_lines Samples.block_f1) (Spec.block_lines Samples.block_f2)
           {| files := [Spec.block_record Samples.block_f1]; df := None |}).
  - vm_compute; reflexivity.
  - vm_compute; reflexivity.
  - reflexivity.
  - discriminate.
Defined.

(** Property X3.  A blank line makes what follows independent of what came
    before: when the first part of a stream parses to [records1], the stream
    with a blank line and a second part appended parses to [records1]
    followed by the records of the second part alone, and raises exactly when
    the second part alone does. *)
Theorem blank_line_separates_streams
    (_config : gmap string BeamlineConfig) (beamlines : list string)
    (metaman1 metaman2 : list string) (blank : string)
    (records1 : list Datafile.t) :
  parse _config beamlines metaman1 = Ok records1 ->
  rstrip nl blank = "" ->
  parse _config beamlines (metaman1 ++ blank :: metaman2)
  = match parse _config beamlines metaman2 with
    | Ok records2 => Ok (records1 ++ records2)
    | Raise e => Raise e
    end.
Proof.
  unfold parse. intros H1 Hblank.
  destruct (parse_lines _config beamlines parse_init metaman1) as [st1|] eqn:Hst1;
    [|done].
  injection H1 as <-.
  assert (forall l st,
            parse_lines _config beamlines st (l ++ blank :: metaman2)
            = match parse_lines _config beamlines st l with
              | Ok st' =>
                  parse_lines _config beamlines
                    {| files := files st'; df := None |} metaman2
              | Raise e => Raise e
              end) as Happ.
  { induction l as [|x l IH]; intros st; simpl.
    - by rewrite parse_line_blank.
    - destruct (parse_line _config beamlines st x); [apply IH | done]. }
  rewrite Happ, Hst1.
  replace {| files := files st1; df := None |}
    with (Keeps.shift (files st1) parse_init)
    by (unfold Keeps.shift; simpl; by rewrite app_nil_r).
  rewrite parse_lines_shift.
  by destruct (parse_lines _config beamlines parse_init metaman2).
Qed.

Lemma blank_line_separates_streams_witness :
  parse ansto_config ["Wombat"]
    ([Samples.line "<b>/Wombat/RunA/f1.hdf</b>:"; Samples.line "title : first"]
     ++ Samples.line "" :: Spec.block_lines Samples.block_f2)
  = Ok ([Samples.plain] ++ [Spec.block_record Samples.block_f2]).
Proof.
  apply (blank_line_separates_streams ansto_config ["Wombat"]
           [Samples.line "<b>/Wombat/RunA/f1.hdf</b>:"; Samples.line "title : first"]
           (Spec.block_lines Samples.block_f2) (Samples.line "") [Samples.plain]).
  - vm_compute; reflexivity.
  - vm_compute; reflexivity.
Defined.

(** Property X4.  With no record open, lines that are not markers change
    nothing: metadata written before the first marker, or after a blank
    line, is dropped. *)
Theorem lines_without_open_record_are_dropped
    (_config : gmap string BeamlineConfig) (beamlines : list string)
    (st : ParseState) (lines : list string) :
  df st = None ->
  Forall (fun line => is_marker (rstrip nl line) = false) lines ->
  parse_lines _config beamlines st lines = Ok st.
Proof.
  intros Hdf Hlines. induction Hlines as [|line lines Hm _ IH]; [done|].
  simpl. unfold parse_line. rewrite Hm.
  destruct (decide _).
  - simpl. destruct st as [fs d]. simpl in *. subst d. apply IH.
  - rewrite Hdf. simpl. apply IH.
Qed.

Lemma lines_without_open_record_are_dropped_witness :
  parse_lines ansto_config ["Wombat"] parse_init
    [Samples.line "title : first"; Samples.line ""; Samples.line "owner : me"]
  = Ok parse_init.
Proof.
  apply (lines_without_open_record_are_dropped ansto_config ["Wombat"] parse_init);
    [reflexivity|].
  repeat (apply Forall_cons_2; [vm_compute; reflexivity|]). apply Forall_nil_2.
Defined.

(** Property X5.  In every record the parser returns, a lookup that
    succeeds returns a non-empty list, and no lookup under a key holding a
    space or a slash succeeds: such keys are stored without them. *)
Theorem parsed_record_lookups
    (_config : gmap string BeamlineConfig) (beamlines metaman : list string)
    (records : list Datafile.t) (r : Datafile.t) :
  parse _config beamlines metaman = Ok records ->
  r ∈ records ->
  (forall key values,
     Datafile.__getitem__ r key = Ok values ->
     values ≠ [] ∧ Keeps.has_char " " key = false ∧ Keeps.has_char "/" key = false) ∧
  (forall key,
     Keeps.has_char " " key = true ∨ Keeps.has_char "/" key = true ->
     Datafile.__getitem__ r key = Raise KeyError).
Proof.
  unfold parse. intros Hparse Hr.
  destruct (parse_lines _config beamlines parse_init metaman) as [st|] eqn:Hst;
    [|done].
  injection Hparse as <-.
  assert (Forall (fun d => lists_nonempty d ∧ Keeps.keys_normalised d) (files st))
    as Hkeep.
  { eapply (parse_lines_records_keep _config beamlines); [| | |exact Hst].
    - intros path. split; [apply lists_nonempty_init | apply keys_normalised_init].
    - intros d k v [? ?].
      split; [by apply lists_nonempty_setitem | by apply keys_normalised_setitem].
    - apply Forall_nil_2. }
  rewrite Forall_forall in Hkeep. destruct (Hkeep r Hr) as [Hne Hkeys].
  assert (forall key values,
            Datafile.__getitem__ r key = Ok values ->
            values ≠ [] ∧ Keeps.has_char " " key = false
            ∧ Keeps.has_char "/" key = false) as Hok.
  { intros key values. unfold Datafile.__getitem__.
    destruct (Datafile.data r !! key) as [vs|] eqn:Hk; [|done].
    intros [= <-]. split; [by eapply Hne|]. apply Hkeys. by rewrite Hk. }
  split; [exact Hok|].
  intros key Hchar. unfold Datafile.__getitem__.
  destruct (Datafile.data r !! key) as [vs|] eqn:Hk; [|done].
  destruct (Hok key vs) as (_ & H1 & H2).
  { unfold Datafile.__getitem__. by rewrite Hk. }
  destruct Hchar; congruence.
Qed.

Lemma parsed_record_lookups_witness :
  Datafile.__getitem__ (Spec.block_record Samples.block_f1) "a b/c"
  = Raise KeyError.
Proof.
  apply (parsed_record_lookups ansto_config ["Wombat"]
           (Spec.block_lines Samples.block_f1)
           [Spec.block_record Samples.block_f1]).
  - vm_compute; reflexivity.
  - apply list_elem_of_here.
  - left. reflexivity.
Defined.

(** ** The accessors of [Datafile] and [DatasetMetadata] *)

Lemma has_char_strip_id key :
  Keeps.has_char " " key = false -> Keeps.has_char "/" key = false ->
  Spec.strip_space_slash key = key.
Proof.
  induction key as [|c key IH]; [done|]. simpl.
  intros [-> H1]%orb_false_elim [-> H2]%orb_false_elim. simpl. by rewrite IH.
Qed.

Lemma strip_space_slash_changes key :
  Keeps.has_char " " key = true ∨ Keeps.has_char "/" key = true ->
  Spec.strip_space_slash key ≠ key.
Proof.
  intros Hc Heq. destruct (has_char_strip_space_slash key) as [H1 H2].
  rewrite Heq in H1, H2. destruct Hc; congruence.
Qed.

(** Property X6.  [df[key] = value] files the value under the key with its
    spaces and slashes removed, after the values already there; the lookup
    and the deletion take their key as given, so on a record whose keys are
    all normalised [df[key]] and [del df[key]] raise [KeyError] right after
    the assignment when [key] holds a space or a slash ([File Size]
    included, which is stored under no key). *)
Theorem setitem_then_lookup (d : Datafile.t) (key value : string) :
  (key ≠ "File Size" ->
   Datafile.__getitem__ (Datafile.__setitem__ d key value)
                        (Spec.strip_space_slash key)
   = Ok (default [] (Datafile.data d !! Spec.strip_space_slash key) ++ [value])) ∧
  (Keeps.keys_normalised d ->
   Keeps.has_char " " key = true ∨ Keeps.has_char "/" key = true ->
   Datafile.__getitem__ (Datafile.__setitem__ d key value) key = Raise KeyError ∧
   Datafile.__delitem__ (Datafile.__setitem__ d key value) key = Raise KeyError).
Proof.
  split.
  - intros Hkey. unfold Datafile.__getitem__.
    rewrite setitem_data by done. by rewrite decide_True.
  - intros Hd Hc.
    assert (Datafile.data (Datafile.__setitem__ d key value) !! key = None) as Hnone.
    { destruct (Datafile.data (Datafile.__setitem__ d key value) !! key) eqn:Hk;
        [|done].
      destruct (keys_normalised_setitem d key value Hd key) as [H1 H2];
        [by rewrite Hk|].
      destruct Hc; congruence. }
    unfold Datafile.__getitem__, Datafile.__delitem__. by rewrite Hnone.
Qed.

Lemma setitem_then_lookup_witness :
  Datafile.__getitem__
    (Datafile.__setitem__ Samples.plain "beam size/x" "3 mm") "beamsizex"
  = Ok ["3 mm"] ∧
  Datafile.__getitem__
    (Datafile.__setitem__ Samples.plain "beam size/x" "3 mm") "beam size/x"
  = Raise KeyError.
Proof.
  split.
  - apply (proj1 (setitem_then_lookup Samples.plain "beam size/x" "3 mm")).
    discriminate.
  - apply (proj2 (setitem_then_lookup Samples.plain "beam size/x" "3 mm")).
    + apply keys_normalised_setitem, keys_normalised_init.
    + left. reflexivity.
Defined.

(** Property X7.  Deleting the key a value was just filed under, when the
    key was new, gives the record back; deleting a key that is not stored
    raises [KeyError]; after a deletion the key is gone and the count of
    keys is one less. *)
Theorem delitem_undoes_setitem (d : Datafile.t) (key value : string) :
  (key ≠ "File Size" ->
   Datafile.data d !! Spec.strip_space_slash key = None ->
   Datafile.__delitem__ (Datafile.__setitem__ d key value)
                        (Spec.strip_space_slash key) = Ok d) ∧
  (Datafile.data d !! key = None -> Datafile.__delitem__ d key = Raise KeyError) ∧
  (forall d',
     Datafile.__delitem__ d key = Ok d' ->
     Datafile.__getitem__ d' key = Raise KeyError ∧
     S (Datafile.__len__ d') = Datafile.__len__ d).
Proof.
  split; [|split].
  - intros Hkey Hnew. unfold Datafile.__delitem__.
    rewrite setitem_data by done. rewrite decide_True by done.
    unfold Datafile.__setitem__. rewrite decide_False by done.
    rewrite normalise_key, Hnew. simpl.
    rewrite delete_insert_id by done. by destruct d.
  - intros Hnone. unfold Datafile.__delitem__. by rewrite Hnone.
  - intros d'. unfold Datafile.__delitem__.
    destruct (Datafile.data d !! key) as [vs|] eqn:Hk; [|done].
    intros [= <-]. unfold Datafile.__getitem__, Datafile.__len__. simpl.
    rewrite lookup_delete_eq. split; [done|].
    rewrite (map_size_delete_Some key (Datafile.data d)); [|by rewrite Hk].
    assert (size (Datafile.data d) ≠ 0); [|lia].
    intros Hz%map_size_empty_inv. by rewrite Hz, lookup_empty in Hk.
Qed.

Lemma delitem_undoes_setitem_witness :
  Datafile.__delitem__ (Datafile.__setitem__ Samples.plain "owner" "me") "owner"
  = Ok Samples.plain ∧
  Datafile.__delitem__ Samples.plain "owner" = Raise KeyError.
Proof.
  split.
  - apply (proj1 (delitem_undoes_setitem Samples.plain "owner" "me"));
      [discriminate | vm_compute; reflexivity].
  - apply (proj1 (proj2 (delitem_undoes_setitem Samples.plain "owner" "me"))).
    vm_compute; reflexivity.
Defined.

(** Property X8.  [hasMetadata] and [__len__] count stored keys only: a
    [File Size] line changes neither, any other line makes [hasMetadata]
    true, and the count goes up by one exactly when the normalised key is
    new. *)
Theorem hasMetadata_counts_stored_keys (d : Datafile.t) (key value : string) :
  Datafile.hasMetadata (Datafile.__init__ (Datafile.name d)) = false ∧
  Datafile.hasMetadata (Datafile.__setitem__ d "File Size" value)
  = Datafile.hasMetadata d ∧
  Datafile.__len__ (Datafile.__setitem__ d "File Size" value)
  = Datafile.__len__ d ∧
  (key ≠ "File Size" ->
   Datafile.hasMetadata (Datafile.__setitem__ d key value) = true ∧
   Datafile.__len__ (Datafile.__setitem__ d key value)
   = if decide (is_Some (Datafile.data d !! Spec.strip_space_slash key))
     then Datafile.__len__ d else S (Datafile.__len__ d)).
Proof.
  split; [done|]. split; [done|]. split; [done|]. intros Hkey.
  assert (Datafile.__len__ (Datafile.__setitem__ d key value)
          = if decide (is_Some (Datafile.data d !! Spec.strip_space_slash key))
            then Datafile.__len__ d else S (Datafile.__len__ d)) as Hlen.
  { unfold Datafile.__len__, Datafile.__setitem__.
    rewrite decide_False by done. rewrite normalise_key.
    destruct (Datafile.data d !! Spec.strip_space_slash key) as [vs|] eqn:Hk.
    - rewrite decide_True by eauto. simpl. apply map_size_insert_Some. eauto.
    - rewrite decide_False by (by intros [? ?]). simpl.
      by apply map_size_insert_None. }
  split; [|done]. unfold Datafile.hasMetadata. apply bool_decide_eq_true.
  rewrite Hlen. case_decide as Hk; [|lia].
  destruct Hk as [vs Hk]. unfold Datafile.__len__.
  assert (size (Datafile.data d) ≠ 0); [|lia].
  intros Hz%map_size_empty_inv. by rewrite Hz, lookup_empty in Hk.
Qed.

Lemma hasMetadata_counts_stored_keys_witness :
  Datafile.hasMetadata
    (Datafile.__setitem__ (Datafile.__init__ "Wombat/RunA/f1.hdf") "title" "first")
  = true.
Proof.
  apply (hasMetadata_counts_stored_keys
           (Datafile.__init__ "Wombat/RunA/f1.hdf") "title" "first").
  discriminate.
Defined.

(** Property X9.  A [DatasetMetadata] uses its keys as given and keeps one
    value per key: an assignment replaces what was there, a lookup returns
    the last value assigned, and deleting a key just assigned to a fresh key
    gives the object back. *)
Theorem dataset_metadata_assignment
    (m : DatasetMetadata.t) (key : string) (old value : list string) :
  DatasetMetadata.__getitem__
    (DatasetMetadata.__setitem__ (DatasetMetadata.__setitem__ m key old) key value)
    key = Ok value ∧
  DatasetMetadata.__len__
    (DatasetMetadata.__setitem__ (DatasetMetadata.__setitem__ m key old) key value)
  = DatasetMetadata.__len__ (DatasetMetadata.__setitem__ m key old) ∧
  (forall other, other ≠ key ->
     DatasetMetadata.__getitem__ (DatasetMetadata.__setitem__ m key value) other
     = DatasetMetadata.__getitem__ m other) ∧
  (DatasetMetadata.data m !! key = None ->
   DatasetMetadata.__getitem__ m key = Raise KeyError ∧
   DatasetMetadata.__delitem__ m key = Raise KeyError ∧
   DatasetMetadata.__delitem__ (DatasetMetadata.__setitem__ m key value) key = Ok m).
Proof.
  unfold DatasetMetadata.__getitem__, DatasetMetadata.__setitem__,
    DatasetMetadata.__len__, DatasetMetadata.__delitem__. simpl.
  split; [|split; [|split]].
  - rewrite lookup_insert_eq. done.
  - apply map_size_insert_Some. rewrite lookup_insert_eq. eauto.
  - intros other Hne. rewrite lookup_insert_ne; done.
  - intros Hnone. rewrite Hnone, lookup_insert_eq.
    rewrite delete_insert_id by done. by destruct m.
Qed.

Lemma dataset_metadata_assignment_witness :
  DatasetMetadata.__delitem__
    (DatasetMetadata.__setitem__ DatasetMetadata.__init__ "sample_name" ["RunA"])
    "sample_name"
  = Ok DatasetMetadata.__init__.
Proof.
  apply (dataset_metadata_assignment DatasetMetadata.__init__ "sample_name" []
           ["RunA"]).
  reflexivity.
Defined.

(** ** More on grouping *)

Section GroupingMore.

Variable _config : gmap string BeamlineConfig.

(** What one iteration does when it raises nothing. *)
Lemma group_step_cases g df g' :
  Grouping.step _config g df = Ok g' ->
  (Datafile.hasMetadata df = false ∧ g' = g) ∨
  (exists dsName is_meta,
     Datafile.hasMetadata df = true ∧
     Keeps.resolved _config df = Some (dsName, is_meta) ∧
     Grouping.metadata g'
     = <[dsName := if is_meta then Carrier df else Grouping.placeholder dsName]>
         (Grouping.metadata g) ∧
     Grouping.datasets g'
     = if is_meta then Grouping.datasets g
       else <[dsName := default [] (Grouping.datasets g !! dsName) ++ [df]]>
              (Grouping.datasets g)).
Proof.
  unfold Grouping.step, Keeps.resolved.
  destruct (Datafile.hasMetadata df); simpl; [|intros [= <-]; by left].
  destruct (Datafile.getBeamline df) as [b|]; [|done]. simpl.
  destruct (_getDatasetName _config df b) as [n|]; [|done]. simpl.
  destruct (_isDatasetMetadata _config df b) as [[]|]; [| |done]; simpl.
  - intros [= <-]. right. exists n, true. simpl.
    by rewrite insert_insert_eq.
  - intros Hg. right. exists n, false.
    destruct (Grouping.datasets g !! n); injection Hg as <-; done.
Qed.

Lemma group_step_datasets g df g' n :
  Grouping.step _config g df = Ok g' ->
  Grouping.datasets g' !! n
  = if Keeps.files_under _config n df
    then Some (default [] (Grouping.datasets g !! n) ++ [df])
    else Grouping.datasets g !! n.
Proof.
  unfold Keeps.files_under.
  intros [[-> ->]|(ds & m & -> & -> & _ & ->)]%group_step_cases; [done|].
  simpl. destruct m.
  - by rewrite bool_decide_eq_false_2 by congruence.
  - destruct (decide (ds = n)) as [->|Hne].
    + rewrite bool_decide_eq_true_2 by done. by rewrite lookup_insert_eq.
    + rewrite bool_decide_eq_false_2 by congruence. by rewrite lookup_insert_ne.
Qed.

Lemma group_loop_datasets files g g' n :
  Grouping.loop _config g files = Ok g' ->
  Grouping.datasets g' !! n
  = match filter (fun df => Keeps.files_under _config n df = true) files with
    | [] => Grouping.datasets g !! n
    | l => Some (default [] (Grouping.datasets g !! n) ++ l)
    end.
Proof.
  revert g. induction files as [|df files IH]; intros g; simpl.
  - by intros [= <-].
  - destruct (Grouping.step _config g df) as [g1|] eqn:H1; [|done]. simpl.
    intros ->%IH. rewrite (group_step_datasets _ _ _ n H1), filter_cons.
    destruct (Keeps.files_under _config n df).
    + rewrite decide_True by done. simpl.
      destruct (filter _ files); [done|]. by rewrite <- app_assoc.
    + by rewrite decide_False.
Qed.

Lemma group_loop_metadata files g g' n entry :
  Grouping.loop _config g files = Ok g' ->
  Grouping.metadata g' !! n = Some entry ->
  Grouping.metadata g !! n = Some entry ∨
  entry = Grouping.placeholder n ∨
  exists df, df ∈ files ∧ entry = Carrier df ∧
             Keeps.resolved _config df = Some (n, true).
Proof.
  revert g. induction files as [|df files IH]; intros g; simpl.
  - intros [= <-]. by left.
  - destruct (Grouping.step _config g df) as [g1|] eqn:H1; [|done]. simpl.
    intros Hloop Hn.
    destruct (IH _ Hloop Hn) as [Hg1|[->|(d & Hd & -> & Hres)]].
    + apply group_step_cases in H1 as [[_ ->]|(ds & m & _ & Hres & Hmd & _)];
        [by left|].
      rewrite Hmd in Hg1. destruct (decide (ds = n)) as [->|Hne].
      * rewrite lookup_insert_eq in Hg1. injection Hg1 as <-.
        destruct m; [|by right; left].
        right. right. exists df. split; [apply list_elem_of_here | done].
      * rewrite lookup_insert_ne in Hg1 by done. by left.
    + right. by left.
    + right. right. exists d. split; [by apply list_elem_of_further | done].
Qed.

Lemma group_loop_domains files g g' n :
  Grouping.loop _config g files = Ok g' ->
  (is_Some (Grouping.datasets g !! n) -> is_Some (Grouping.metadata g !! n)) ->
  is_Some (Grouping.datasets g' !! n) -> is_Some (Grouping.metadata g' !! n).
Proof.
  revert g. induction files as [|df files IH]; intros g; simpl.
  - by intros [= <-].
  - destruct (Grouping.step _config g df) as [g1|] eqn:H1; [|done]. simpl.
    intros Hloop Hg. apply (IH _ Hloop).
    apply group_step_cases in H1 as [[_ ->]|(ds & m & _ & _ & -> & ->)]; [done|].
    destruct (decide (ds = n)) as [->|Hne].
    + intros _. rewrite lookup_insert_eq. eauto.
    + rewrite lookup_insert_ne by done. destruct m; [done|].
      by rewrite lookup_insert_ne.
Qed.

End GroupingMore.

(** ** The metadata entry of a dataset name (C1) *)

Section GroupingLast.

Variable _config : gmap string BeamlineConfig.

(** What one iteration does to the entry of a name. *)
Lemma group_step_entry g df g' n :
  Grouping.step _config g df = Ok g' ->
  Grouping.metadata g' !! n
  = if Keeps.resolves_to _config n df
    then Some (if Keeps.carrier_for _config n df then Carrier df
               else Grouping.placeholder n)
    else Grouping.metadata g !! n.
Proof.
  unfold Keeps.resolves_to, Keeps.carrier_for.
  intros [[-> ->]|(ds & m & -> & -> & -> & _)]%group_step_cases; [done|].
  simpl. destruct (decide (ds = n)) as [->|Hne].
  - rewrite bool_decide_eq_true_2 by done. rewrite lookup_insert_eq.
    destruct m.
    + by rewrite bool_decide_eq_true_2.
    + by rewrite bool_decide_eq_false_2.
  - rewrite bool_decide_eq_false_2 by done. by rewrite lookup_insert_ne.
Qed.

(** The last record of a name decides its entry. *)
Lemma group_loop_entry files g g' n :
  Grouping.loop _config g files = Ok g' ->
  Grouping.metadata g' !! n
  = match last (filter (fun df => Keeps.resolves_to _config n df = true) files) with
    | Some df => Some (if Keeps.carrier_for _config n df then Carrier df
                       else Grouping.placeholder n)
    | None => Grouping.metadata g !! n
    end.
Proof.
  revert g. induction files as [|df files IH]; intros g; simpl.
  - by intros [= <-].
  - destruct (Grouping.step _config g df) as [g1|] eqn:H1; [|done]. simpl.
    intros ->%IH. rewrite filter_cons.
    destruct (Keeps.resolves_to _config n df) eqn:Hres.
    + rewrite decide_True by done. rewrite last_cons.
      destruct (last (filter _ files)); [done|].
      by rewrite (group_step_entry _ _ _ n H1), Hres.
    + rewrite decide_False by done.
      destruct (last (filter _ files)); [done|].
      by rewrite (group_step_entry _ _ _ n H1), Hres.
Qed.


Lemma carrier_for_needs_marker n df :
  (forall beamline c, _config !! beamline = Some c -> metadata c = None) ->
  Keeps.carrier_for _config n df = false.
Proof.
  intros Hnone. unfold Keeps.carrier_for, Keeps.resolved.
  destruct (Datafile.hasMetadata df); [simpl|done].
  apply bool_decide_eq_false_2.
  destruct (Datafile.getBeamline df) as [b|]; [|done].
  destruct (_getDatasetName _config df b) as [ds|]; [|done].
  unfold _isDatasetMetadata, config_get.
  destruct (_config !! b) as [c|] eqn:Hc; [|done]. simpl.
  rewrite (Hnone _ _ Hc). by intros [= _ ?].
Qed.

End GroupingLast.




(** With the module's own table every name maps to its placeholder. *)
Lemma ansto_config_entries_are_placeholders files g dsName :
  Grouping.group ansto_config files = Ok g ->
  Exists (fun df => Keeps.resolves_to ansto_config dsName df = true) files ->
  Grouping.metadata g !! dsName = Some (Grouping.placeholder dsName).
Proof.
  intros Hg Hsome.
  pose proof (group_loop_entry ansto_config files Grouping.init g dsName Hg)
    as Hentry.
  rewrite Hentry. destruct (last (filter _ files)) as [df|] eqn:Hlast.
  - by rewrite (carrier_for_needs_marker ansto_config dsName df
                  ansto_config_no_marker).
  - apply last_None in Hlast. apply Exists_exists in Hsome as (df & Hin & Hres).
    assert (df ∈ filter (fun df => Keeps.resolves_to ansto_config dsName df = true)
                        files) as Hdf by (by apply list_elem_of_filter).
    rewrite Hlast in Hdf. by apply elem_of_nil in Hdf.
Qed.

(** Property X10.  When grouping raises nothing, the files of a dataset are
    exactly the records with metadata that resolve to its name and are not
    metadata carriers, in the order of the input; a name to which no such
    record resolves has no dataset. *)
Theorem datasets_hold_their_files_in_order
    (_config : gmap string BeamlineConfig) (files : list Datafile.t)
    (g : Grouping.t) (dsName : string) :
  Grouping.group _config files = Ok g ->
  Grouping.datasets g !! dsName
  = match filter (fun df => Keeps.files_under _config dsName df = true) files with
    | [] => None
    | ds => Some ds
    end.
Proof.
  intros H. unfold Grouping.group in H.
  rewrite (group_loop_datasets _ _ _ _ dsName H). simpl.
  by rewrite lookup_empty.
Qed.

Lemma group_three_files :
  Grouping.group ansto_config [Samples.plain; Samples.logbook; Samples.carrier]
  = Ok {| Grouping.datasets :=
            {["RunA" := [Samples.plain; Samples.carrier];
              "Log Books" := [Samples.logbook]]};
          Grouping.metadata :=
            {["RunA" := Grouping.placeholder "RunA";
              "Log Books" := Grouping.placeholder "Log Books"]} |}.
Proof. vm_compute. reflexivity. Qed.

Lemma datasets_hold_their_files_in_order_witness :
  ({["RunA" := [Samples.plain; Samples.carrier];
     "Log Books" := [Samples.logbook]]} : gmap string (list Datafile.t)) !! "RunA"
  = match filter (fun df => Keeps.files_under ansto_config "RunA" df = true)
                 [Samples.plain; Samples.logbook; Samples.carrier] with
    | [] => None
    | ds => Some ds
    end.
Proof.
  exact (datasets_hold_their_files_in_order ansto_config
           [Samples.plain; Samples.logbook; Samples.carrier] _ "RunA"
           group_three_files).
Defined.

(** Property X11.  When grouping raises nothing, every dataset has a
    metadata entry, and the entry of a name is either the placeholder seeded
    with that very name or a record of the input that resolves to the name
    and matches its beamline's metadata marker. *)
Theorem every_dataset_has_its_metadata_entry
    (_config : gmap string BeamlineConfig) (files : list Datafile.t)
    (g : Grouping.t) (dsName : string) :
  Grouping.group _config files = Ok g ->
  (is_Some (Grouping.datasets g !! dsName) ->
   is_Some (Grouping.metadata g !! dsName)) ∧
  (forall entry,
     Grouping.metadata g !! dsName = Some entry ->
     entry = Grouping.placeholder dsName ∨
     exists df, df ∈ files ∧ entry = Carrier df ∧
                Keeps.resolved _config df = Some (dsName, true)).
Proof.
  intros H. split.
  - apply (group_loop_domains _ _ _ _ dsName H). simpl.
    rewrite lookup_empty. by intros [? ?].
  - intros entry Hentry.
    destruct (group_loop_metadata _ _ _ _ _ _ H Hentry) as [Hinit|Hrest]; [|done].
    simpl in Hinit. by rewrite lookup_empty in Hinit.
Qed.

Lemma every_dataset_has_its_metadata_entry_witness :
  is_Some (({["RunA" := Grouping.placeholder "RunA";
              "Log Books" := Grouping.placeholder "Log Books"]}
            : gmap string MetadataEntry) !! "Log Books").
Proof.
  apply (proj1 (every_dataset_has_its_metadata_entry ansto_config
                  [Samples.plain; Samples.logbook; Samples.carrier] _ "Log Books"
                  group_three_files)).
  vm_compute. eauto.
Defined.

(** ** The shipped table *)

Lemma ansto_config_lookup beamline c :
  ansto_config !! beamline = Some c ->
  filetypes c = re_pdf_hdf ∧ groupDSRules c = [VStr "sample"] ∧
  metadata c = None ∧ re_pdf_hdf beamline = false.
Proof.
  unfold ansto_config.
  repeat (rewrite lookup_insert; case_decide;
          [intros [= <-]; subst beamline; by repeat split|]).
  by rewrite lookup_empty.
Qed.

Lemma basename_absent p : contains "/" p = false -> basename p = p.
Proof.
  induction p as [|c p IH]; [done|]. rewrite contains_cons, prefix_cons.
  intros [Hc Hp]%orb_false_elim. simpl. rewrite Hp.
  rewrite prefix_nil, andb_true_r in Hc. apply bool_decide_eq_false in Hc.
  destruct (Ascii.eqb_spec c "/") as [->|_]; done.
Qed.

(** A record the parser made under the shipped table has a second path
    segment: a path of one segment would be a beamline name, and none ends
    in [.pdf] or [.hdf]. *)
Lemma ansto_opened_path_has_slash beamlines line :
  Keeps.opens_record ansto_config beamlines line = true ->
  contains "/" (Spec.marker_path line) = true ∧
  exists c, ansto_config !! Spec.first_segment (Spec.marker_path line) = Some c.
Proof.
  unfold Keeps.opens_record. set (path := Spec.marker_path line).
  intros [[_ _]%andb_prop Hc]%andb_prop.
  destruct (ansto_config !! Spec.first_segment path) as [c|] eqn:Hlook; [|done].
  split; [|eauto].
  destruct (ansto_config_lookup _ _ Hlook) as (Hft & _ & _ & Hname).
  destruct (contains "/" path) eqn:Hsl; [done|].
  unfold Spec.first_segment in Hname.
  rewrite split_go_absent in Hname by done. simpl in Hname.
  rewrite basename_absent, Hft in Hc by done. congruence.
Qed.

Lemma ansto_group_step_total g df :
  lists_nonempty df ->
  contains "/" (Datafile.name df) = true ->
  is_Some (ansto_config !! Spec.first_segment (Datafile.name df)) ->
  exists g', Grouping.step ansto_config g df = Ok g'.
Proof.
  intros Hne Hsl [c Hc]. unfold Grouping.step.
  destruct (Datafile.hasMetadata df); simpl; [|eauto].
  unfold Datafile.getBeamline. rewrite getitem_split_0.
  fold (Spec.first_segment (Datafile.name df)). simpl.
  destruct (ansto_config_lookup _ _ Hc) as (_ & Hrule & Hmd & _).
  rewrite (getDatasetName_sample _ _ _ _ [] Hc Hrule).
  unfold _isDatasetMetadata, config_get. rewrite Hc. simpl. rewrite Hmd.
  destruct (Datafile.data df !! "sample_name") as [[|v vs]|] eqn:Hs.
  - by destruct (Hne _ _ Hs).
  - simpl. destruct (Grouping.datasets g !! v); simpl; eauto.
  - destruct (split_present "/" (Datafile.name df)) as (a & b & l & ->); [done..|].
    simpl. destruct (Grouping.datasets g !! _); simpl; eauto.
Qed.

Lemma ansto_group_total files g :
  Forall (fun df => lists_nonempty df ∧
                    contains "/" (Datafile.name df) = true ∧
                    is_Some (ansto_config !! Spec.first_segment (Datafile.name df)))
         files ->
  exists g', Grouping.loop ansto_config g files = Ok g'.
Proof.
  intros Hfiles. revert g.
  induction Hfiles as [|df files (H1 & H2 & H3) _ IH]; intros g; simpl; [eauto|].
  destruct (ansto_group_step_total g df H1 H2 H3) as [g1 ->]. apply IH.
Qed.

(** Property X12.  With the shipped table the in-memory phases raise only
    what the sample sheet raises: whatever the form's beamline field and
    the MetaMan stream, parsing and grouping return. *)
Theorem shipped_table_raises_only_from_sample_sheet
    (ParameterName_get : Sample.Schema -> string -> Sample.Lookup)
    (cleaned_beamline : string) (sample : option (list string))
    (metaman : list string) :
  match _parse_metaman ansto_config ParameterName_get cleaned_beamline sample
                       metaman with
  | Ok _ => True
  | Raise e =>
      exists lines, sample = Some lines ∧
                    Sample.parse ParameterName_get lines = Raise e
  end.
Proof.
  unfold _parse_metaman.
  set (beamlines := filter _ (split ", " None cleaned_beamline)).
  destruct (decide (beamlines = [])); [done|].
  assert (forall sets,
            match (files ← parse ansto_config beamlines metaman;
                   g ← Grouping.group ansto_config files;
                   Ok (Some {| sample_sets := sets; parsed_files := files;
                               grouped := g |})) with
            | Ok _ => True
            | Raise _ => False
            end) as Hrest.
  { intros sets. unfold parse.
    destruct (parse_lines_total ansto_config beamlines parse_init metaman)
      as [st Hst].
    { intros b Hb. unfold beamlines in Hb.
      by apply list_elem_of_filter in Hb as [? _]. }
    rewrite Hst. simpl.
    destruct (ansto_group_total (files st) Grouping.init) as [g Hg];
      [|unfold Grouping.group; by rewrite Hg].
    pose proof (parse_lines_names _ _ _ _ _ Hst) as Hnames. simpl in Hnames.
    pose proof (parse_lines_lists_nonempty _ _ _ parse_init _ (Forall_nil_2 _) Hst)
      as Hne.
    apply Forall_forall. intros df Hdf.
    split; [by eapply (proj1 (Forall_forall _ _) Hne)|].
    assert (Datafile.name df ∈ Datafile.name <$> files st) as Hin
      by (by apply list_elem_of_fmap_2).
    rewrite Hnames in Hin.
    apply list_elem_of_fmap in Hin as (line & -> & [Hopen _]%list_elem_of_filter).
    apply ansto_opened_path_has_slash in Hopen as [? [c Hc]]. eauto. }
  destruct sample as [lines|]; simpl.
  - destruct (Sample.parse ParameterName_get lines) as [sets|e] eqn:Hs; simpl.
    + specialize (Hrest sets). by destruct (parse _ _ _ ≫= _).
    + by exists lines.
  - specialize (Hrest []). by destruct (parse _ _ _ ≫= _).
Qed.

(** ** The [file] and [directory] rules of [_getDatasetName] *)

Lemma rev_app_append s t : String.rev_app s t = String.rev_app s "" +:+ t.
Proof.
  revert t. induction s as [|c s IH]; intros t; [done|]. simpl.
  rewrite (IH (String c t)), (IH (String c "")). by rewrite append_assoc.
Qed.

Lemma rev_cons c s : String.rev (String c s) = String.rev s +:+ String c "".
Proof. unfold String.rev. simpl. apply rev_app_append. Qed.

Lemma rev_append s t : String.rev (s +:+ t) = String.rev t +:+ String.rev s.
Proof.
  induction s as [|c s IH]; [by rewrite append_nil_l, append_nil_r|].
  by rewrite append_cons, !rev_cons, IH, append_assoc.
Qed.

Lemma rev_involutive s : String.rev (String.rev s) = s.
Proof.
  induction s as [|c s IH]; [done|]. by rewrite rev_cons, rev_append, IH.
Qed.

Lemma length_rev s : String.length (String.rev s) = String.length s.
Proof.
  induction s as [|c s IH]; [done|].
  rewrite rev_cons, length_append, IH. simpl. lia.
Qed.

Lemma contains_split sep s :
  contains sep s = true <-> exists a b, s = a +:+ sep +:+ b.
Proof.
  split; [|intros (a & b & ->); apply contains_append].
  induction s as [|c s IH].
  - destruct sep; [by exists "", "" | done].
  - rewrite contains_cons. intros [[rest ?]%prefix_append|Hc]%orb_prop.
    + by exists "", rest.
    + destruct (IH Hc) as (a & b & ->). by exists (String c a), b.
Qed.

Lemma contains_rev sep s :
  contains (String.rev sep) (String.rev s) = contains sep s.
Proof.
  assert (forall p t, contains p t = true ->
                      contains (String.rev p) (String.rev t) = true) as Hdir.
  { intros p t (a & b & ->)%contains_split. apply contains_split.
    exists (String.rev b), (String.rev a).
    by rewrite !rev_append, append_assoc. }
  destruct (contains sep s) eqn:Hc; [by apply Hdir|].
  destruct (contains (String.rev sep) (String.rev s)) eqn:Hr; [|done].
  apply Hdir in Hr. rewrite !rev_involutive in Hr. congruence.
Qed.

Lemma rev_nonempty sep : sep ≠ "" -> String.rev sep ≠ "".
Proof.
  intros Hsep Hr. apply Hsep. rewrite <- (rev_involutive sep). by rewrite Hr.
Qed.

(** [rsplit(sep, 1)] cuts at the last separator. *)
Lemma rsplit1_last sep s :
  sep ≠ "" -> contains sep s = true ->
  exists key value,
    rsplit sep (Some 1) s = Ok [key; value] ∧ Keeps.splits_at_last sep s key value.
Proof.
  intros Hsep Hc. unfold rsplit. rewrite decide_False by done.
  destruct (split1_present (String.rev sep) (String.rev s)) as (k & v & Hsplit).
  { by apply rev_nonempty. }
  { by rewrite contains_rev. }
  rewrite Hsplit.
  apply split1_first in Hsplit as [Hs Hmin]; [|by apply rev_nonempty].
  exists (String.rev v), (String.rev k). split; [done|].
  assert (s = String.rev v +:+ sep +:+ String.rev k) as Hcut.
  { rewrite <- (rev_involutive s), Hs, !rev_append, rev_involutive.
    by rewrite append_assoc. }
  split; [done|]. intros key' value' Hs'.
  rewrite length_rev, <- (length_rev value'). apply (Hmin _ (String.rev key')).
  by rewrite Hs', !rev_append, append_assoc.
Qed.

Lemma rsplit1_absent sep s :
  sep ≠ "" -> contains sep s = false -> rsplit sep (Some 1) s = Ok [s].
Proof.
  intros Hsep Hc. unfold rsplit. rewrite decide_False by done.
  rewrite split_absent by (by rewrite contains_rev). simpl.
  by rewrite rev_involutive.
Qed.

(** The last segment of a path is its basename. *)
Lemma last_segment_basename p :
  default (split_go "/" None 0 p).1 (last (split_go "/" None 0 p).2) = basename p.
Proof.
  induction p as [|c p IH]; [done|].
  rewrite split_go_cons. simpl negb. rewrite andb_true_l.
  rewrite prefix_cons, prefix_nil, andb_true_r.
  change (String.length "/" - 1) with 0. change (Nat.pred <$> None) with (@None nat).
  simpl basename.
  destruct (contains "/" p) eqn:Hc.
  - destruct (split_go_present "/" None p) as (a & b & rest & Hgo); [done..|].
    rewrite Hgo in *. simpl in IH. rewrite <- IH.
    assert (is_Some (last (b :: rest))) as [x Hx] by (by apply last_is_Some).
    case_bool_decide; simpl in *; by rewrite Hx.
  - rewrite (split_go_absent _ _ _ Hc). case_bool_decide as Hs; simpl.
    + subst c. done.
    + destruct (Ascii.eqb_spec c "/") as [->|_]; done.
Qed.

Lemma getitem_last {A} (x : A) l : getitem (x :: l) (-1) = Ok (default x (last l)).
Proof.
  unfold getitem. change (-1 <? 0)%Z with true. cbv iota.
  destruct (Z.ltb_spec (Z.of_nat (length (x :: l)) + -1) 0) as [Hlt|_];
    [simpl length in Hlt; lia|].
  replace (Z.to_nat _) with (Init.Nat.pred (length (x :: l)))
    by (simpl length; lia).
  rewrite <- last_lookup, last_cons. by destruct (last l).
Qed.

Lemma getitem_out_of_range {A} (l : list A) (i : Z) :
  (Z.of_nat (length l) <= i)%Z ∨ (i < - Z.of_nat (length l))%Z ->
  getitem l i = Raise IndexError.
Proof.
  intros Hi. unfold getitem.
  destruct (Z.ltb_spec i 0) as [Hneg|Hpos].
  - destruct (Z.ltb_spec (Z.of_nat (length l) + i) 0) as [|Hge]; [done|]. lia.
  - destruct (Z.ltb_spec i 0); [lia|].
    rewrite lookup_ge_None_2; [done|]. lia.
Qed.

Section OtherRules.

Variable _config : gmap string BeamlineConfig.
Variables (df : Datafile.t) (beamline : string) (c : BeamlineConfig).
Hypothesis Hconfig : _config !! beamline = Some c.

Lemma getDatasetName_file sep rest :
  groupDSRules c = VStr "file" :: VStr sep :: rest ->
  _getDatasetName _config df beamline
  = parts ← rsplit sep (Some 1) (Datafile.name df); getitem parts 0.
Proof.
  intros Hrule. unfold _getDatasetName, config_get.
  rewrite Hconfig. simpl. by rewrite Hrule.
Qed.

Lemma getDatasetName_directory item rest :
  groupDSRules c = VStr "directory" :: VInt item :: rest ->
  _getDatasetName _config df beamline
  = getitem (split "/" None (Datafile.name df)) item.
Proof.
  intros Hrule. unfold _getDatasetName, config_get.
  rewrite Hconfig. simpl. by rewrite Hrule.
Qed.

End OtherRules.

(** Property X13.  Under the [file] rule with separator [sep] the dataset
    name is the path up to its last [sep]: the path itself when [sep] does
    not occur in it, otherwise the left part of the cut whose right part is
    shortest.  An empty separator raises [ValueError]. *)
Theorem file_rule_cuts_at_last_separator
    (_config : gmap string BeamlineConfig) (df : Datafile.t)
    (beamline : string) (c : BeamlineConfig) (sep : string) (rest : list PyVal) :
  _config !! beamline = Some c ->
  groupDSRules c = VStr "file" :: VStr sep :: rest ->
  (sep = "" -> _getDatasetName _config df beamline = Raise ValueError) ∧
  (sep ≠ "" -> contains sep (Datafile.name df) = false ->
   _getDatasetName _config df beamline = Ok (Datafile.name df)) ∧
  (sep ≠ "" -> contains sep (Datafile.name df) = true ->
   exists dsName suffix,
     _getDatasetName _config df beamline = Ok dsName ∧
     Keeps.splits_at_last sep (Datafile.name df) dsName suffix).
Proof.
  intros Hc Hrule. rewrite (getDatasetName_file _ _ _ _ Hc _ _ Hrule).
  split; [|split].
  - intros ->. done.
  - intros Hsep Habs. by rewrite rsplit1_absent.
  - intros Hsep Hpres.
    destruct (rsplit1_last sep (Datafile.name df) Hsep Hpres) as (k & v & -> & Hcut).
    by exists k, v.
Qed.

Lemma file_rule_cuts_at_last_separator_witness :
  file_config !! "Wombat"
  = Some {| dfSchema := "http://www.tardis.edu.au/schemas/ansto/wbt/2011/06/21";
            filetypes := re_pdf_hdf;
            groupDSRules := [VStr "file"; VStr "_"];
            metadata := None;
            beamline_group := "BEAMLINE_WBT" |}
  /\ contains "_" (Datafile.name scan_file) = true
  /\ exists dsName suffix,
       _getDatasetName file_config scan_file "Wombat" = Ok dsName
       /\ Keeps.splits_at_last "_" (Datafile.name scan_file) dsName suffix.
Proof.
  assert (file_config !! "Wombat"
          = Some {| dfSchema := "http://www.tardis.edu.au/schemas/ansto/wbt/2011/06/21";
                    filetypes := re_pdf_hdf;
                    groupDSRules := [VStr "file"; VStr "_"];
                    metadata := None;
                    beamline_group := "BEAMLINE_WBT" |}) as Hlook
    by apply lookup_singleton_eq.
  split; [exact Hlook|]. split; [reflexivity|].
  apply (proj2 (proj2 (file_rule_cuts_at_last_separator
                         file_config scan_file "Wombat" _ "_" [] Hlook eq_refl)));
    [done | reflexivity].
Defined.

(** Property X14.  Under the [directory] rule the dataset name is the path
    segment at the configured index, as Python indexes: index 0 gives the
    beamline, index -1 the basename of the file, and an index outside the
    segments raises [IndexError]. *)
Theorem directory_rule_indexes_segments
    (_config : gmap string BeamlineConfig) (df : Datafile.t)
    (beamline : string) (c : BeamlineConfig) (item : Z) (rest : list PyVal) :
  _config !! beamline = Some c ->
  groupDSRules c = VStr "directory" :: VInt item :: rest ->
  (item = 0%Z ->
   _getDatasetName _config df beamline = Datafile.getBeamline df) ∧
  (item = (-1)%Z ->
   _getDatasetName _config df beamline = Ok (basename (Datafile.name df))) ∧
  ((0 <= item)%Z ->
   forall segment,
     _getDatasetName _config df beamline = Ok segment
     <-> split "/" None (Datafile.name df) !! Z.to_nat item = Some segment) ∧
  ((Z.of_nat (S (count "/" (Datafile.name df))) <= item)%Z ∨
   (item < - Z.of_nat (S (count "/" (Datafile.name df))))%Z ->
   _getDatasetName _config df beamline = Raise IndexError).
Proof.
  intros Hc Hrule. rewrite (getDatasetName_directory _ _ _ _ Hc _ _ Hrule).
  split; [|split; [|split]].
  - by intros ->.
  - intros ->. unfold split.
    pose proof (last_segment_basename (Datafile.name df)) as Hlast.
    destruct (split_go "/" None 0 (Datafile.name df)) as [t ts].
    rewrite getitem_last. by rewrite <- Hlast.
  - intros Hpos segment. unfold getitem.
    destruct (Z.ltb_spec item 0); [lia|].
    destruct (Z.ltb_spec item 0); [lia|].
    destruct (split "/" None (Datafile.name df) !! Z.to_nat item); split;
      congruence.
  - intros Hout. apply getitem_out_of_range. by rewrite length_split.
Qed.

Lemma directory_rule_indexes_segments_witness :
  directory_config !! "Wombat"
  = Some {| dfSchema := "http://www.tardis.edu.au/schemas/ansto/wbt/2011/06/21";
            filetypes := re_pdf_hdf;
            groupDSRules := [VStr "directory"; VInt 1];
            metadata := None;
            beamline_group := "BEAMLINE_WBT" |}
  /\ (0 <= 1)%Z
  /\ _getDatasetName directory_config scan_file "Wombat" = Ok "run_7".
Proof.
  assert (directory_config !! "Wombat"
          = Some {| dfSchema := "http://www.tardis.edu.au/schemas/ansto/wbt/2011/06/21";
                    filetypes := re_pdf_hdf;
                    groupDSRules := [VStr "directory"; VInt 1];
                    metadata := None;
                    beamline_group := "BEAMLINE_WBT" |}) as Hlook
    by apply lookup_singleton_eq.
  split; [exact Hlook|]. split; [lia|].
  apply (proj1 (proj2 (proj2 (directory_rule_indexes_segments
                         directory_config scan_file "Wombat" _ 1 [] Hlook eq_refl)))
               ltac:(lia) "run_7").
  reflexivity.
Defined.

(** ** File types *)

Lemma basename_append dir file :
  contains "/" file = false -> basename (dir +:+ "/" +:+ file) = file.
Proof.
  intros Hfile. induction dir as [|c dir IH].
  - rewrite append_nil_l. change ("/" +:+ file) with (String "/" file).
    simpl. by rewrite Hfile.
  - rewrite append_cons. simpl. by rewrite contains_append.
Qed.

(** Property X15.  [_acceptFile] and [_isDatasetMetadata] look at the
    basename only: the directories a file sits in do not matter, and a
    beamline that is not in the table raises [KeyError]. *)
Theorem file_type_checks_use_basename
    (_config : gmap string BeamlineConfig) (dir file beamline : string) :
  contains "/" file = false ->
  _acceptFile _config (dir +:+ "/" +:+ file) beamline
  = _acceptFile _config file beamline ∧
  _isDatasetMetadata _config (Datafile.__init__ (dir +:+ "/" +:+ file)) beamline
  = _isDatasetMetadata _config (Datafile.__init__ file) beamline ∧
  (_config !! beamline = None ->
   _acceptFile _config file beamline = Raise KeyError ∧
   _isDatasetMetadata _config (Datafile.__init__ file) beamline = Raise KeyError).
Proof.
  intros Hfile. unfold _acceptFile, _isDatasetMetadata, config_get. simpl.
  rewrite basename_append, basename_absent by done.
  split; [done|]. split; [done|]. by intros ->.
Qed.

Lemma file_type_checks_use_basename_witness :
  _acceptFile ansto_config ("Wombat/RunA" +:+ "/" +:+ "f1.hdf") "Wombat"
  = _acceptFile ansto_config "f1.hdf" "Wombat".
Proof.
  apply (file_type_checks_use_basename ansto_config "Wombat/RunA" "f1.hdf" "Wombat").
  reflexivity.
Defined.

Lemma lower_append s t : lower (s +:+ t) = lower s +:+ lower t.
Proof.
  induction s as [|c s IH]; [done|]. rewrite append_cons. simpl. by rewrite IH.
Qed.

Lemma length_lower s : String.length (lower s) = String.length s.
Proof. induction s as [|c s IH]; [done|]. simpl. by rewrite IH. Qed.

Lemma endswith_append s suf :
  endswith suf (s +:+ suf) = true.
Proof.
  unfold endswith. rewrite length_append.
  replace (_ - _) with (String.length s + 0) by lia.
  rewrite substring_skip_append, substring_0_length, String.eqb_refl.
  rewrite andb_true_r. apply Nat.leb_le. lia.
Qed.

Lemma has_char_contains c s :
  contains (String c "") s = Keeps.has_char c s.
Proof.
  induction s as [|a s IH]; [done|].
  rewrite contains_cons, prefix_cons, prefix_nil, andb_true_r, IH. simpl.
  f_equal. destruct (Ascii.eqb_spec a c) as [->|Hne].
  - by rewrite bool_decide_eq_true_2.
  - by rewrite bool_decide_eq_false_2 by congruence.
Qed.

Lemma has_char_append c s t :
  Keeps.has_char c (s +:+ t) = Keeps.has_char c s || Keeps.has_char c t.
Proof.
  induction s as [|a s IH]; [done|]. rewrite append_cons. simpl.
  by rewrite IH, orb_assoc.
Qed.

Lemma endswith_last_char c s a :
  a ≠ c -> endswith (String c "") (s +:+ String a "") = false.
Proof.
  intros Hne. unfold endswith. rewrite length_append. simpl String.length.
  replace (_ - _) with (String.length s + 0) by lia.
  rewrite substring_skip_append. simpl.
  apply andb_false_intro2. apply Ascii.eqb_neq in Hne. by rewrite Hne.
Qed.

(** An extension whose lower case is [.pdf] or [.hdf] has four characters,
    none a newline, the last one an [f] in either case. *)
Lemma extension_shape ext :
  lower ext = ".pdf" ∨ lower ext = ".hdf" ->
  Keeps.has_char nl ext = false ∧
  exists front last, ext = front +:+ String last "" ∧ last ≠ nl.
Proof.
  intros Hext.
  destruct ext as [|c0 [|c1 [|c2 [|c3 [|? ?]]]]];
    try (destruct Hext as [Hext|Hext]; discriminate Hext).
  assert (lower_ascii c0 = "."%char ∧
          (lower_ascii c1 = "p"%char ∨ lower_ascii c1 = "h"%char) ∧
          lower_ascii c2 = "d"%char ∧ lower_ascii c3 = "f"%char)
    as (H0 & H1 & H2 & H3).
  { destruct Hext as [Hext|Hext]; simpl in Hext; injection Hext; auto. }
  assert (forall c x, lower_ascii c = x -> x ≠ nl -> c ≠ nl) as Hnl.
  { intros c x <- Hx ->. by apply Hx. }
  assert (c0 ≠ nl) by (eapply Hnl; [exact H0 | discriminate]).
  assert (c1 ≠ nl) by (destruct H1 as [H1|H1]; eapply Hnl; [exact H1 | discriminate | exact H1 | discriminate]).
  assert (c2 ≠ nl) by (eapply Hnl; [exact H2 | discriminate]).
  assert (c3 ≠ nl) by (eapply Hnl; [exact H3 | discriminate]).
  split.
  - simpl. rewrite !orb_false_r.
    repeat (apply orb_false_intro); by apply Ascii.eqb_neq.
  - by exists (String c0 (String c1 (String c2 ""))), c3.
Qed.

(** Property X16.  The shipped file-type pattern accepts every basename
    made of a stem without newline followed by [.pdf] or [.hdf] in any
    mixture of upper and lower case, and accepts nothing shorter than four
    characters. *)
Theorem shipped_file_types_ignore_case (stem ext : string) :
  (Keeps.has_char nl stem = false ->
   lower ext = ".pdf" ∨ lower ext = ".hdf" ->
   re_pdf_hdf (stem +:+ ext) = true) ∧
  (String.length stem < 4 -> re_pdf_hdf stem = false).
Proof.
  split.
  - intros Hstem Hext.
    destruct (extension_shape ext Hext) as (Hnl & front & last & Hcut & Hlast).
    unfold re_pdf_hdf.
    assert (endswith NL (stem +:+ ext) = false) as ->.
    { rewrite Hcut, <- append_assoc. by apply endswith_last_char. }
    unfold NL. rewrite has_char_contains, has_char_append, Hstem, Hnl. simpl.
    rewrite lower_append.
    destruct Hext as [->| ->]; rewrite endswith_append; [done|apply orb_true_r].
  - intros Hshort. unfold re_pdf_hdf.
    set (body := if endswith NL stem then _ else stem).
    assert (String.length body < 4) as Hbody.
    { unfold body. destruct (endswith NL stem); [|done].
      destruct stem as [|a [|b [|c [|d ?]]]]; simpl in *; try lia;
        vm_compute; lia. }
    assert (forall suf, String.length suf = 4 -> endswith suf (lower body) = false)
      as Hend.
    { intros suf Hsuf. unfold endswith. rewrite length_lower, Hsuf.
      apply andb_false_intro1. apply Nat.leb_gt. lia. }
    rewrite !Hend by done. apply andb_false_r.
Qed.

Lemma shipped_file_types_ignore_case_witness :
  re_pdf_hdf ("scan 0001" +:+ ".HdF") = true ∧ re_pdf_hdf "pdf" = false.
Proof.
  split.
  - apply (shipped_file_types_ignore_case "scan 0001" ".HdF");
      [reflexivity | right; reflexivity].
  - apply (shipped_file_types_ignore_case "pdf" ""). simpl. lia.
Defined.

(** ** More on the sample sheet *)

Section SampleMore.

Variable ParameterName_get : Sample.Schema -> string -> Sample.Lookup.

Lemma opened_pointers_valid st key :
  Keeps.pointers_valid st ->
  Keeps.pointers_valid (Keeps.opened st key) ∧
  is_Some (Sample.sample_ps (Keeps.opened st key)).
Proof.
  intros (Hs & Hc & Hcs). unfold Keeps.opened.
  destruct (bool_decide (key = "SampleDescription")
            || bool_decide (Sample.sample_ps st = None)) eqn:Hfirst.
  - split; [|simpl; eauto]. split; [|split]; simpl;
      [|by intros ? [=]|by intros [? [=]]].
    intros i [= <-]. eexists.
    split; [rewrite lookup_app_r by done; by rewrite Nat.sub_diag | done].
  - apply orb_false_elim in Hfirst as [_ Hsome%bool_decide_eq_false].
    assert (is_Some (Sample.sample_ps st)) as Hsp
      by (by destruct (Sample.sample_ps st); [eauto|]).
    destruct (bool_decide (key = "ChemicalName")); [|done].
    split; [|done]. split; [|split]; simpl; [| |done].
    + intros i Hi. destruct (Hs i Hi) as (ps & Hps & ?). exists ps.
      split; [by apply lookup_app_l_Some | done].
    + intros i [= <-]. eexists.
      split; [rewrite lookup_app_r by done; by rewrite Nat.sub_diag | done].
Qed.

Lemma add_parameter_pointers_valid st i p :
  Keeps.pointers_valid st -> Keeps.pointers_valid (Sample.add_parameter i p st).
Proof.
  intros (Hs & Hc & Hcs). unfold Sample.add_parameter.
  split; [|split]; simpl; [| |done].
  - intros j Hj. destruct (Hs j Hj) as (ps & Hps & Hsch).
    destruct (decide (i = j)) as [->|Hne].
    + rewrite list_lookup_alter_eq, Hps. simpl. eauto.
    + rewrite list_lookup_alter_ne by done. eauto.
  - intros j Hj. destruct (Hc j Hj) as (ps & Hps & Hsch).
    destruct (decide (i = j)) as [->|Hne].
    + rewrite list_lookup_alter_eq, Hps. simpl. eauto.
    + rewrite list_lookup_alter_ne by done. eauto.
Qed.

(** What one line of the sheet does. *)
Lemma sample_step_cases st line :
  Keeps.pointers_valid st ->
  match Sample.step ParameterName_get st line with
  | Ok st' =>
      Keeps.pointers_valid st' ∧
      (st' = st ∨
       exists key value,
         split " : " None (rstrip nl line) = [key; value] ∧
         (st' = Keeps.opened st key ∨
          exists i ps param_name,
            value ≠ "" ∧
            Sample.sets (Keeps.opened st key) !! i = Some ps ∧
            ParameterName_get (Sample.schema ps) key = Sample.Found param_name ∧
            st' = Sample.add_parameter i (param_name, value) (Keeps.opened st key)))
  | Raise e =>
      (e = ValueError ∧ rstrip nl line ≠ "" ∧ count " : " (rstrip nl line) ≠ 1) ∨
      (e = MultipleObjectsReturned ∧
       exists schema key, ParameterName_get schema key = Sample.MultipleReturned)
  end.
Proof.
  intros Hst. unfold Sample.step.
  destruct (decide (rstrip nl line = "")) as [|Hne]; [by auto|].
  pose proof (length_split " : " (rstrip nl line)) as Hlen.
  destruct (split " : " None (rstrip nl line)) as [|key [|value [|? ?]]] eqn:Hsplit;
    simpl; try (left; split; [done|]; split; [done|]; simpl in Hlen; lia).
  fold (Keeps.opened st key).
  destruct (opened_pointers_valid st key Hst) as [Hop [sp Hsp]].
  destruct (decide (value = "")) as [|Hvalue].
  { split; [done|]. right. exists key, value. auto. }
  assert (exists i ps, (match Sample.chemical_ps (Keeps.opened st key) with
                        | Some i => Some i
                        | None => Sample.sample_ps (Keeps.opened st key)
                        end) = Some i
                       ∧ Sample.sets (Keeps.opened st key) !! i = Some ps)
    as (i & ps & -> & Hps).
  { destruct Hop as (Hs & Hc & _).
    destruct (Sample.chemical_ps (Keeps.opened st key)) as [j|] eqn:Hj.
    - destruct (Hc j eq_refl) as (ps & ? & _). eauto.
    - rewrite Hsp. destruct (Hs sp Hsp) as (ps & ? & _). eauto. }
  simpl. rewrite Hps. simpl.
  destruct (ParameterName_get (Sample.schema ps) key) as [n| |] eqn:Hget.
  - split; [by apply add_parameter_pointers_valid|].
    right. exists key, value. split; [done|]. right. by exists i, ps, n.
  - split; [done|]. right. exists key, value. auto.
  - right. split; [done|]. eauto.
Qed.

Lemma pointers_valid_init : Keeps.pointers_valid Sample.init.
Proof. split; [|split]; simpl; [by intros ? [=] | by intros ? [=] | by intros [? [=]]]. Qed.

Lemma sample_loop_failures lines st :
  Keeps.pointers_valid st ->
  match Sample.loop ParameterName_get st lines with
  | Ok st' => Keeps.pointers_valid st'
  | Raise e =>
      (e = ValueError ∧
       exists line, line ∈ lines ∧ rstrip nl line ≠ ""
                    ∧ count " : " (rstrip nl line) ≠ 1) ∨
      (e = MultipleObjectsReturned ∧
       exists schema key, ParameterName_get schema key = Sample.MultipleReturned)
  end.
Proof.
  revert st. induction lines as [|line lines IH]; intros st Hst; [done|].
  simpl. pose proof (sample_step_cases st line Hst) as Hstep.
  destruct (Sample.step ParameterName_get st line) as [st1|e]; simpl.
  - destruct Hstep as [Hst1 _]. specialize (IH st1 Hst1).
    destruct (Sample.loop ParameterName_get st1 lines); [done|].
    destruct IH as [(-> & l & Hl & ?)|?]; [left | by right].
    split; [done|]. exists l. split; [by apply list_elem_of_further | done].
  - destruct Hstep as [(-> & ? & ?)|?]; [left | by right].
    split; [done|]. exists line. split; [apply list_elem_of_here | done].
Qed.

End SampleMore.

(** Property X17.  The sample-sheet parser raises in two ways only:
    [ValueError], and then some non-blank line does not hold [" : "] exactly
    once, or [MultipleObjectsReturned], and then the catalogue answered with
    several names for some key.  In particular the two local variables
    always refer to saved sets. *)
Theorem sample_sheet_failure_modes
    (ParameterName_get : Sample.Schema -> string -> Sample.Lookup)
    (sample : list string) :
  match Sample.parse ParameterName_get sample with
  | Ok _ => True
  | Raise e =>
      (e = ValueError ∧
       exists line, line ∈ sample ∧ rstrip nl line ≠ ""
                    ∧ count " : " (rstrip nl line) ≠ 1) ∨
      (e = MultipleObjectsReturned ∧
       exists schema key, ParameterName_get schema key = Sample.MultipleReturned)
  end.
Proof.
  unfold Sample.parse.
  pose proof (sample_loop_failures ParameterName_get sample Sample.init
                (pointers_valid_init)) as H.
  by destruct (Sample.loop ParameterName_get Sample.init sample).
Qed.

Section SampleRows.

Variable ParameterName_get : Sample.Schema -> string -> Sample.Lookup.

Lemma opened_rows_sound st key :
  Keeps.rows_sound ParameterName_get (Sample.sets st) ->
  Keeps.rows_sound ParameterName_get (Sample.sets (Keeps.opened st key)).
Proof.
  intros Hst. unfold Keeps.opened.
  repeat case_match; simpl; [| |done];
    intros ps n v [Hps|Hps%list_elem_of_singleton]%elem_of_app Hrow;
    try (by eapply Hst); subst ps; by apply elem_of_nil in Hrow.
Qed.

Lemma add_parameter_rows_sound st i ps param_name key value :
  Keeps.rows_sound ParameterName_get (Sample.sets st) ->
  Sample.sets st !! i = Some ps ->
  ParameterName_get (Sample.schema ps) key = Sample.Found param_name ->
  value ≠ "" ->
  Keeps.rows_sound ParameterName_get
    (Sample.sets (Sample.add_parameter i (param_name, value) st)).
Proof.
  intros Hst Hps Hget Hvalue ps' n v Hin Hrow. simpl in Hin.
  apply list_elem_of_lookup in Hin as [j Hj].
  destruct (decide (i = j)) as [->|Hne].
  - rewrite list_lookup_alter_eq, Hps in Hj. simpl in Hj. injection Hj as <-.
    simpl in *. apply elem_of_app in Hrow as [Hrow|Hrow%list_elem_of_singleton].
    + eapply Hst; [|exact Hrow]. by eapply list_elem_of_lookup_2.
    + injection Hrow as -> ->. eauto.
  - rewrite list_lookup_alter_ne in Hj by done.
    eapply Hst; [|exact Hrow]. by eapply list_elem_of_lookup_2.
Qed.

Lemma opened_starts_with_sample st key :
  Keeps.pointers_valid st ->
  Keeps.starts_with_sample (Sample.sets st) ->
  Keeps.starts_with_sample (Sample.sets (Keeps.opened st key)).
Proof.
  intros (Hs & _ & _) Hhead. unfold Keeps.opened.
  destruct (bool_decide (key = "SampleDescription")
            || bool_decide (Sample.sample_ps st = None)) eqn:Hfirst; simpl.
  - intros ps. destruct (Sample.sets st) as [|p l] eqn:Hsets; simpl.
    + by intros [= <-].
    + intros [= <-]. by apply Hhead.
  - destruct (bool_decide (key = "ChemicalName")); [|done]. simpl.
    intros ps. destruct (Sample.sets st) as [|p l] eqn:Hsets; simpl.
    + apply orb_false_elim in Hfirst as [_ Hsome%bool_decide_eq_false].
      destruct (Sample.sample_ps st) as [i|] eqn:Hi; [|done].
      destruct (Hs i eq_refl) as (? & Hlook & _). rewrite ?Hsets in Hlook.
      by rewrite lookup_nil in Hlook.
    + intros [= <-]. by apply Hhead.
Qed.

Lemma add_parameter_starts_with_sample st i p :
  Keeps.starts_with_sample (Sample.sets st) ->
  Keeps.starts_with_sample (Sample.sets (Sample.add_parameter i p st)).
Proof.
  intros Hhead ps. simpl. rewrite head_lookup.
  destruct (decide (i = 0)) as [->|Hne].
  - rewrite list_lookup_alter_eq.
    destruct (Sample.sets st !! 0) as [q|] eqn:Hq; [|done].
    simpl. intros [= <-]. simpl. apply Hhead. by rewrite head_lookup.
  - rewrite list_lookup_alter_ne by done. intros Hq. apply Hhead.
    by rewrite head_lookup.
Qed.

Lemma sample_loop_rows lines st st' :
  Keeps.pointers_valid st ->
  Keeps.rows_sound ParameterName_get (Sample.sets st) ->
  Keeps.starts_with_sample (Sample.sets st) ->
  Sample.loop ParameterName_get st lines = Ok st' ->
  Keeps.rows_sound ParameterName_get (Sample.sets st') ∧
  Keeps.starts_with_sample (Sample.sets st').
Proof.
  revert st. induction lines as [|line lines IH]; intros st Hptr Hrows Hhead; simpl.
  - by intros [= <-].
  - pose proof (sample_step_cases ParameterName_get st line Hptr) as Hstep.
    destruct (Sample.step ParameterName_get st line) as [st1|]; [|done]. simpl.
    destruct Hstep as [Hptr1 Hcases].
    apply IH; [done|..];
      destruct Hcases as [->|(key & value & _ & [->|(i & ps & n & ? & ? & ? & ->)])];
      try done.
    + by apply opened_rows_sound.
    + eapply add_parameter_rows_sound; [by apply opened_rows_sound|done..].
    + by apply opened_starts_with_sample.
    + by apply add_parameter_starts_with_sample, opened_starts_with_sample.
Qed.

End SampleRows.

(** Property X18.  Whatever the sheet, every parameter the parser saves has
    a non-empty value and carries a name the catalogue gave for the schema
    of the set it is saved in; and the first set saved is a sample set, a
    chemical set being opened only under one. *)
Theorem saved_sample_parameters_are_sound
    (ParameterName_get : Sample.Schema -> string -> Sample.Lookup)
    (sample : list string) (sets : list Sample.ExperimentParameterSet) :
  Sample.parse ParameterName_get sample = Ok sets ->
  Keeps.rows_sound ParameterName_get sets ∧ Keeps.starts_with_sample sets.
Proof.
  unfold Sample.parse.
  destruct (Sample.loop ParameterName_get Sample.init sample) as [st|] eqn:Hloop;
    [|done].
  intros [= <-].
  eapply sample_loop_rows; [apply pointers_valid_init| | |exact Hloop].
  - intros ps n v Hps. by apply elem_of_nil in Hps.
  - by intros ps.
Qed.

Lemma saved_sample_parameters_are_sound_witness :
  Keeps.starts_with_sample
    [{| Sample.schema := Sample.sample_schema;
        Sample.parameters := [("ChemicalName", "bar")] |}].
Proof.
  apply (saved_sample_parameters_are_sound Samples.any_name
           [Samples.line "ChemicalName : bar"; Samples.line "Mass : "]).
  vm_compute; reflexivity.
Defined.

(** Property X19.  A [SampleDescription] line always opens a new sample
    set, leaves the sets saved before as they are and closes the chemical
    set: the parameter of the line that follows, when that line is neither a
    [SampleDescription] nor a [ChemicalName] line, goes to the new set. *)
Theorem sample_description_opens_new_set
    (ParameterName_get : Sample.Schema -> string -> Sample.Lookup)
    (st st' : Sample.t) (line value : string) :
  split " : " None (rstrip nl line) = ["SampleDescription"; value] ->
  Sample.step ParameterName_get st line = Ok st' ->
  Sample.chemical_ps st' = None ∧
  Sample.sample_ps st' = Some (length (Sample.sets st)) ∧
  (exists ps, Sample.sets st' = Sample.sets st ++ [ps] ∧
              Sample.schema ps = Sample.sample_schema) ∧
  forall next key value',
    split " : " None (rstrip nl next) = [key; value'] ->
    key ≠ "SampleDescription" -> key ≠ "ChemicalName" -> value' ≠ "" ->
    forall param_name,
      ParameterName_get Sample.sample_schema key = Sample.Found param_name ->
      Sample.step ParameterName_get st' next
      = Ok (Sample.add_parameter (length (Sample.sets st)) (param_name, value') st').
Proof.
  intros Hsplit. unfold Sample.step at 1.
  assert (rstrip nl line ≠ "") as Hne by (intros Hz; by rewrite Hz in Hsplit).
  rewrite decide_False by done. rewrite Hsplit. simpl.
  assert ((exists ps,
             Sample.sets st' = Sample.sets st ++ [ps] ∧
             Sample.schema ps = Sample.sample_schema ∧
             Sample.sample_ps st' = Some (length (Sample.sets st)) ∧
             Sample.chemical_ps st' = None) ->
          Sample.chemical_ps st' = None ∧
          Sample.sample_ps st' = Some (length (Sample.sets st)) ∧
          (exists ps, Sample.sets st' = Sample.sets st ++ [ps] ∧
                      Sample.schema ps = Sample.sample_schema) ∧
          forall next key value',
            split " : " None (rstrip nl next) = [key; value'] ->
            key ≠ "SampleDescription" -> key ≠ "ChemicalName" -> value' ≠ "" ->
            forall param_name,
              ParameterName_get Sample.sample_schema key = Sample.Found param_name ->
              Sample.step ParameterName_get st' next
              = Ok (Sample.add_parameter (length (Sample.sets st))
                                         (param_name, value') st')) as Hshape.
  { intros (ps & Hsets & Hsch & Hsp & Hcp). repeat split; [done..|eauto|].
    intros next key value' Hnext Hk1 Hk2 Hv n Hget. unfold Sample.step.
    assert (rstrip nl next ≠ "") as Hne' by (intros Hz; by rewrite Hz in Hnext).
    rewrite decide_False by done. rewrite Hnext. simpl.
    rewrite bool_decide_eq_false_2 by done.
    rewrite (bool_decide_eq_false_2 (Sample.sample_ps st' = None))
      by (by rewrite Hsp).
    simpl. rewrite bool_decide_eq_false_2 by done.
    rewrite decide_False by done. rewrite Hcp, Hsp. simpl.
    rewrite Hsets, lookup_app_r by done. rewrite Nat.sub_diag. simpl.
    by rewrite Hsch, Hget. }
  destruct (decide (value = "")) as [|Hvalue].
  - intros [= <-]. apply Hshape. eexists. simpl. eauto.
  - simpl. rewrite lookup_app_r by done. rewrite Nat.sub_diag. simpl.
    destruct (ParameterName_get Sample.sample_schema "SampleDescription");
      intros [= <-]; apply Hshape; simpl.
    + unfold Sample.add_parameter. simpl.
      rewrite alter_app_r_alt by done. rewrite Nat.sub_diag. simpl.
      eexists. eauto.
    + eexists. eauto.
Qed.

Lemma sample_description_opens_new_set_witness :
  Sample.chemical_ps
    {| Sample.sets :=
         [{| Sample.schema := Sample.sample_schema;
             Sample.parameters := [("SampleDescription", "foo")] |};
          {| Sample.schema := Sample.chemical_schema;
             Sample.parameters := [("ChemicalName", "bar")] |};
          {| Sample.schema := Sample.sample_schema;
             Sample.parameters := [("SampleDescription", "baz")] |}];
       Sample.sample_ps := Some 2;
       Sample.chemical_ps := None |} = None.
Proof.
  apply (sample_description_opens_new_set Samples.any_name
           {| Sample.sets :=
                [{| Sample.schema := Sample.sample_schema;
                    Sample.parameters := [("SampleDescription", "foo")] |};
                 {| Sample.schema := Sample.chemical_schema;
                    Sample.parameters := [("ChemicalName", "bar")] |}];
              Sample.sample_ps := Some 0;
              Sample.chemical_ps := Some 1 |}
           _ (Samples.line "SampleDescription : baz") "baz");
    vm_compute; reflexivity.
Defined.

(** ** The early return, the author rows and the form filter *)

Lemma filter_nil_iff {A} (P : A -> Prop) `{!forall x, Decision (P x)}
    (l : list A) :
  filter P l = [] <-> forall x, x ∈ l -> ~ P x.
Proof.
  split.
  - intros Hnil x Hx HP. by apply (filter_nil_not_elem_of P l x).
  - intros Hnone. induction l as [|a l IH]; [done|].
    rewrite filter_cons. destruct (decide (P a)) as [HP|_].
    + destruct (Hnone a); [left|done].
    + apply IH. intros x Hx. apply Hnone. by right.
Qed.

(** Property X20.  [_parse_metaman] returns [None] exactly when none of the
    names in the form's beamline field, split at [", "], is a key of the
    table, whatever the sample sheet and the MetaMan stream hold: neither is
    parsed before the test, so nothing in them can make it raise. *)
Theorem returns_none_iff_no_known_beamline
    (_config : gmap string BeamlineConfig)
    (ParameterName_get : Sample.Schema -> string -> Sample.Lookup)
    (cleaned_beamline : string) (sample : option (list string))
    (metaman : list string) :
  _parse_metaman _config ParameterName_get cleaned_beamline sample metaman
  = Ok None
  <-> forall beamline,
        beamline ∈ split ", " None cleaned_beamline -> _config !! beamline = None.
Proof.
  unfold _parse_metaman.
  assert (filter (fun beamline => is_Some (_config !! beamline))
                 (split ", " None cleaned_beamline) = [] <->
          forall beamline, beamline ∈ split ", " None cleaned_beamline ->
                           _config !! beamline = None) as Hempty.
  { rewrite filter_nil_iff. split; intros H b Hb; specialize (H b Hb).
    - by apply eq_None_not_Some.
    - by apply eq_None_not_Some. }
  destruct (decide _) as [Hnil|Hsome].
  - split; [intros _; by apply Hempty|done].
  - split; [|intros H; by apply Hempty in H].
    intros Hres. exfalso.
    destruct sample as [sample|]; simpl in Hres.
    + destruct (Sample.parse ParameterName_get sample); simpl in Hres; [|done].
      destruct (parse _ _ metaman) as [files|]; simpl in Hres; [|done].
      destruct (Grouping.group _config files); simpl in Hres; done.
    + destruct (parse _ _ metaman) as [files|]; simpl in Hres; [|done].
      destruct (Grouping.group _config files); simpl in Hres; done.
Qed.

Lemma returns_none_iff_no_known_beamline_witness :
  (forall beamline,
     beamline ∈ split ", " None "Emu, Koala" -> ansto_config !! beamline = None)
  /\ _parse_metaman ansto_config (fun _ _ => Sample.DoesNotExist) "Emu, Koala"
                    (Some ["no separator here"]) ["<b>Wombat/a.hdf</b>:"]
     = Ok None.
Proof.
  assert (forall beamline,
            beamline ∈ split ", " None "Emu, Koala" ->
            ansto_config !! beamline = None) as Hnone.
  { intros beamline Hin. change (split ", " None "Emu, Koala") with ["Emu"; "Koala"] in Hin.
    apply elem_of_cons in Hin as [->|Hin]; [reflexivity|].
    apply list_elem_of_singleton in Hin as ->. reflexivity. }
  split; [exact Hnone|].
  apply (proj2 (returns_none_iff_no_known_beamline _ _ _ _ _) Hnone).
Defined.

(** ** The author rows *)

Lemma add_author_fold (l : list string) (rows : list Author_Experiment) :
  exists rows',
    fold_left add_author l (rows, Z.of_nat (length rows))
    = (rows ++ rows', Z.of_nat (length (rows ++ rows')))
    /\ author <$> rows' = filter (fun a => a <> "") l
    /\ order <$> rows' = Z.of_nat <$> seq (length rows) (length rows').
Proof.
  revert rows. induction l as [|a l IH]; intros rows; simpl.
  - exists []. by rewrite app_nil_r.
  - unfold add_author at 2. rewrite filter_cons. simpl.
    destruct (decide (a = "")) as [->|Ha].
    + destruct (decide ("" <> "")) as [?|_]; [done|]. apply IH.
    + destruct (decide (a <> "")) as [_|?]; [|done].
      replace (Z.of_nat (length rows) + 1)%Z
        with (Z.of_nat (length (rows ++ [{| author := a;
                                            order := Z.of_nat (length rows) |}])))
        by (rewrite length_app; simpl; lia).
      destruct (IH (rows ++ [{| author := a; order := Z.of_nat (length rows) |}]))
        as (rows' & -> & Hauth & Hord).
      exists ({| author := a; order := Z.of_nat (length rows) |} :: rows').
      rewrite <- !app_assoc. split; [done|]. split.
      * by rewrite fmap_cons, Hauth.
      * rewrite fmap_cons, Hord, length_app. simpl.
        by replace (length rows + 1) with (S (length rows)) by lia.
Qed.

(** Property X21.  The author rows saved for an experiment are the owner
    followed by the non-empty entries of the researchers field split at
    [" ~ "], in order, and their [order] values count 0, 1, 2, ... with no
    gap where an empty entry was skipped. *)
Theorem author_rows_numbered_without_gaps (experiment_owner researchers : string) :
  author <$> save_authors experiment_owner researchers
  = experiment_owner :: filter (fun a => a <> "") (split " ~ " None researchers)
  /\ order <$> save_authors experiment_owner researchers
     = Z.of_nat <$> seq 0 (length (save_authors experiment_owner researchers)).
Proof.
  unfold save_authors.
  destruct (add_author_fold (split " ~ " None researchers)
              [{| author := experiment_owner; order := 0 |}])
    as (rows' & Hfold & Hauth & Hord).
  simpl in Hfold. change (Z.of_nat 1) with 1%Z in Hfold.
  rewrite Hfold. cbn [fst]. split.
  - by rewrite fmap_cons, Hauth.
  - by rewrite fmap_cons, Hord.
Qed.

(** ** parametername_form *)

Lemma prefix_single (a c : ascii) (s : string) :
  String.prefix (String a "") (String c s) = Ascii.eqb c a.
Proof.
  rewrite prefix_cons, prefix_nil, andb_true_r.
  destruct (Ascii.eqb_spec c a) as [->|Hne].
  - by rewrite bool_decide_eq_true_2.
  - by rewrite bool_decide_eq_false_2.
Qed.

Lemma replace_slash_cons (new : string) (c : ascii) (s : string) :
  replace "/" new (String c s)
  = if Ascii.eqb c "/" then new +:+ replace "/" new s
    else String c (replace "/" new s).
Proof.
  unfold replace. rewrite replace_go_cons, prefix_single. destruct (Ascii.eqb c "/"); reflexivity.
Qed.

Lemma replace_slash_clean (new s : string) :
  Keeps.has_char "/" new = false ->
  Keeps.has_char "/" (replace "/" new s) = false.
Proof.
  intros Hnew. induction s as [|c s IH]; [done|].
  rewrite replace_slash_cons. destruct (Ascii.eqb c "/") eqn:Hc.
  - by rewrite has_char_append, Hnew, IH.
  - simpl. by rewrite Hc, IH.
Qed.

Lemma replace_slash_id (new s : string) :
  Keeps.has_char "/" s = false -> replace "/" new s = s.
Proof.
  induction s as [|c s IH]; [done|]. simpl Keeps.has_char.
  intros [Hc Hs]%orb_false_elim. rewrite replace_slash_cons, Hc.
  by rewrite IH.
Qed.

Lemma count_slash_cons (c : ascii) (s : string) :
  count "/" (String c s)
  = (if Ascii.eqb c "/" then 1 else 0) + count "/" s.
Proof.
  unfold count. rewrite count_go_cons, prefix_single.
  by destruct (Ascii.eqb c "/").
Qed.

Lemma replace_slash_length (new s : string) :
  String.length (replace "/" new s) + count "/" s
  = String.length s + String.length new * count "/" s.
Proof.
  induction s as [|c s IH]; [by rewrite Nat.mul_0_r|].
  rewrite replace_slash_cons, count_slash_cons.
  destruct (Ascii.eqb c "/").
  - rewrite length_append. simpl String.length. lia.
  - simpl String.length. lia.
Qed.

(** Property X22.  [parametername_form] leaves no [/] in a parameter name,
    returns a name without [/] unchanged, and lengthens a name by four
    characters for each [/] it held. *)
Theorem parametername_form_removes_slashes (value : string) :
  Keeps.has_char "/" (FormFieldFilters.parametername_form value) = false
  /\ (Keeps.has_char "/" value = false ->
      FormFieldFilters.parametername_form value = value)
  /\ String.length (FormFieldFilters.parametername_form value)
     = String.length value + 4 * count "/" value.
Proof.
  unfold FormFieldFilters.parametername_form. split; [|split].
  - by apply replace_slash_clean.
  - apply replace_slash_id.
  - pose proof (replace_slash_length "_s47_" value) as Hlen.
    simpl String.length in Hlen. lia.
Qed.

Lemma parametername_form_removes_slashes_witness :
  Keeps.has_char "/" "EPN" = false
  /\ FormFieldFilters.parametername_form "EPN" = "EPN".
Proof.
  split; [reflexivity|].
  apply (proj1 (proj2 (parametername_form_removes_slashes "EPN"))).
  reflexivity.
Defined.

(** Property X23.  Every record the block parser returns belongs to a
    selected beamline that the table knows, and its basename passes that
    beamline's file type check; so the later lookups by the record's
    beamline, in the table and in the schemas gathered for the selected
    beamlines, find their key. *)
Theorem records_come_from_selected_beamlines
    (_config : gmap string BeamlineConfig) (beamlines metaman : list string)
    (records : list Datafile.t) (r : Datafile.t) :
  parse _config beamlines metaman = Ok records ->
  r ∈ records ->
  exists beamline c,
    Datafile.getBeamline r = Ok beamline ∧
    beamline ∈ beamlines ∧
    _config !! beamline = Some c ∧
    filetypes c (basename (Datafile.name r)) = true.
Proof.
  unfold parse. intros Hparse Hr.
  destruct (parse_lines _config beamlines parse_init metaman) as [st|] eqn:Hst;
    [|done].
  simpl in Hparse. injection Hparse as <-.
  pose proof (parse_lines_names _ _ _ _ _ Hst) as Hnames. simpl in Hnames.
  assert (Datafile.name r ∈ Datafile.name <$> files st) as Hin
    by (by apply list_elem_of_fmap_2).
  rewrite Hnames in Hin.
  apply list_elem_of_fmap in Hin as (line & Hname & Hline).
  apply list_elem_of_filter in Hline as [Hopens _].
  unfold Keeps.opens_record in Hopens. rewrite <- Hname in Hopens.
  apply andb_prop in Hopens as [[_ Hsel%bool_decide_eq_true]%andb_prop Hc].
  destruct (_config !! Spec.first_segment (Datafile.name r)) as [c|] eqn:Hlook;
    [|done].
  exists (Spec.first_segment (Datafile.name r)), c.
  split; [apply getitem_split_0|done].
Qed.

Lemma records_come_from_selected_beamlines_witness :
  exists beamline c,
    Datafile.getBeamline (Spec.block_record Samples.block_f1) = Ok beamline ∧
    beamline ∈ ["Wombat"] ∧
    ansto_config !! beamline = Some c ∧
    filetypes c (basename (Datafile.name (Spec.block_record Samples.block_f1)))
    = true.
Proof.
  apply (records_come_from_selected_beamlines ansto_config ["Wombat"]
           (Spec.block_lines Samples.block_f1)
           [Spec.block_record Samples.block_f1]).
  - vm_compute; reflexivity.
  - apply list_elem_of_here.
Defined.

(** ** _save_parameters *)

Lemma rstrip_chars_append chars s t :
  SaveParameters.rstrip_chars chars (s +:+ t)
  = match SaveParameters.rstrip_chars chars t with
    | "" => SaveParameters.rstrip_chars chars s
    | r => s +:+ r
    end.
Proof.
  induction s as [|a s IH].
  - rewrite append_nil_l. by destruct (SaveParameters.rstrip_chars chars t).
  - rewrite append_cons. simpl. rewrite IH.
    destruct (SaveParameters.rstrip_chars chars t) as [|b r]; [done|].
    rewrite append_cons.
    by destruct s.
Qed.

Section SaveMore.

Context {F : Type}.
Variable float : string -> option F.
Variable ParameterName_get : string -> SaveParameters.Lookup.
Variable save : list (SaveParameters.Row F) -> SaveParameters.Row F -> bool.

Lemma save_item_cases partype name rows item :
  match SaveParameters.new_parameter partype with
  | None =>
      SaveParameters.save_item F float save partype name rows item
      = (rows, Some SaveParameters.ObjectDoesNotExist)
  | Some k =>
      exists new,
        SaveParameters.save_item F float save partype name rows item
        = (rows ++ new, None) ∧
        Forall (fun p => SaveParameters.kind p = k ∧
                         SaveParameters.pname p = name ∧
                         SaveParameters.value_of float name item
                         = Some (SaveParameters.value p)) new
  end.
Proof.
  unfold SaveParameters.save_item, SaveParameters.value_of.
  destruct (SaveParameters.new_parameter partype) as [k|]; [|done].
  assert (match split " " None item with
          | value :: _ => SaveParameters.numerical_value <$> float value
          | [] => None
          end
          = SaveParameters.numerical_value <$> (head (split " " None item) ≫= float))
    as -> by (by destruct (split " " None item)).
  destruct (if SaveParameters.numeric name then _ else _) as [v|] eqn:Hv.
  - destruct (save rows _).
    + eexists [_]. split; [done|]. by apply Forall_cons_2; [|apply Forall_nil_2].
    + exists []. by rewrite app_nil_r.
  - exists []. by rewrite app_nil_r.
Qed.

Lemma save_items_cases partype name rows items :
  match SaveParameters.new_parameter partype with
  | None =>
      SaveParameters.save_items F float save partype name rows items
      = (rows, if decide (items = []) then None
               else Some SaveParameters.ObjectDoesNotExist)
  | Some k =>
      exists new,
        SaveParameters.save_items F float save partype name rows items
        = (rows ++ new, None) ∧
        Forall (fun p => SaveParameters.kind p = k ∧
                         SaveParameters.pname p = name ∧
                         exists item, item ∈ items ∧
                           SaveParameters.value_of float name item
                           = Some (SaveParameters.value p)) new
  end.
Proof.
  destruct (SaveParameters.new_parameter partype) as [k|] eqn:Hk.
  - revert rows. induction items as [|item items IH]; intros rows; simpl.
    + exists []. by rewrite app_nil_r.
    + pose proof (save_item_cases partype name rows item) as H1.
      rewrite Hk in H1. destruct H1 as (new1 & -> & Hnew1).
      destruct (IH (rows ++ new1)) as (new2 & -> & Hnew2).
      exists (new1 ++ new2). rewrite app_assoc. split; [done|].
      apply Forall_app_2.
      * eapply Forall_impl; [exact Hnew1|]. intros p (? & ? & ?).
        repeat split; [done..|]. exists item. split; [left|done].
      * eapply Forall_impl; [exact Hnew2|]. intros p (? & ? & item' & ? & ?).
        repeat split; [done..|]. exists item'. split; [by right|done].
  - destruct items as [|item items]; simpl; [done|].
    pose proof (save_item_cases partype name rows item) as H1.
    rewrite Hk in H1. by rewrite H1.
Qed.

Lemma save_key_cases partype rows entry :
  match SaveParameters.new_parameter partype with
  | None =>
      SaveParameters.save_key F float ParameterName_get save partype rows entry
      = (rows,
         match ParameterName_get entry.1 with
         | SaveParameters.Found _ =>
             if decide (entry.2 = []) then None
             else Some SaveParameters.ObjectDoesNotExist
         | SaveParameters.DoesNotExist => None
         | SaveParameters.MultipleReturned =>
             Some SaveParameters.MultipleObjectsReturned
         end)
  | Some k =>
      exists new,
        SaveParameters.save_key F float ParameterName_get save partype rows entry
        = (rows ++ new,
           match ParameterName_get entry.1 with
           | SaveParameters.MultipleReturned =>
               Some SaveParameters.MultipleObjectsReturned
           | _ => None
           end) ∧
        Forall (SaveParameters.from_data float ParameterName_get k [entry]) new
  end.
Proof.
  unfold SaveParameters.save_key. destruct entry as [key items]. simpl.
  pose proof (fun name => save_items_cases partype name rows items) as Hitems.
  destruct (SaveParameters.new_parameter partype) as [k|].
  - destruct (ParameterName_get key) as [name| |] eqn:Hget.
    + destruct (Hitems name) as (new & -> & Hnew). exists new. split; [done|].
      eapply Forall_impl; [exact Hnew|]. intros p (? & Hp & item & ? & ?).
      exists key, items, item. rewrite Hp. by repeat split; [left|..].
    + exists []. by rewrite app_nil_r.
    + exists []. by rewrite app_nil_r.
  - destruct (ParameterName_get key) as [name| |]; [apply Hitems|done..].
Qed.

Lemma from_data_weaken k data data' p :
  data ⊆ data' ->
  SaveParameters.from_data float ParameterName_get k data p ->
  SaveParameters.from_data float ParameterName_get k data' p.
Proof.
  intros Hsub (key & items & item & Hin & ?). exists key, items, item.
  split; [by apply Hsub|done].
Qed.

Lemma save_keys_known partype k rows data :
  SaveParameters.new_parameter partype = Some k ->
  exists new e,
    SaveParameters.save_keys F float ParameterName_get save partype rows data
    = (rows ++ new, e) ∧
    Forall (SaveParameters.from_data float ParameterName_get k data) new ∧
    (e = None ∨
     e = Some SaveParameters.MultipleObjectsReturned ∧
     exists entry, entry ∈ data ∧
                   ParameterName_get entry.1 = SaveParameters.MultipleReturned) ∧
    ((forall entry, entry ∈ data ->
        ParameterName_get entry.1 ≠ SaveParameters.MultipleReturned) ->
     e = None).
Proof.
  intros Hk. revert rows. induction data as [|entry data IH]; intros rows; simpl.
  - exists [], None. rewrite app_nil_r. repeat split; [apply Forall_nil_2|by left].
  - pose proof (save_key_cases partype rows entry) as H1. rewrite Hk in H1.
    destruct H1 as (new1 & -> & Hnew1).
    assert (Forall (SaveParameters.from_data float ParameterName_get k
                      (entry :: data)) new1) as Hnew1'.
    { eapply Forall_impl; [exact Hnew1|]. intros p. apply from_data_weaken.
      intros x ->%list_elem_of_singleton. left. }
    destruct (ParameterName_get entry.1) as [name| |] eqn:Hget.
    + destruct (IH (rows ++ new1)) as (new2 & e & -> & Hnew2 & He & Hnone).
      exists (new1 ++ new2), e. rewrite app_assoc. split; [done|].
      split; [|split].
      * apply Forall_app_2; [done|]. eapply Forall_impl; [exact Hnew2|].
        intros p. apply from_data_weaken. intros x Hx. by right.
      * destruct He as [?|[? (entry' & ? & ?)]]; [by left|right].
        split; [done|]. exists entry'. split; [by right|done].
      * intros Hall. apply Hnone. intros entry' Hin. apply Hall. by right.
    + destruct (IH (rows ++ new1)) as (new2 & e & -> & Hnew2 & He & Hnone).
      exists (new1 ++ new2), e. rewrite app_assoc. split; [done|].
      split; [|split].
      * apply Forall_app_2; [done|]. eapply Forall_impl; [exact Hnew2|].
        intros p. apply from_data_weaken. intros x Hx. by right.
      * destruct He as [?|[? (entry' & ? & ?)]]; [by left|right].
        split; [done|]. exists entry'. split; [by right|done].
      * intros Hall. apply Hnone. intros entry' Hin. apply Hall. by right.
    + exists new1, (Some SaveParameters.MultipleObjectsReturned).
      split; [done|]. split; [done|]. split.
      * right. split; [done|]. exists entry. split; [left|done].
      * intros Hall. destruct (Hall entry); [left|done].
Qed.

Lemma save_keys_unknown partype rows data :
  SaveParameters.new_parameter partype = None ->
  (SaveParameters.save_keys F float ParameterName_get save partype rows data).1
  = rows ∧
  ((SaveParameters.save_keys F float ParameterName_get save partype rows data).2
   ≠ None
   <-> SaveParameters.resolves ParameterName_get data).
Proof.
  intros Hk. induction data as [|entry data [IH1 IH2]]; simpl.
  - split; [done|]. split; [done|]. intros (? & ? & Hin & _).
    by apply elem_of_nil in Hin.
  - pose proof (save_key_cases partype rows entry) as H1. rewrite Hk in H1.
    rewrite H1. clear H1. destruct entry as [key items]. simpl.
    unfold SaveParameters.resolves.
    destruct (ParameterName_get key) as [name| |] eqn:Hget.
    + destruct (decide (items = [])) as [->|Hne].
      * split; [done|]. rewrite IH2. split.
        -- intros (key' & items' & Hin & H). exists key', items'.
           split; [by right|done].
        -- intros (key' & items' & Hin & H).
           apply elem_of_cons in Hin as [[= -> ->]|Hin].
           ++ by rewrite Hget in H.
           ++ by exists key', items'.
      * split; [done|]. split; [|done]. intros _. exists key, items.
        split; [left|]. by rewrite Hget.
    + split; [done|]. rewrite IH2. split.
      * intros (key' & items' & Hin & H). exists key', items'.
        split; [by right|done].
      * intros (key' & items' & Hin & H).
        apply elem_of_cons in Hin as [[= -> ->]|Hin].
        -- by rewrite Hget in H.
        -- by exists key', items'.
    + split; [done|]. split; [|done]. intros _. exists key, items.
      split; [left|]. by rewrite Hget.
Qed.

Lemma save_keys_multiple partype rows data :
  (SaveParameters.save_keys F float ParameterName_get save partype rows data).2
  = Some SaveParameters.MultipleObjectsReturned ->
  exists entry, entry ∈ data ∧
    ParameterName_get entry.1 = SaveParameters.MultipleReturned.
Proof.
  revert rows. induction data as [|entry data IH]; intros rows; simpl; [done|].
  assert (forall rows',
            (SaveParameters.save_keys F float ParameterName_get save partype
               rows' data).2 = Some SaveParameters.MultipleObjectsReturned ->
            exists entry', entry' ∈ entry :: data ∧
              ParameterName_get entry'.1 = SaveParameters.MultipleReturned)
    as IH'.
  { intros rows' (entry' & ? & ?)%IH. exists entry'. split; [by right|done]. }
  pose proof (save_key_cases partype rows entry) as H1.
  destruct (SaveParameters.new_parameter partype) as [k|].
  - destruct H1 as (new1 & -> & _).
    destruct (ParameterName_get entry.1) eqn:Hget; [apply IH'..|].
    intros _. exists entry. split; [left|done].
  - rewrite H1.
    destruct (ParameterName_get entry.1) eqn:Hget.
    + destruct (decide (entry.2 = [])); [apply IH'|done].
    + apply IH'.
    + intros _. exists entry. split; [left|done].
Qed.

End SaveMore.

Lemma rstrip_chars_tail chars s :
  exists tail,
    s = SaveParameters.rstrip_chars chars s +:+ tail ∧
    forall c, Keeps.has_char c tail = true -> Keeps.has_char c chars = true.
Proof.
  induction s as [|a s (tail & Hs & Htail)]; [by exists ""|].
  simpl. destruct (SaveParameters.rstrip_chars chars s) as [|b r] eqn:Hr.
  - rewrite append_nil_l in Hs. subst tail.
    destruct (Keeps.has_char a chars) eqn:Ha.
    + exists (String a s). split; [done|]. intros c. simpl.
      intros [Hc|Hc]%orb_prop; [|by apply Htail].
      apply Ascii.eqb_eq in Hc. by subst.
    + exists s. by rewrite append_cons, append_nil_l.
  - exists tail. rewrite append_cons. by rewrite <- Hs.
Qed.

Lemma append_char_nonempty stem c : stem +:+ String c "" ≠ "".
Proof. by destruct stem. Qed.

Lemma rstrip_chars_last chars s stem c :
  SaveParameters.rstrip_chars chars s = stem +:+ String c "" ->
  Keeps.has_char c chars = false.
Proof.
  revert stem. induction s as [|a s IH]; intros stem; simpl.
  - intros H. symmetry in H. by apply append_char_nonempty in H.
  - destruct (SaveParameters.rstrip_chars chars s) as [|b r] eqn:Hr.
    + destruct (Keeps.has_char a chars) eqn:Ha.
      * intros H. symmetry in H. by apply append_char_nonempty in H.
      * destruct stem as [|a' stem].
        -- rewrite append_nil_l. by intros [= <-].
        -- rewrite append_cons. intros [= _ H]. symmetry in H.
           by apply append_char_nonempty in H.
    + destruct stem as [|a' stem].
      * rewrite append_nil_l. by intros [=].
      * rewrite append_cons. intros [= _ H]. by apply (IH stem).
Qed.

(** Property X24.  [partype] is the class name cut back to its last
    character other than [S], [e] and [t]: what is cut is a tail made of
    these three characters only, and what is left is empty or ends in
    another character.  So for a class name that ends in [Set] after such a
    character exactly the suffix [Set] goes, while [DatasetSet] is cut back
    to [Datas]. *)
Theorem partype_cuts_trailing_S_e_t (parset : string) :
  (exists tail,
     parset = SaveParameters.rstrip_chars "Set" parset +:+ tail ∧
     forall c, Keeps.has_char c tail = true -> Keeps.has_char c "Set" = true) ∧
  (forall stem c,
     SaveParameters.rstrip_chars "Set" parset = stem +:+ String c "" ->
     Keeps.has_char c "Set" = false) ∧
  (forall stem c,
     parset = stem +:+ String c "Set" ->
     Keeps.has_char c "Set" = false ->
     SaveParameters.rstrip_chars "Set" parset = stem +:+ String c "") ∧
  (parset = "DatasetSet" ->
   SaveParameters.rstrip_chars "Set" parset = "Datas").
Proof.
  split; [apply rstrip_chars_tail|].
  split; [apply rstrip_chars_last|].
  split; [|by intros ->].
  intros stem c -> Hc. rewrite rstrip_chars_append.
  change (SaveParameters.rstrip_chars "Set" (String c "Set"))
    with (if Keeps.has_char c "Set" then "" else String c "").
  by rewrite Hc.
Qed.

Lemma partype_cuts_trailing_S_e_t_witness :
  Keeps.has_char "r" "Set" = false
  ∧ SaveParameters.rstrip_chars "Set" "ExperimentParameterSet"
    = "ExperimentParameter"
  ∧ Keeps.has_char "s" "Set" = false.
Proof.
  split; [reflexivity|]. split.
  - apply (proj1 (proj2 (proj2 (partype_cuts_trailing_S_e_t
                                  "ExperimentParameterSet")))
                 "ExperimentParamete" "r"%char); reflexivity.
  - apply (proj1 (proj2 (partype_cuts_trailing_S_e_t "DatasetSet")) "Data" "s"%char).
    reflexivity.
Defined.

Lemma model_class_partype parset k :
  (parset, k) ∈ [("DatafileParameterSet", SaveParameters.DatafileParameter);
                 ("DatasetParameterSet", SaveParameters.DatasetParameter);
                 ("ExperimentParameterSet", SaveParameters.ExperimentParameter)] ->
  SaveParameters.new_parameter (SaveParameters.rstrip_chars "Set" parset) = Some k.
Proof.
  intros Hin. repeat (apply elem_of_cons in Hin as [[= -> ->]|Hin]; [reflexivity|]).
  by apply elem_of_nil in Hin.
Qed.

(** Property X25.  For the parameter sets of the three models, and a
    catalogue that never holds several names for one key, the function raises
    nothing: it keeps the rows saved before and adds only rows of the set's
    own model, each with the name the catalogue gave for a key of [data] and
    the value of one of that key's items (the item itself, or the number read
    from its first token when the name is numeric). *)
Theorem model_parameter_sets_save_their_data
    {F : Type} (float : string -> option F)
    (ParameterName_get : string -> SaveParameters.Lookup)
    (save : list (SaveParameters.Row F) -> SaveParameters.Row F -> bool)
    (parset : string) (k : SaveParameters.Kind)
    (rows : list (SaveParameters.Row F)) (data : list (string * list string)) :
  (parset, k) ∈ [("DatafileParameterSet", SaveParameters.DatafileParameter);
                 ("DatasetParameterSet", SaveParameters.DatasetParameter);
                 ("ExperimentParameterSet", SaveParameters.ExperimentParameter)] ->
  (forall entry, entry ∈ data ->
     ParameterName_get entry.1 ≠ SaveParameters.MultipleReturned) ->
  exists new,
    SaveParameters._save_parameters F float ParameterName_get save parset rows data
    = (rows ++ new, None) ∧
    Forall (SaveParameters.from_data float ParameterName_get k data) new.
Proof.
  intros Hk%model_class_partype Hall. unfold SaveParameters._save_parameters.
  destruct (save_keys_known float ParameterName_get save _ _ rows data Hk)
    as (new & e & -> & Hnew & _ & Hnone).
  exists new. by rewrite (Hnone Hall).
Qed.

Lemma model_parameter_sets_save_their_data_witness :
  exists new,
    SaveParameters._save_parameters Z
      (fun value => if decide (value = "12") then Some 12%Z else None)
      (fun key => if decide (key = "wavelength")
                  then SaveParameters.Found
                         {| SaveParameters.name := "wavelength";
                            SaveParameters.numeric := true |}
                  else SaveParameters.DoesNotExist)
      (fun _ _ => true) "DatafileParameterSet" []
      [("wavelength", ["12 mm"; "n/a"]); ("colour", ["red"])]
    = ([] ++ new, None) ∧
    Forall (SaveParameters.from_data
              (fun value => if decide (value = "12") then Some 12%Z else None)
              (fun key => if decide (key = "wavelength")
                          then SaveParameters.Found
                                 {| SaveParameters.name := "wavelength";
                                    SaveParameters.numeric := true |}
                          else SaveParameters.DoesNotExist)
              SaveParameters.DatafileParameter
              [("wavelength", ["12 mm"; "n/a"]); ("colour", ["red"])]) new.
Proof.
  apply (model_parameter_sets_save_their_data _ _ _ "DatafileParameterSet").
  - apply list_elem_of_here.
  - intros entry _. by case_decide.
Defined.

(** Property X26.  Whatever the class and the catalogue, the rows saved
    before the call are kept, also when the function raises; it raises
    [ObjectDoesNotExist] only for a class other than the three models, having
    saved nothing, and [MultipleObjectsReturned] only when the catalogue
    holds several names for a key of [data]. *)
Theorem save_parameters_keeps_rows_and_raises_for_cause
    {F : Type} (float : string -> option F)
    (ParameterName_get : string -> SaveParameters.Lookup)
    (save : list (SaveParameters.Row F) -> SaveParameters.Row F -> bool)
    (parset : string) (rows : list (SaveParameters.Row F))
    (data : list (string * list string)) :
  exists new e,
    SaveParameters._save_parameters F float ParameterName_get save parset rows data
    = (rows ++ new, e) ∧
    match e with
    | None => True
    | Some SaveParameters.ObjectDoesNotExist =>
        SaveParameters.new_parameter (SaveParameters.rstrip_chars "Set" parset)
        = None ∧ new = []
    | Some SaveParameters.MultipleObjectsReturned =>
        exists entry, entry ∈ data ∧
          ParameterName_get entry.1 = SaveParameters.MultipleReturned
    end.
Proof.
  unfold SaveParameters._save_parameters.
  destruct (SaveParameters.new_parameter (SaveParameters.rstrip_chars "Set" parset))
    as [k|] eqn:Hk.
  - destruct (save_keys_known float ParameterName_get save _ _ rows data Hk)
      as (new & e & -> & _ & He & _).
    exists new, e. split; [done|]. by destruct He as [->|[-> ?]].
  - destruct (save_keys_unknown float ParameterName_get save _ rows data Hk)
      as [Hrows Hraise].
    destruct (SaveParameters.save_keys _ _ _ _ _ rows data) as [rows' e] eqn:Hres.
    simpl in Hrows, Hraise. subst rows'.
    exists [], e. rewrite app_nil_r. split; [done|].
    destruct e as [[]|]; [done| |done].
    apply (save_keys_multiple float ParameterName_get save
             (SaveParameters.rstrip_chars "Set" parset) rows data).
    by rewrite Hres.
Qed.

(** Property X27.  For a parameter set of any other class nothing is saved,
    and the function raises exactly when some key of [data] gets past the
    catalogue: one with several names, or one with a name and at least one
    value.  With no such key it returns normally. *)
Theorem unknown_class_saves_nothing
    {F : Type} (float : string -> option F)
    (ParameterName_get : string -> SaveParameters.Lookup)
    (save : list (SaveParameters.Row F) -> SaveParameters.Row F -> bool)
    (parset : string) (rows : list (SaveParameters.Row F))
    (data : list (string * list string)) :
  SaveParameters.new_parameter (SaveParameters.rstrip_chars "Set" parset) = None ->
  (SaveParameters._save_parameters F float ParameterName_get save parset rows
     data).1 = rows ∧
  ((SaveParameters._save_parameters F float ParameterName_get save parset rows
      data).2 ≠ None
   <-> SaveParameters.resolves ParameterName_get data).
Proof. apply save_keys_unknown. Qed.

Lemma unknown_class_saves_nothing_witness :
  (SaveParameters._save_parameters Z (fun _ => None)
     (fun _ => SaveParameters.Found {| SaveParameters.name := "title";
                                       SaveParameters.numeric := false |})
     (fun _ _ => true) "DatasetSet" [] [("title", ["first"])]).1 = [] ∧
  ((SaveParameters._save_parameters Z (fun _ => None)
      (fun _ => SaveParameters.Found {| SaveParameters.name := "title";
                                        SaveParameters.numeric := false |})
      (fun _ _ => true) "DatasetSet" [] [("title", ["first"])]).2 ≠ None
   <-> SaveParameters.resolves
         (fun _ => SaveParameters.Found {| SaveParameters.name := "title";
                                           SaveParameters.numeric := false |})
         [("title", ["first"])]).
Proof.
  apply (unknown_class_saves_nothing (F := Z)). reflexivity.
Defined.

Lemma split_space_head value rest :
  Keeps.has_char " " value = false ->
  (split_go " " None 0 (value +:+ String " " rest)).1 = value.
Proof.
  induction value as [|c value IH]; simpl Keeps.has_char.
  - intros _. rewrite append_nil_l, split_go_cons, prefix_single. simpl.
    by destruct (split_go " " None 0 rest).
  - intros [Hc Hv]%orb_false_elim. rewrite append_cons, split_go_cons.
    rewrite prefix_single, Hc. simpl.
    specialize (IH Hv).
    destruct (split_go " " None 0 (value +:+ String " " rest)). simpl in *.
    by rewrite IH.
Qed.

Lemma split_space_whole value :
  Keeps.has_char " " value = false ->
  (split_go " " None 0 value).1 = value.
Proof.
  induction value as [|c value IH]; simpl Keeps.has_char; [done|].
  intros [Hc Hv]%orb_false_elim. rewrite split_go_cons.
  rewrite prefix_single, Hc. simpl. specialize (IH Hv).
  destruct (split_go " " None 0 value). simpl in *. by rewrite IH.
Qed.

Lemma head_split sep maxsplit s :
  split sep maxsplit s
  = (split_go sep maxsplit 0 s).1 :: (split_go sep maxsplit 0 s).2.
Proof. unfold split. by destruct (split_go sep maxsplit 0 s). Qed.

(** Property X28.  For a numeric parameter only the text before the first
    space of an item counts: whatever unit follows it, the item saves what
    the bare number saves, and is skipped when the bare number is. *)
Theorem numeric_items_ignore_units
    {F : Type} (float : string -> option F)
    (save : list (SaveParameters.Row F) -> SaveParameters.Row F -> bool)
    (partype : string) (name : SaveParameters.ParameterName)
    (rows : list (SaveParameters.Row F)) (value unit : string) :
  SaveParameters.numeric name = true ->
  Keeps.has_char " " value = false ->
  SaveParameters.save_item F float save partype name rows
    (value +:+ " " +:+ unit)
  = SaveParameters.save_item F float save partype name rows value.
Proof.
  intros Hnum Hvalue. unfold SaveParameters.save_item. rewrite Hnum.
  rewrite !head_split.
  change (value +:+ " " +:+ unit) with (value +:+ String " " unit).
  by rewrite split_space_head, split_space_whole.
Qed.

Lemma numeric_items_ignore_units_witness :
  SaveParameters.save_item Z
    (fun value => if decide (value = "12") then Some 12%Z else None)
    (fun _ _ => true) "DatafileParameter"
    {| SaveParameters.name := "wavelength"; SaveParameters.numeric := true |}
    [] ("12" +:+ " " +:+ "mm")
  = SaveParameters.save_item Z
      (fun value => if decide (value = "12") then Some 12%Z else None)
      (fun _ _ => true) "DatafileParameter"
      {| SaveParameters.name := "wavelength"; SaveParameters.numeric := true |}
      [] "12".
Proof.
  apply (numeric_items_ignore_units (F := Z)); reflexivity.
Defined.

(** ** register_metaman *)

Lemma event_elem_of (x : View.Event) (l : list View.Event) :
  x ∈ l <-> existsb (fun y => match x, y with
                              | View.Authenticate, View.Authenticate
                              | View.Login, View.Login
                              | View.ParseMetaman, View.ParseMetaman
                              | View.Logout, View.Logout => true
                              | View.RenderDiscarded a, View.RenderDiscarded b =>
                                  Bool.eqb a b
                              | _, _ => false
                              end) l = true.
Proof.
  rewrite existsb_exists, list_elem_of_In. split.
  - intros Hx. exists x. split; [done|]. destruct x; try done.
    by destruct error.
  - intros (y & Hy & Heq). destruct x, y; try done.
    apply Bool.eqb_prop in Heq. by subst.
Qed.

Ltac view_case :=
  repeat split; intros;
  repeat match goal with
         | H : _ ∧ _ |- _ => destruct H
         | H : ex _ |- _ => destruct H
         | H : False |- _ => destruct H
         end;
  try discriminate; try congruence; eauto.

(** Property X29.  The view logs the user in and calls [_parse_metaman]
    exactly for a POST request with a valid form whose credentials
    authenticate an active user; it answers with an experiment id exactly
    when, besides, [_parse_metaman] returned one, and only then logs the
    user out again. *)
Theorem ingest_runs_only_for_active_users
    {E : Type} (post is_valid : bool) (auth : View.AuthResult)
    (parsed : E + option Z) :
  (View.ParseMetaman ∈ (View.register_metaman post is_valid auth parsed).1
   <-> post = true ∧ is_valid = true ∧ auth = View.User true) ∧
  (View.Login ∈ (View.register_metaman post is_valid auth parsed).1
   <-> View.ParseMetaman ∈ (View.register_metaman post is_valid auth parsed).1) ∧
  (forall expid,
     (View.register_metaman post is_valid auth parsed).2 = View.HttpResponse expid
     <-> post = true ∧ is_valid = true ∧ auth = View.User true ∧
         parsed = inr (Some expid)) ∧
  (View.Logout ∈ (View.register_metaman post is_valid auth parsed).1
   <-> exists expid,
         (View.register_metaman post is_valid auth parsed).2
         = View.HttpResponse expid).
Proof.
  rewrite !event_elem_of.
  destruct post, is_valid, auth as [|[]], parsed as [e|[expid|]]; simpl;
    view_case.
Qed.

(** Property X30.  The view answers with a server error exactly when an
    active user's valid upload does not yield an experiment id: when
    [_parse_metaman] raises, and also when it returns [None] because no
    selected beamline is known.  The user is then left logged in.  And no
    request is answered with the form page marked as an error: the page
    rendered with that mark for an invalid form is discarded. *)
Theorem failed_ingest_is_a_server_error
    {E : Type} (post is_valid : bool) (auth : View.AuthResult)
    (parsed : E + option Z) :
  ((View.register_metaman post is_valid auth parsed).2
   = View.HttpResponseServerError
   <-> post = true ∧ is_valid = true ∧ auth = View.User true ∧
       match parsed with inr (Some _) => False | _ => True end) ∧
  ((View.register_metaman post is_valid auth parsed).2
   = View.HttpResponseServerError ->
   View.Login ∈ (View.register_metaman post is_valid auth parsed).1 ∧
   View.Logout ∉ (View.register_metaman post is_valid auth parsed).1) ∧
  (forall bound,
     (View.register_metaman post is_valid auth parsed).2
     ≠ View.FormPage bound true) ∧
  (View.RenderDiscarded true
     ∈ (View.register_metaman post is_valid auth parsed).1
   <-> post = true ∧ is_valid = false).
Proof.
  rewrite !event_elem_of.
  destruct post, is_valid, auth as [|[]], parsed as [e|[expid|]]; simpl;
    view_case.
Qed.

Lemma failed_ingest_is_a_server_error_witness :
  View.Login ∈ (View.register_metaman (E := Py.exn) true true (View.User true)
                  (inr None)).1
  ∧ View.Logout ∉ (View.register_metaman (E := Py.exn) true true (View.User true)
                     (inr None)).1.
Proof.
  apply (proj1 (proj2 (failed_ingest_is_a_server_error (E := Py.exn)
                         true true (View.User true) (inr None)))).
  reflexivity.
Defined.
